(** * ChainerX linear-algebra routines: [Dot], [Eigh], [Eigvalsh]

    A shallow embedding of [chainerx/routines/linalg.cc].  The three entry
    points are translated statement by statement into a small state-and-error
    monad.  The state holds what the routines touch outside their arguments:
    the thread's backprop mode, the log of kernel dispatches and the op nodes
    that [BackwardBuilder] attaches to the graph.  The gradient closures are
    first-order data ([BackwardFn]) with an interpreter ([run_backward]), so
    that the closure of [Dot] can call [Dot] itself.

    The collaborators that [linalg.cc] only calls (array manipulation,
    creation and arithmetic routines, the backward builder, the kernels, dtype
    promotion) are not part of the translation unit.  Kernels, dtype promotion
    and the graph's knowledge of which arrays need a gradient are interfaces
    (type classes); the array helpers are modelled by their values. *)

From Stdlib Require Import String ZArith Bool Lia PrimFloat List.
Import ListNotations.
Local Open Scope Z_scope.

(* ================================================================= *)
(** ** Data model *)

Inductive Dtype : Set :=
  | kBool | kInt8 | kInt16 | kInt32 | kInt64 | kUInt8
  | kFloat16 | kFloat32 | kFloat64.

Record Device : Set := mkDevice { backend_name : string; device_index : Z }.

(** [Shape] holds [int64_t] extents. *)
Definition Shape := list Z.

(** An array is a logical view: extents, element type tag, device and the
    elements in row-major (C) order.  Strides and storage sharing are below
    this level. *)
Record Array (E : Type) : Type := mkArray
  { shape : Shape; dtype : Dtype; device : Device; data : list E }.

Arguments mkArray {E} _ _ _ _.
Arguments shape {E} _.
Arguments dtype {E} _.
Arguments device {E} _.
Arguments data {E} _.

(** Element arithmetic of the numeric dtypes; [sinf] is the value the scalar
    [INFINITY] takes in an array and [srecip x] is [1 / x]. *)
Class Scalar (T : Type) : Type :=
  { szero : T;
    sadd : T -> T -> T;
    ssub : T -> T -> T;
    smul : T -> T -> T;
    srecip : T -> T;
    sinf : T }.

(** IEEE binary64, the arithmetic of [Dtype::kFloat64]. *)
#[export] Instance Float64 : Scalar float :=
  { szero := 0%float;
    sadd := PrimFloat.add;
    ssub := PrimFloat.sub;
    smul := PrimFloat.mul;
    srecip := fun x => PrimFloat.div 1%float x;
    sinf := infinity }.

(** Errors: [DimensionError] is the only one [linalg.cc] throws itself; every
    other failure of a collaborator is a [ChainerxError].  [DivisionByZero]
    is no exception of the library: it is an [int64_t] division by zero, which
    C++ leaves undefined and on which the process is killed.  It ends the call
    like an error; [linalg.cc] catches nothing and no kernel scope is open
    where it can arise, so that nothing in the translation unit could tell
    the difference. *)
Inductive Error : Set :=
  | DimensionError (msg : string)
  | ChainerxError (msg : string)
  | DivisionByZero.

Inductive Result (A : Type) : Type :=
  | Ok (a : A)
  | Throw (e : Error).

Arguments Ok {A} _.
Arguments Throw {A} _.

Definition is_DimensionError {A} (r : Result A) : bool :=
  match r with Throw (DimensionError _) => true | _ => false end.

Definition rbind {A B} (r : Result A) (f : A -> Result B) : Result B :=
  match r with Ok a => f a | Throw e => Throw e end.

(* ================================================================= *)
(** ** Shapes and indices *)

Definition ndim {E} (a : Array E) : nat := length (shape a).

Definition TotalSize (s : Shape) : Z := fold_right Z.mul 1 s.

Definition GetTotalSize {E} (a : Array E) : Z := TotalSize (shape a).

(** [a.shape()[i]] *)
Definition dim {E} (a : Array E) (i : nat) : Z := nth i (shape a) 0.

(** [shape.back()] *)
Definition back (s : Shape) : Z := last s 0.

Definition nat_shape (s : Shape) : list nat := map Z.to_nat s.

Definition size_of (s : Shape) : nat := Z.to_nat (TotalSize s).

(** Extents are non-negative and the element list has the size of the shape. *)
Definition wf_shape (s : Shape) : Prop := Forall (fun d => 0 <= d) s.

Definition wf {E} (a : Array E) : Prop :=
  wf_shape (shape a) /\ length (data a) = size_of (shape a).

(** All multi-indices of a shape in row-major order. *)
Fixpoint indices (s : list nat) : list (list nat) :=
  match s with
  | [] => [[]]
  | d :: ds => flat_map (fun i => map (cons i) (indices ds)) (seq 0 d)
  end.

(** Row-major offset of a multi-index. *)
Definition ravel (s idx : list nat) : nat :=
  fold_left (fun acc p => (acc * fst p + snd p)%nat) (combine s idx) 0%nat.

Definition permute {A} (axes : list nat) (l : list A) (d : A) : list A :=
  map (fun ax => nth ax l d) axes.

Fixpoint position (t : nat) (axes : list nat) : nat :=
  match axes with
  | [] => 0%nat
  | ax :: rest => if Nat.eqb ax t then 0%nat else S (position t rest)
  end.

Definition inverse_axes (axes : list nat) : list nat :=
  map (fun t => position t axes) (seq 0 (length axes)).

Definition gather {E} (l : list E) (offsets : list nat) : list E :=
  flat_map (fun k => match nth_error l k with Some x => [x] | None => [] end) offsets.

Fixpoint chunks {A} (n cnt : nat) (l : list A) : list (list A) :=
  match cnt with
  | O => []
  | S c => firstn n l :: chunks n c (skipn n l)
  end.

Definition map2 {A B C} (f : A -> B -> C) (l1 : list A) (l2 : list B) : list C :=
  map (fun p => f (fst p) (snd p)) (combine l1 l2).

(* ================================================================= *)
(** ** Array helpers called by [linalg.cc]

    These routines live in [routines/manipulation], [routines/creation],
    [routines/arithmetic] and [routines/indexing]; only the values they return
    are modelled. *)

(** Modelled from the spec: [Array::Transpose(axes)] (routines/manipulation),
    the view whose axis [d] is axis [axes[d]] of the operand. *)
Definition TransposeAxes {E} (a : Array E) (axes : list nat) : Array E :=
  let s := nat_shape (shape a) in
  let out := permute axes s 0%nat in
  let inv := inverse_axes axes in
  mkArray (permute axes (shape a) 0) (dtype a) (device a)
    (gather (data a) (map (fun j => ravel s (permute inv j 0%nat)) (indices out))).

(** Modelled from the spec: [Array::Transpose()] without axes reverses them. *)
Definition Transpose {E} (a : Array E) : Array E :=
  TransposeAxes a (rev (seq 0 (ndim a))).

(** Modelled from the spec: the extent inference of [Reshape]
    (routines/manipulation), which is not part of the translation unit.  At
    most one extent may be negative; it becomes the total size divided by the
    product of the others, an [int64_t] division.  Neither the spec nor
    [linalg.cc] has a rule for a zero product: the division is then by zero
    and the call ends in [DivisionByZero]. *)
Definition GetInferredShape (s : Shape) (total_size : Z) : Result Shape :=
  let negatives := filter (fun d => d <? 0) s in
  let inferred :=
    match negatives with
    | [] => Ok s
    | [_] =>
        let rest_size := TotalSize (filter (fun d => negb (d <? 0)) s) in
        if rest_size =? 0 then Throw DivisionByZero
        else Ok (map (fun d => if d <? 0 then Z.quot total_size rest_size else d) s)
    | _ => Throw (DimensionError "Can only specify one unknown dimension")
    end in
  rbind inferred (fun s' =>
    if TotalSize s' =? total_size then Ok s'
    else Throw (DimensionError "Cannot reshape array")).

(** Modelled from the spec: [Array::Reshape] keeps the elements in row-major
    order and changes the extents; the sizes must agree. *)
Definition Reshape {E} (a : Array E) (s : Shape) : Result (Array E) :=
  rbind (GetInferredShape s (GetTotalSize a)) (fun s' =>
    Ok (mkArray s' (dtype a) (device a) (data a))).

Section Helpers.
Context {T : Type} `{Scalar T}.

(** Modelled from the spec: [Zeros] (routines/creation), a zero-filled
    array of the given shape, dtype and device. *)
Definition Zeros (s : Shape) (dt : Dtype) (dev : Device) : Array T :=
  mkArray s dt dev (repeat szero (size_of s)).

(** Modelled from the spec: [Empty] (routines/creation); the storage is
    uninitialised and is overwritten by the kernel that receives it. *)
Definition Empty (s : Shape) (dt : Dtype) (dev : Device) : Array T :=
  mkArray s dt dev (repeat szero (size_of s)).
End Helpers.

(** Broadcasting of extents, aligned at the last axis (both lists reversed). *)
Fixpoint broadcast_rev (s1 s2 : Shape) : option Shape :=
  match s1, s2 with
  | [], s => Some s
  | s, [] => Some s
  | d1 :: r1, d2 :: r2 =>
      match broadcast_rev r1 r2 with
      | None => None
      | Some r =>
          if d1 =? d2 then Some (d1 :: r)
          else if d1 =? 1 then Some (d2 :: r)
          else if d2 =? 1 then Some (d1 :: r)
          else None
      end
  end.

Definition BroadcastShapes (s1 s2 : Shape) : Result Shape :=
  match broadcast_rev (rev s1) (rev s2) with
  | Some r => Ok (rev r)
  | None => Throw (DimensionError "operands could not be broadcast together")
  end.

(** Elements of an array of extents [src] repeated to the extents [dst]
    (same rank; an extent of [src] is that of [dst] or [1]). *)
Fixpoint broadcast_data {A} (src dst : list nat) (l : list A) : list A :=
  match dst, src with
  | d :: ds, s :: ss =>
      if Nat.eqb s d
      then concat (map (broadcast_data ss ds) (chunks (fold_right Nat.mul 1%nat ss) s l))
      else concat (repeat (broadcast_data ss ds l) d)
  | _, _ => l
  end.

Definition pad_shape (n : nat) (s : list nat) : list nat :=
  repeat 1%nat (n - length s) ++ s.

Definition BroadcastTo {E} (a : Array E) (s : Shape) : Array E :=
  mkArray s (dtype a) (device a)
    (broadcast_data (pad_shape (length s) (nat_shape (shape a))) (nat_shape s) (data a)).

(** Modelled from the spec: the elementwise binary routines apply the
    operation directly when the shapes are equal and broadcast both operands
    to the common shape otherwise. *)
Definition BroadcastBinary {A B C} (f : A -> B -> C) (dt : Dtype)
    (x1 : Array A) (x2 : Array B) : Result (Array C) :=
  if list_eq_dec Z.eq_dec (shape x1) (shape x2)
  then Ok (mkArray (shape x1) dt (device x1) (map2 f (data x1) (data x2)))
  else
    rbind (BroadcastShapes (shape x1) (shape x2)) (fun s =>
      Ok (mkArray s dt (device x1)
            (map2 f (data (BroadcastTo x1 s)) (data (BroadcastTo x2 s))))).

(** Modelled from the spec: [ExpandDims] (routines/manipulation) inserts an
    axis of extent [1]. *)
Definition ExpandDims {E} (a : Array E) (axis : nat) : Array E :=
  mkArray (firstn axis (shape a) ++ 1 :: skipn axis (shape a))
    (dtype a) (device a) (data a).

(** Modelled from the spec: [Eye] (routines/creation), an [n]-by-[m] array
    with [one] where [j = i + k] and [zero] elsewhere. *)
Definition Eye {E} (zero one : E) (n m k : Z) (dt : Dtype) (dev : Device) : Array E :=
  mkArray [n; m] dt dev
    (flat_map (fun i => map (fun j => if Z.of_nat j =? Z.of_nat i + k then one else zero)
                          (seq 0 (Z.to_nat m)))
              (seq 0 (Z.to_nat n))).

(* ================================================================= *)
(** ** Interfaces of the collaborators *)

(** [ResultType] of [routines/type_util.h]: dtype promotion of two arrays. *)
Class TypeUtil (T : Type) : Type :=
  { ResultType : Array T -> Array T -> Dtype }.

(** The kernels reached through [a.device().backend().CallKernel<...>].
    [DotKernel a b out] yields the elements written to [out]; [SyevdKernel a
    uplo compute_v] yields [(w, v)].  [None] is a kernel that throws. *)
Class Backend (T : Type) : Type :=
  { DotKernel : Array T -> Array T -> Array T -> option (list T);
    SyevdKernel : Array T -> string -> bool -> option (Array T * Array T) }.

(** What the graph knows of an array: whether a gradient is wanted for it. *)
Class GraphEngine (T : Type) : Type :=
  { IsBackpropRequired : Array T -> bool }.

(* ================================================================= *)
(** ** Graph, state and the monad of the routines *)

Inductive KernelName : Set := kDotKernel | kSyevdKernel.

(** One kernel dispatch, with the backprop mode that was in force. *)
Record KernelCall : Set := mkKernelCall
  { call_kernel : KernelName; call_recording : bool }.

Inductive RetainedInputToken : Set := InputToken (index : nat).
Inductive RetainedOutputToken : Set := OutputToken (index : nat).

(** The gradient closures of [linalg.cc], with what each one captures. *)
Inductive BackwardFn : Set :=
  | DotGradA (b_matrix_tok : RetainedInputToken) (a_dtype : Dtype)
  | DotGradB (a_matrix_tok : RetainedInputToken) (b_dtype : Dtype)
  | EighGrad (a_tok : RetainedInputToken) (w_tok v_tok : RetainedOutputToken).

(** [BackwardBuilder::Target]: the input it stands for. *)
Record Target : Set := mkTarget { target_input : nat }.

Record TargetDef : Set := mkTargetDef
  { def_input : nat; def_fn : BackwardFn }.

Section Routines.
Context {T : Type} `{Scalar T} `{TypeUtil T} `{Backend T} `{GraphEngine T}.

Record OpNode : Type := mkOpNode
  { op_name : string;
    op_inputs : list (Array T);
    op_outputs : list (Array T);
    op_retained_inputs : list nat;
    op_retained_outputs : list nat;
    op_targets : list TargetDef }.

(** [backprop_mode = true]: operations are recorded in the graph. *)
Record State : Type := mkState
  { backprop_mode : bool;
    kernel_log : list KernelCall;
    graph : list OpNode }.

Definition M (A : Type) : Type := State -> Result A * State.

Definition ret {A} (a : A) : M A := fun s => (Ok a, s).

Definition throw {A} (e : Error) : M A := fun s => (Throw e, s).

Definition bind {A B} (c : M A) (f : A -> M B) : M B := fun s =>
  match c s with
  | (Ok a, s') => f a s'
  | (Throw e, s') => (Throw e, s')
  end.

Definition lift {A} (r : Result A) : M A := fun s => (r, s).

Notation "x <- c1 ;; c2" := (bind c1 (fun x => c2))
  (at level 61, c1 at next level, right associativity).
Notation "c1 ;;; c2" := (bind c1 (fun _ => c2))
  (at level 61, right associativity).

(** Modelled from the spec: [NoBackpropModeScope] (backprop_mode.h), a scoped
    no-recording mode entered before the body and restored to the prior mode
    afterwards, whether the body returns or throws. *)
Definition NoBackpropModeScope {A} (body : M A) : M A := fun s =>
  let prior := backprop_mode s in
  let '(r, s') := body (mkState false (kernel_log s) (graph s)) in
  (r, mkState prior (kernel_log s') (graph s')).

Definition log_kernel (k : KernelName) (s : State) : State :=
  mkState (backprop_mode s)
    (kernel_log s ++ [mkKernelCall k (backprop_mode s)]) (graph s).

(** [backend.CallKernel<DotKernel>(a, b, out)] *)
Definition CallDotKernel (a b out : Array T) : M (Array T) := fun s =>
  match DotKernel a b out with
  | Some d => (Ok (mkArray (shape out) (dtype out) (device out) d), log_kernel kDotKernel s)
  | None => (Throw (ChainerxError "DotKernel"), log_kernel kDotKernel s)
  end.

(** [backend.CallKernel<SyevdKernel>(a, uplo, compute_v)] *)
Definition CallSyevdKernel (a : Array T) (uplo : string) (compute_v : bool)
  : M (Array T * Array T) := fun s =>
  match SyevdKernel a uplo compute_v with
  | Some wv => (Ok wv, log_kernel kSyevdKernel s)
  | None => (Throw (ChainerxError "SyevdKernel"), log_kernel kSyevdKernel s)
  end.

(** Modelled from the spec: the graph-builder interface (backward_builder.h).
    A builder is begun with a name, the inputs and the outputs; [CreateTarget]
    is empty when the input is not differentiable in the current context;
    [RetainInput]/[RetainOutput] hand out tokens; [Define] binds a closure to
    a target; [Finalize] attaches the op node when a target was defined. *)
Record BackwardBuilder : Type := mkBackwardBuilder
  { bb_name : string;
    bb_inputs : list (Array T);
    bb_outputs : list (Array T);
    bb_retained_inputs : list nat;
    bb_retained_outputs : list nat;
    bb_targets : list TargetDef }.

Definition BeginRule (name : string) (inputs outputs : list (Array T)) : BackwardBuilder :=
  mkBackwardBuilder name inputs outputs [] [] [].

Definition CreateTarget (bb : BackwardBuilder) (i : nat) : M (option Target) := fun s =>
  match nth_error (bb_inputs bb) i with
  | Some x =>
      if (backprop_mode s && IsBackpropRequired x)%bool
      then (Ok (Some (mkTarget i)), s) else (Ok None, s)
  | None => (Ok None, s)
  end.

Definition RetainInput (bb : BackwardBuilder) (i : nat) : BackwardBuilder * RetainedInputToken :=
  (mkBackwardBuilder (bb_name bb) (bb_inputs bb) (bb_outputs bb)
     (bb_retained_inputs bb ++ [i]) (bb_retained_outputs bb) (bb_targets bb),
   InputToken i).

Definition RetainOutput (bb : BackwardBuilder) (i : nat) : BackwardBuilder * RetainedOutputToken :=
  (mkBackwardBuilder (bb_name bb) (bb_inputs bb) (bb_outputs bb)
     (bb_retained_inputs bb) (bb_retained_outputs bb ++ [i]) (bb_targets bb),
   OutputToken i).

Definition Define (bb : BackwardBuilder) (bt : Target) (fn : BackwardFn) : BackwardBuilder :=
  mkBackwardBuilder (bb_name bb) (bb_inputs bb) (bb_outputs bb)
    (bb_retained_inputs bb) (bb_retained_outputs bb)
    (bb_targets bb ++ [mkTargetDef (target_input bt) fn]).

Definition node_of (bb : BackwardBuilder) : OpNode :=
  mkOpNode (bb_name bb) (bb_inputs bb) (bb_outputs bb)
    (bb_retained_inputs bb) (bb_retained_outputs bb) (bb_targets bb).

Definition Finalize (bb : BackwardBuilder) : M unit := fun s =>
  match bb_targets bb with
  | [] => (Ok tt, s)
  | _ => (Ok tt, mkState (backprop_mode s) (kernel_log s) (graph s ++ [node_of bb]))
  end.

(* ----------------------------------------------------------------- *)
(** *** Arithmetic, indexing and creation routines used by the closures *)

(** Modelled from the spec: [operator*], elementwise multiply. *)
Definition Multiply (x1 x2 : Array T) : Result (Array T) :=
  BroadcastBinary smul (ResultType x1 x2) x1 x2.

(** Modelled from the spec: [operator+], elementwise add. *)
Definition Add (x1 x2 : Array T) : Result (Array T) :=
  BroadcastBinary sadd (ResultType x1 x2) x1 x2.

(** Modelled from the spec: [operator-], elementwise subtract. *)
Definition Subtract (x1 x2 : Array T) : Result (Array T) :=
  BroadcastBinary ssub (ResultType x1 x2) x1 x2.

(** Modelled from the spec: [Reciprocal], the elementwise inverse [1 / x]. *)
Definition Reciprocal (x : Array T) : Array T :=
  mkArray (shape x) (dtype x) (device x) (map srecip (data x)).

(** Modelled from the spec: [Where(condition, Scalar x, Array y)] selects [x]
    where the condition holds and the element of [y] elsewhere. *)
Definition Where (condition : Array bool) (x : T) (y : Array T) : Result (Array T) :=
  BroadcastBinary (fun (c : bool) (e : T) => if c then x else e) (dtype y) condition y.

(** Modelled from the spec: [Diag] places a vector on a matrix diagonal
    (zeros elsewhere); of a matrix it is the vector of the diagonal. *)
Definition Diag (v : Array T) : Result (Array T) :=
  match shape v with
  | [n] =>
      Ok (mkArray [n; n] (dtype v) (device v)
            (flat_map (fun p => map (fun j => if Nat.eqb (fst p) j then snd p else szero)
                                  (seq 0 (Z.to_nat n)))
                      (combine (seq 0 (Z.to_nat n)) (data v))))
  | [n; m] =>
      Ok (mkArray [Z.min n m] (dtype v) (device v)
            (gather (data v) (map (fun i => (i * Z.to_nat m + i)%nat)
                                  (seq 0 (Z.to_nat (Z.min n m))))))
  | _ => Throw (DimensionError "Input must be 1D or 2D.")
  end.

(* ================================================================= *)
(** ** [Dot] *)

Definition Dot (a b : Array T) (out_dtype : option Dtype) : M (Array T) :=
  let real_out_dtype :=
    match out_dtype with Some dt => dt | None => ResultType a b end in
  if (Nat.eqb (ndim a) 0 || Nat.eqb (ndim b) 0)%bool then lift (Multiply a b)
  else
    let out_shape := removelast (shape a) in
    mb <- (if (2 <? ndim b)%nat then
             let axes_index := seq 0 (ndim b) in
             let b_transpose_axes :=
               firstn (ndim b - 2) axes_index ++ rev (skipn (ndim b - 2) axes_index) in
             let modified_b := TransposeAxes b b_transpose_axes in
             let out_shape := out_shape ++ removelast (shape modified_b) in
             modified_b <- lift (Reshape modified_b [-1; back (shape modified_b)]) ;;
             ret (Transpose modified_b, out_shape)
           else ret (b, out_shape ++ tl (shape b))) ;;
    let modified_b := fst mb in
    let out_shape := snd mb in
    let k := dim a (ndim a - 1) in
    if negb (dim modified_b 0 =? k)
    then throw (DimensionError "Axis dimension mismatch")
    else if k =? 0 then ret (Zeros out_shape real_out_dtype (device a))
    else
      (* Make each operand a matrix *)
      let m := Z.quot (GetTotalSize a) k in
      let n := Z.quot (GetTotalSize b) k in
      a_matrix <- lift (Reshape a [m; k]) ;;
      b_matrix <- lift (Reshape modified_b [k; n]) ;;
      (* Matrix-matrix product *)
      let out_matrix := Empty [m; n] real_out_dtype (device a) in
      out_matrix <- NoBackpropModeScope (CallDotKernel a_matrix b_matrix out_matrix) ;;
      (let bb := BeginRule "dot" [a_matrix; b_matrix] [out_matrix] in
       bb <- (bt <- CreateTarget bb 0 ;;
              match bt with
              | Some bt =>
                  let '(bb, b_matrix_tok) := RetainInput bb 1 in
                  ret (Define bb bt (DotGradA b_matrix_tok (dtype a)))
              | None => ret bb
              end) ;;
       bb <- (bt <- CreateTarget bb 1 ;;
              match bt with
              | Some bt =>
                  let '(bb, a_matrix_tok) := RetainInput bb 0 in
                  ret (Define bb bt (DotGradB a_matrix_tok (dtype b)))
              | None => ret bb
              end) ;;
       Finalize bb) ;;;
      lift (Reshape out_matrix out_shape).

(* ================================================================= *)
(** ** [Eigh] and its gradient closure *)

(** [ExpandDims(w, 0) - ExpandDims(w, 1)] *)
Definition EighF_difference (w : Array T) : Result (Array T) :=
  Subtract (ExpandDims w 0) (ExpandDims w 1).

(** The diagonal of [F] filled with infinity:
    [Where(Eye(F.shape()[0], F.shape()[1], 0, Dtype::kBool, a.device()), INFINITY, F)] *)
Definition EighF_masked (a F : Array T) : Result (Array T) :=
  let mask := Eye false true (dim F 0) (dim F 1) 0 kBool (device a) in
  Where mask sinf F.

(** [F] as it enters the gradient formula: inverted after the masking. *)
Definition EighF (a w : Array T) : Result (Array T) :=
  rbind (EighF_difference w) (fun F =>
  rbind (EighF_masked a F) (fun F =>
  Ok (Reciprocal F))).

(** An absent output gradient is replaced by zeros. *)
Definition grad_or_zeros (g : option (Array T)) (like a : Array T) : Array T :=
  match g with
  | Some g => g
  | None => Zeros (shape like) (dtype a) (device a)
  end.

(** The body of the closure once [a], [w], [v] are redeemed and both output
    gradients are arrays. *)
Definition EighGradient (a w v gw gv : Array T) : M (Array T) :=
  let vt := Transpose v in
  F <- lift (EighF a w) ;;
  vt_gv <- Dot vt gv None ;;
  F_vt_gv <- lift (Multiply F vt_gv) ;;
  diag_gw <- lift (Diag gw) ;;
  inner <- lift (Add F_vt_gv diag_gw) ;;
  v_inner <- Dot v inner None ;;
  Dot v_inner vt None.

Definition EighBackward (a w v : Array T) (grad_w grad_v : option (Array T)) : M (Array T) :=
  let gw := grad_or_zeros grad_w w a in
  let gv := grad_or_zeros grad_v v a in
  EighGradient a w v gw gv.

Definition Eigh (a : Array T) (uplo : string) : M (Array T * Array T) :=
  if negb (Nat.eqb (ndim a) 2)
  then throw (DimensionError "ChainerX Eigh supports only 2-dimensional arrays.")
  else if negb (dim a 0 =? dim a 1)
  then throw (DimensionError "Matrix is not square.")
  else
    wv <- NoBackpropModeScope (CallSyevdKernel a uplo true) ;;
    let w := fst wv in
    let v := snd wv in
    (let bb := BeginRule "eigh" [a] [w; v] in
     bb <- (bt <- CreateTarget bb 0 ;;
            match bt with
            | Some bt =>
                let '(bb, a_tok) := RetainInput bb 0 in
                let '(bb, w_tok) := RetainOutput bb 0 in
                let '(bb, v_tok) := RetainOutput bb 1 in
                ret (Define bb bt (EighGrad a_tok w_tok v_tok))
            | None => ret bb
            end) ;;
     Finalize bb) ;;;
    ret (w, v).

(* ================================================================= *)
(** ** [Eigvalsh] *)

Definition Eigvalsh (a : Array T) (uplo : string) : M (Array T) :=
  if negb (Nat.eqb (ndim a) 2)
  then throw (DimensionError "ChainerX Eigvalsh supports only 2-dimensional arrays.")
  else if negb (dim a 0 =? dim a 1)
  then throw (DimensionError "Matrix is not square.")
  else
    wv <- NoBackpropModeScope (CallSyevdKernel a uplo false) ;;
    ret (fst wv).

(* ================================================================= *)
(** ** Running a gradient closure *)

(** Modelled from the spec: [BackwardContext] (backward_context.h) redeems
    the tokens of the op node and carries one optional gradient per output. *)
Record BackwardContext : Type := mkBackwardContext
  { bctx_inputs : list (Array T);
    bctx_outputs : list (Array T);
    bctx_output_grads : list (option (Array T)) }.

Definition GetRetainedInput (bctx : BackwardContext) (tok : RetainedInputToken) : M (Array T) :=
  match tok with
  | InputToken i =>
      match nth_error (bctx_inputs bctx) i with
      | Some x => ret x
      | None => throw (ChainerxError "retained input")
      end
  end.

Definition GetRetainedOutput (bctx : BackwardContext) (tok : RetainedOutputToken) : M (Array T) :=
  match tok with
  | OutputToken i =>
      match nth_error (bctx_outputs bctx) i with
      | Some x => ret x
      | None => throw (ChainerxError "retained output")
      end
  end.

(** [bctx.output_grad(i)] *)
Definition output_grad (bctx : BackwardContext) (i : nat) : option (Array T) :=
  match nth_error (bctx_output_grads bctx) i with
  | Some g => g
  | None => None
  end.

(** [*bctx.output_grad()] of an op with one output. *)
Definition the_output_grad (bctx : BackwardContext) : M (Array T) :=
  match output_grad bctx 0 with
  | Some g => ret g
  | None => throw (ChainerxError "output gradient")
  end.

(** The value a closure assigns to [bctx.input_grad()]. *)
Definition run_backward (fn : BackwardFn) (bctx : BackwardContext) : M (Array T) :=
  match fn with
  | DotGradA b_matrix_tok a_dtype =>
      b_matrix <- GetRetainedInput bctx b_matrix_tok ;;
      gout <- the_output_grad bctx ;;
      Dot gout (Transpose b_matrix) (Some a_dtype)
  | DotGradB a_matrix_tok b_dtype =>
      a_matrix <- GetRetainedInput bctx a_matrix_tok ;;
      gout <- the_output_grad bctx ;;
      Dot (Transpose a_matrix) gout (Some b_dtype)
  | EighGrad a_tok w_tok v_tok =>
      a <- GetRetainedInput bctx a_tok ;;
      w <- GetRetainedOutput bctx w_tok ;;
      v <- GetRetainedOutput bctx v_tok ;;
      EighBackward a w v (output_grad bctx 0) (output_grad bctx 1)
  end.

(** The context the engine hands to the closures of an op node. *)
Definition context_of (node : OpNode) (grads : list (option (Array T))) : BackwardContext :=
  mkBackwardContext (op_inputs node) (op_outputs node) grads.

End Routines.

Arguments OpNode : clear implicits.
Arguments State : clear implicits.
Arguments M : clear implicits.
Arguments BackwardBuilder : clear implicits.
Arguments BackwardContext : clear implicits.

(* ================================================================= *)
(** ** Matrices as lists of rows

    The mathematical side of the gradient formulas: the 2-D product, the
    elementwise operations and [diag], on lists of rows. *)

Section Matrices.
Context {T : Type} `{Scalar T}.

(** The rows of a 2-D array. *)
Definition rows_of (a : Array T) : list (list T) :=
  chunks (Z.to_nat (dim a 1)) (Z.to_nat (dim a 0)) (data a).

Definition dot_product (r c : list T) : T :=
  fold_left sadd (map2 smul r c) szero.

(** The [n] columns of a matrix. *)
Definition columns (n : nat) (B : list (list T)) : list (list T) :=
  map (fun j => map (fun r => nth j r szero) B) (seq 0 n).

(** The transpose of a matrix of [n] columns. *)
Definition mat_transpose (n : nat) (B : list (list T)) : list (list T) := columns n B.

(** [A . B] where [B] has [n] columns: entry [(i, j)] is the sum over [l] of
    [A[i][l] * B[l][j]]. *)
Definition mat_mul (n : nat) (A B : list (list T)) : list (list T) :=
  map (fun r => map (fun c => dot_product r c) (columns n B)) A.

Definition mat_add (A B : list (list T)) : list (list T) := map2 (map2 sadd) A B.

(** The elementwise product. *)
Definition hadamard (A B : list (list T)) : list (list T) := map2 (map2 smul) A B.

(** A vector on the diagonal of a square matrix, zeros elsewhere. *)
Definition diag_mat (g : list T) : list (list T) :=
  map (fun p => map (fun j => if Nat.eqb (fst p) j then snd p else szero)
                    (seq 0 (length g)))
      (combine (seq 0 (length g)) g).

(** The matrix of pairwise eigenvalue differences, [F[i][j] = w[j] - w[i]]. *)
Definition F_difference (w : list T) : list (list T) :=
  map (fun wi => map (fun wj => ssub wj wi) w) w.

(** [F] with its diagonal replaced by infinity. *)
Definition F_masked (w : list T) : list (list T) :=
  map (fun p => map (fun q => if Nat.eqb (fst p) (fst q) then sinf
                              else ssub (snd q) (snd p))
                    (combine (seq 0 (length w)) w))
      (combine (seq 0 (length w)) w).

(** [F] after the inversion as the spec words it: zero on the diagonal and
    [1 / (w[j] - w[i])] off the diagonal. *)
Definition F_inverse (w : list T) : list (list T) :=
  map (fun p => map (fun q => if Nat.eqb (fst p) (fst q) then szero
                              else srecip (ssub (snd q) (snd p)))
                    (combine (seq 0 (length w)) w))
      (combine (seq 0 (length w)) w).

(** The entry [(i, j)] of a matrix. *)
Definition entry (M : list (list T)) (i j : nat) : T := nth j (nth i M []) szero.

(** The gradient of [Eigh] as the spec words it:
    [v . (F o (vt . grad_v) + diag(grad_w)) . vt]. *)
Definition eigh_gradient_formula (n : nat) (w : list T) (V Gv : list (list T)) (gw : list T)
  : list (list T) :=
  let Vt := mat_transpose n V in
  mat_mul n (mat_mul n V (mat_add (hadamard (F_inverse w) (mat_mul n Vt Gv)) (diag_mat gw))) Vt.

(** The 2-D product written out on arrays: what a matrix-product kernel
    stores in its output. *)
Definition matrix_product_data (a b : Array T) : list T :=
  concat (mat_mul (Z.to_nat (dim b 1)) (rows_of a) (rows_of b)).

(** The entry [(j, k, l)] of a rank-3 array whose last two extents are [K] and
    [L], read off its row-major elements. *)
Definition tensor_entry (K L : nat) (d : list T) (j k l : nat) : T :=
  nth ((j * K + k) * L + l) d szero.

End Matrices.

(* ================================================================= *)
(** ** Instances for the examples *)

Definition dtype_rank (dt : Dtype) : nat :=
  match dt with
  | kBool => 0 | kUInt8 => 1 | kInt8 => 2 | kInt16 => 3 | kInt32 => 4
  | kInt64 => 5 | kFloat16 => 6 | kFloat32 => 7 | kFloat64 => 8
  end%nat.

(** A promotion that keeps the operand dtype of the higher rank. *)
#[export] Instance RankPromotion {T : Type} : TypeUtil T :=
  { ResultType := fun a b =>
      if (dtype_rank (dtype a) <=? dtype_rank (dtype b))%nat then dtype b else dtype a }.

Definition is_diagonal {T} (a : Array T) (iszero : T -> bool) : bool :=
  forallb (fun p => forallb (fun q => Nat.eqb (fst p) (fst q) || iszero (snd q))
                            (combine (seq 0 (length (snd p))) (snd p)))
          (combine (seq 0 (Z.to_nat (dim a 0))) (chunks (Z.to_nat (dim a 1)) (Z.to_nat (dim a 0)) (data a))).

(** A backend for the examples: the matrix product written out, and an
    eigensolver that is exact on the matrices it accepts (diagonal ones, whose
    eigenvalues are the diagonal and whose eigenvectors are the unit vectors)
    and throws on the others. *)
#[export] Instance ExampleBackend : Backend float :=
  { DotKernel := fun a b out => Some (matrix_product_data a b);
    SyevdKernel := fun a uplo compute_v =>
      if is_diagonal a (fun x => PrimFloat.eqb x 0%float) then
        let n := dim a 0 in
        let w := mkArray [n] (dtype a) (device a)
                   (gather (data a) (map (fun i => (i * Z.to_nat n + i)%nat) (seq 0 (Z.to_nat n)))) in
        let v := if compute_v
                 then Eye 0%float 1%float n n 0 (dtype a) (device a)
                 else mkArray [] (dtype a) (device a) [] in
        Some (w, v)
      else None }.

#[export] Instance AllDifferentiable {T : Type} : GraphEngine T :=
  { IsBackpropRequired := fun _ => true }.

(** A backend whose kernels throw. *)
Definition FailingBackend : Backend float :=
  {| DotKernel := fun _ _ _ => None;
     SyevdKernel := fun _ _ _ => None |}.

(** A backend whose eigensolver rounds differently when it computes no
    eigenvectors: asked for the eigenvalues alone, it returns each of them one
    unit in the last place above the one it returns along with the
    eigenvectors. *)
Definition FlagDependentBackend : Backend float :=
  {| DotKernel := fun a b out => Some (matrix_product_data a b);
     SyevdKernel := fun a uplo compute_v =>
       match @SyevdKernel float ExampleBackend a uplo compute_v with
       | Some (w, v) =>
           Some (if compute_v then w
                 else mkArray (shape w) (dtype w) (device w) (map next_up (data w)),
                 v)
       | None => None
       end |}.

(** A graph in which the arrays whose first element is 1 need a gradient. *)
Definition FirstIsOne : GraphEngine float :=
  {| IsBackpropRequired := fun x =>
       match data x with
       | e :: _ => PrimFloat.eqb e 1%float
       | [] => false
       end |}.

Definition cpu : Device := mkDevice "native" 0.

Definition float64_array (s : Shape) (d : list float) : Array float :=
  mkArray s kFloat64 cpu d.

Definition initial_state {T : Type} : State T := mkState true [] [].

(** The arrays of the examples. *)
Definition A22 : Array float := float64_array [2; 2] [1; 2; 3; 4]%float.
Definition B22 : Array float := float64_array [2; 2] [5; 6; 7; 8]%float.
Definition G22 : Array float := float64_array [2; 2] [1; 1; 1; 1]%float.
Definition A23 : Array float := float64_array [2; 3] [1; 2; 3; 4; 5; 6]%float.
Definition B232 : Array float :=
  float64_array [2; 3; 2] [1; 2; 3; 4; 5; 6; 7; 8; 9; 10; 11; 12]%float.
Definition A20 : Array float := float64_array [2; 0] [].
Definition B03 : Array float := float64_array [0; 3] [].
Definition B203 : Array float := float64_array [2; 0; 3] [].
Definition A25 : Array float :=
  float64_array [2; 5] [1; 2; 3; 4; 5; 6; 7; 8; 9; 10]%float.
Definition three : Array float := float64_array [] [3]%float.
Definition D22 : Array float := float64_array [2; 2] [1; 0; 0; 3]%float.
Definition w2 : Array float := float64_array [2] [1; 3]%float.
Definition I22 : Array float := float64_array [2; 2] [1; 0; 0; 1]%float.
Definition gw2 : Array float := float64_array [2] [5; 7]%float.

(* ================================================================= *)
(** ** The shape rule of the generalized product, as the spec words it *)

(** [l] without its [n]-th element, the others in their order. *)
Definition remove_nth {A} (n : nat) (l : list A) : list A :=
  firstn n l ++ skipn (S n) l.

(** The extent of the contracted axis of the left operand: its last axis. *)
Definition contracted_left {E} (a : Array E) : Z := back (shape a).

(** The extent of the contracted axis of the right operand: its first axis
    when its rank is at most 2, its second-to-last axis otherwise. *)
Definition contracted_right {E} (b : Array E) : Z :=
  if (ndim b <=? 2)%nat then dim b 0 else dim b (ndim b - 2).

(** The output shape: the left shape without its last axis, followed by the
    right shape without its contracted axis. *)
Definition dot_shape {E} (a b : Array E) : Shape :=
  if (ndim b <=? 2)%nat
  then removelast (shape a) ++ tl (shape b)
  else removelast (shape a) ++ remove_nth (ndim b - 2) (shape b).

(** The right shape without its contracted axis. *)
Definition dot_right_rest {E} (b : Array E) : Shape :=
  if (ndim b <=? 2)%nat then tl (shape b) else remove_nth (ndim b - 2) (shape b).

(** The input of [Eigh] and [Eigvalsh] is a square matrix. *)
Definition is_square_matrix {E} (a : Array E) : bool :=
  match shape a with
  | [n; m] => n =? m
  | _ => false
  end.

(* ================================================================= *)
(** ** The reduction of [Dot] to one 2-D product

    [Dot] cut in three steps, and the operands the kernel receives and the op
    node the builder attaches written as functions of the arguments. *)

Section Reduction.
Context {T : Type} `{Scalar T} `{TypeUtil T} `{Backend T} `{GraphEngine T}.

Definition real_out_dtype (a b : Array T) (out_dtype : option Dtype) : Dtype :=
  match out_dtype with Some dt => dt | None => ResultType a b end.

(** [Dot] in three steps: the choice of [modified_b] and [out_shape]
    (lines 39-61), the builder block (lines 84-101) and the rest. *)

Definition DotOperands (a b : Array T) : M T (Array T * Shape) :=
  let out_shape := removelast (shape a) in
  if (2 <? ndim b)%nat then
    let axes_index := seq 0 (ndim b) in
    let b_transpose_axes :=
      firstn (ndim b - 2) axes_index ++ rev (skipn (ndim b - 2) axes_index) in
    let modified_b := TransposeAxes b b_transpose_axes in
    let out_shape := out_shape ++ removelast (shape modified_b) in
    bind (lift (Reshape modified_b [-1; back (shape modified_b)])) (fun modified_b =>
    ret (Transpose modified_b, out_shape))
  else ret (b, out_shape ++ tl (shape b)).

(** The builder block of [Dot]. *)
Definition DotRegister (a b a_matrix b_matrix out_matrix : Array T) : M T unit :=
  let bb := BeginRule "dot" [a_matrix; b_matrix] [out_matrix] in
  bind (bind (CreateTarget bb 0) (fun bt =>
          match bt with
          | Some bt =>
              let '(bb, b_matrix_tok) := RetainInput bb 1 in
              ret (Define bb bt (DotGradA b_matrix_tok (dtype a)))
          | None => ret bb
          end)) (fun bb =>
  bind (bind (CreateTarget bb 1) (fun bt =>
          match bt with
          | Some bt =>
              let '(bb, a_matrix_tok) := RetainInput bb 0 in
              ret (Define bb bt (DotGradB a_matrix_tok (dtype b)))
          | None => ret bb
          end)) (fun bb =>
  Finalize bb)).

(** [Dot] from the mismatch check on, once [modified_b] and [out_shape] are
    set. *)
Definition DotProduct (a b : Array T) (out_dtype : option Dtype)
    (modified_b : Array T) (out_shape : Shape) : M T (Array T) :=
  let rdt := real_out_dtype a b out_dtype in
  let k := dim a (ndim a - 1) in
  if negb (dim modified_b 0 =? k)
  then throw (DimensionError "Axis dimension mismatch")
  else if k =? 0 then ret (Zeros out_shape rdt (device a))
  else
    let m := Z.quot (GetTotalSize a) k in
    let n := Z.quot (GetTotalSize b) k in
    bind (lift (Reshape a [m; k])) (fun a_matrix =>
    bind (lift (Reshape modified_b [k; n])) (fun b_matrix =>
    bind (NoBackpropModeScope
            (CallDotKernel a_matrix b_matrix (Empty [m; n] rdt (device a))))
         (fun out_matrix =>
    bind (DotRegister a b a_matrix b_matrix out_matrix) (fun _ =>
    lift (Reshape out_matrix out_shape))))).

(** The closed forms. *)

(** [b_transpose_axes] for a right operand of rank [n]: the axes
    [0 .. n-1], the last two in reverse order. *)
Definition b_transpose_axes (n : nat) : list nat :=
  let axes_index := seq 0 n in
  firstn (n - 2) axes_index ++ rev (skipn (n - 2) axes_index).

(** [modified_b] when the mismatch check is reached. *)
Definition dot_modified_b (b : Array T) : Array T :=
  if (2 <? ndim b)%nat then
    let axes_index := seq 0 (ndim b) in
    let tb := TransposeAxes b
                (firstn (ndim b - 2) axes_index ++ rev (skipn (ndim b - 2) axes_index)) in
    Transpose (mkArray [Z.quot (GetTotalSize tb) (back (shape tb)); back (shape tb)]
                 (dtype tb) (device tb) (data tb))
  else b.

Definition dot_a_matrix (a : Array T) : Array T :=
  let k := contracted_left a in
  mkArray [Z.quot (GetTotalSize a) k; k] (dtype a) (device a) (data a).

Definition dot_b_matrix (a b : Array T) : Array T :=
  let k := contracted_left a in
  let mb := dot_modified_b b in
  mkArray [k; Z.quot (GetTotalSize b) k] (dtype mb) (device mb) (data mb).

Definition dot_out_shape2 (a b : Array T) : Shape :=
  let k := contracted_left a in
  [Z.quot (GetTotalSize a) k; Z.quot (GetTotalSize b) k].

Definition dot_target_a (a : Array T) : TargetDef :=
  mkTargetDef 0 (DotGradA (InputToken 1) (dtype a)).

Definition dot_target_b (b : Array T) : TargetDef :=
  mkTargetDef 1 (DotGradB (InputToken 0) (dtype b)).

(** The op nodes [Dot] attaches: none when neither reduced operand is
    differentiable in the current mode, one node named "dot" otherwise. *)
Definition dot_nodes (recording : bool) (a b out_matrix : Array T) : list (OpNode T) :=
  let ta := (recording && IsBackpropRequired (dot_a_matrix a))%bool in
  let tb := (recording && IsBackpropRequired (dot_b_matrix a b))%bool in
  if (ta || tb)%bool then
    [mkOpNode "dot" [dot_a_matrix a; dot_b_matrix a b] [out_matrix]
       ((if ta then [1%nat] else []) ++ (if tb then [0%nat] else []))
       []
       ((if ta then [dot_target_a a] else []) ++ (if tb then [dot_target_b b] else []))]
  else [].

(** The state after a kernel ran in a no-recording scope. *)
Definition kernel_logged (k : KernelName) (s : State T) : State T :=
  mkState (backprop_mode s) (kernel_log s ++ [mkKernelCall k false]) (graph s).

(** The state after the kernel ran and the builder attached [nodes]. *)
Definition after_kernel (k : KernelName) (s : State T) (nodes : list (OpNode T)) : State T :=
  mkState (backprop_mode s) (kernel_log s ++ [mkKernelCall k false]) (graph s ++ nodes).

(** [Dot] on operands of rank at least 1, in closed form, when the reshape of
    the transposed right operand does not divide by zero. *)
Definition Dot_reduced (a b : Array T) (out_dtype : option Dtype) : M T (Array T) := fun s =>
  let rdt := real_out_dtype a b out_dtype in
  if negb (contracted_right b =? contracted_left a)
  then (Throw (DimensionError "Axis dimension mismatch"), s)
  else if contracted_left a =? 0
  then (Ok (Zeros (dot_shape a b) rdt (device a)), s)
  else
    match DotKernel (dot_a_matrix a) (dot_b_matrix a b)
                    (Empty (dot_out_shape2 a b) rdt (device a)) with
    | None => (Throw (ChainerxError "DotKernel"), kernel_logged kDotKernel s)
    | Some d =>
        (Ok (mkArray (dot_shape a b) rdt (device a) d),
         after_kernel kDotKernel s
           (dot_nodes (backprop_mode s) a b (mkArray (dot_out_shape2 a b) rdt (device a) d)))
    end.

(** The op node [Eigh] attaches when its input is differentiable. *)
Definition eigh_nodes (recording : bool) (a w v : Array T) : list (OpNode T) :=
  if (recording && IsBackpropRequired a)%bool then
    [mkOpNode "eigh" [a] [w; v] [0%nat] [0%nat; 1%nat]
       [mkTargetDef 0 (EighGrad (InputToken 0) (OutputToken 0) (OutputToken 1))]]
  else [].

(** [Eigh] in closed form. *)
Definition Eigh_reduced (a : Array T) (uplo : string) : M T (Array T * Array T) := fun s =>
  if negb (Nat.eqb (ndim a) 2)
  then (Throw (DimensionError "ChainerX Eigh supports only 2-dimensional arrays."), s)
  else if negb (dim a 0 =? dim a 1)
  then (Throw (DimensionError "Matrix is not square."), s)
  else
    match SyevdKernel a uplo true with
    | None => (Throw (ChainerxError "SyevdKernel"), kernel_logged kSyevdKernel s)
    | Some wv =>
        (Ok wv, after_kernel kSyevdKernel s (eigh_nodes (backprop_mode s) a (fst wv) (snd wv)))
    end.

(** [Eigvalsh] in closed form. *)
Definition Eigvalsh_reduced (a : Array T) (uplo : string) : M T (Array T) := fun s =>
  if negb (Nat.eqb (ndim a) 2)
  then (Throw (DimensionError "ChainerX Eigvalsh supports only 2-dimensional arrays."), s)
  else if negb (dim a 0 =? dim a 1)
  then (Throw (DimensionError "Matrix is not square."), s)
  else
    match SyevdKernel a uplo false with
    | None => (Throw (ChainerxError "SyevdKernel"), kernel_logged kSyevdKernel s)
    | Some wv => (Ok (fst wv), kernel_logged kSyevdKernel s)
    end.

(* ----------------------------------------------------------------- *)
(** *** Observations on a run *)

(** The run of [c] from [s] ends in a [DimensionError]. *)
Definition raises_DimensionError {A} (c : M T A) (s : State T) : Prop :=
  exists msg, fst (c s) = Throw (DimensionError msg).

(** The kernel dispatches made by a run from [s] that ends in [s']. *)
Definition dispatched (s s' : State T) (calls : list KernelCall) : Prop :=
  kernel_log s' = kernel_log s ++ calls.

(** Every kernel dispatch of [c] happens with recording suspended, and the
    mode in force before [c] is in force after it, whatever the outcome. *)
Definition kernels_unrecorded {A} (c : M T A) : Prop :=
  forall s,
    backprop_mode (snd (c s)) = backprop_mode s /\
    exists calls,
      dispatched s (snd (c s)) calls /\
      Forall (fun k => call_recording k = false) calls.

(** Run where recording is off, [c] leaves the graph and the mode alone. *)
Definition silent_when_off {A} (c : M T A) : Prop :=
  forall s, backprop_mode s = false ->
    graph (snd (c s)) = graph s /\ backprop_mode (snd (c s)) = false.

Definition rmap {A B} (f : A -> B) (r : Result A) : Result B :=
  match r with Ok a => Ok (f a) | Throw e => Throw e end.

(** The closure [Eigh] registers and the context the engine runs it in. *)
Definition eigh_closure : BackwardFn :=
  EighGrad (InputToken 0) (OutputToken 0) (OutputToken 1).

Definition eigh_context (a w v : Array T) (grads : list (option (Array T)))
  : BackwardContext T :=
  mkBackwardContext [a] [w; v] grads.

(** The retained inputs a closure captures. *)
Definition captured_inputs (fn : BackwardFn) : list RetainedInputToken :=
  match fn with
  | DotGradA b_matrix_tok _ => [b_matrix_tok]
  | DotGradB a_matrix_tok _ => [a_matrix_tok]
  | EighGrad a_tok _ _ => [a_tok]
  end.

(** The retained outputs a closure captures. *)
Definition captured_outputs (fn : BackwardFn) : list RetainedOutputToken :=
  match fn with
  | DotGradA _ _ => []
  | DotGradB _ _ => []
  | EighGrad _ w_tok v_tok => [w_tok; v_tok]
  end.

End Reduction.

(* ================================================================= *)
(** ** Lists and extents *)

Lemma map_nth_seq {A} (d : A) (l : list A) (m : nat) :
  (m <= length l)%nat -> map (fun i => nth i l d) (seq 0 m) = firstn m l.
Proof.
  revert m. induction l as [|x l IH]; intros m Hm.
  - simpl in Hm. assert (m = 0%nat) by lia. subst. reflexivity.
  - destruct m as [|m]; [reflexivity|].
    cbn [seq map firstn nth]. f_equal.
    rewrite <- seq_shift, map_map. simpl. apply IH. simpl in Hm. lia.
Qed.

Lemma map_nth_prefix {A} (d : A) (p r : list A) :
  map (fun i => nth i (p ++ r) d) (seq 0 (length p)) = p.
Proof.
  rewrite map_nth_seq by (rewrite length_app; lia).
  rewrite firstn_app, Nat.sub_diag, firstn_all. simpl. apply app_nil_r.
Qed.

Lemma split_last {A} (l : list A) :
  (1 <= length l)%nat -> exists p x, l = p ++ [x].
Proof.
  intros Hl. destruct (exists_last (l := l)) as [p [x Hx]].
  - intro E. subst. simpl in Hl. lia.
  - eauto.
Qed.

Lemma split_last_two {A} (l : list A) :
  (2 <= length l)%nat -> exists p y x, l = p ++ [y; x].
Proof.
  intros Hl. destruct (split_last l) as [q [x Hx]]; [lia|]. subst l.
  rewrite length_app in Hl. simpl in Hl.
  destruct (split_last q) as [p [y Hy]]; [lia|]. subst q.
  exists p, y, x. rewrite <- app_assoc. reflexivity.
Qed.

Lemma TotalSize_app (s1 s2 : Shape) :
  TotalSize (s1 ++ s2) = TotalSize s1 * TotalSize s2.
Proof.
  unfold TotalSize. induction s1 as [|d s1 IH]; simpl.
  - destruct (fold_right Z.mul 1 s2); reflexivity.
  - rewrite IH. ring.
Qed.

Lemma TotalSize_nonneg (s : Shape) : wf_shape s -> 0 <= TotalSize s.
Proof.
  unfold wf_shape, TotalSize. induction 1; simpl; [lia|]. nia.
Qed.

Lemma wf_shape_app (s1 s2 : Shape) :
  wf_shape (s1 ++ s2) <-> wf_shape s1 /\ wf_shape s2.
Proof. unfold wf_shape. apply Forall_app. Qed.

Lemma wf_shape_cons (d : Z) (s : Shape) :
  wf_shape (d :: s) <-> 0 <= d /\ wf_shape s.
Proof. unfold wf_shape. apply Forall_cons_iff. Qed.

Lemma nth_snoc {A} (p : list A) (x d : A) : nth (length p) (p ++ [x]) d = x.
Proof. rewrite app_nth2, Nat.sub_diag by lia. reflexivity. Qed.

(* ----------------------------------------------------------------- *)
(** *** [Reshape] *)

Lemma GetInferredShape_exact (s : Shape) (total : Z) :
  wf_shape s -> TotalSize s = total -> GetInferredShape s total = Ok s.
Proof.
  intros Hs Ht. unfold GetInferredShape.
  assert (Hf : filter (fun d => d <? 0) s = []).
  { clear Ht. induction Hs as [|d s Hd _ IH]; simpl; [reflexivity|].
    destruct (Z.ltb_spec d 0); [lia|]. exact IH. }
  rewrite Hf. simpl. rewrite (proj2 (Z.eqb_eq _ _) Ht). reflexivity.
Qed.

Lemma Reshape_exact {E} (a : Array E) (s : Shape) :
  wf_shape s -> TotalSize s = GetTotalSize a ->
  Reshape a s = Ok (mkArray s (dtype a) (device a) (data a)).
Proof.
  intros Hs Ht. unfold Reshape. rewrite GetInferredShape_exact by assumption.
  reflexivity.
Qed.

(** [Reshape({-1, c})] of an array whose last extent is [c]. *)
Lemma Reshape_infer_rows {E} (a : Array E) (p : Shape) (c : Z) :
  shape a = p ++ [c] -> wf_shape (shape a) -> c <> 0 ->
  Reshape a [-1; c] =
  Ok (mkArray [Z.quot (GetTotalSize a) c; c] (dtype a) (device a) (data a)).
Proof.
  intros Hs Hwf Hc0. unfold Reshape, GetInferredShape, GetTotalSize.
  rewrite Hs in *. apply wf_shape_app in Hwf. destruct Hwf as [Hp Hc].
  apply wf_shape_cons in Hc. destruct Hc as [Hc _].
  pose proof (TotalSize_nonneg p Hp) as Hpn.
  rewrite TotalSize_app. cbn [TotalSize fold_right filter Z.ltb Z.compare].
  destruct (Z.ltb_spec c 0) as [?|_]; [lia|].
  cbn [negb filter map Z.ltb Z.compare fold_right rbind].
  destruct (Z.ltb_spec c 0) as [?|_]; [lia|].
  rewrite !Z.mul_1_r.
  destruct (Z.eqb_spec c 0) as [?|_]; [contradiction|].
  cbn [rbind]. rewrite Z.quot_mul by assumption.
  replace (TotalSize [TotalSize p; c]) with (TotalSize p * c)
    by (unfold TotalSize at 2; simpl; ring).
  rewrite Z.eqb_refl. reflexivity.
Qed.

(** [Reshape({-1, 0})] divides by zero, whatever the array. *)
Lemma Reshape_infer_rows_zero {E} (a : Array E) :
  Reshape a [-1; 0] = Throw DivisionByZero.
Proof. reflexivity. Qed.

(* ================================================================= *)
(** ** Rows of arrays *)

Section Rows.
Context {A B C : Type}.

Lemma skipn_combine (n : nat) (l1 : list A) (l2 : list B) :
  skipn n (combine l1 l2) = combine (skipn n l1) (skipn n l2).
Proof.
  revert l1 l2. induction n as [|n IH]; intros l1 l2; [reflexivity|].
  destruct l1 as [|x l1]; [reflexivity|].
  destruct l2 as [|y l2]; [simpl; symmetry; apply combine_nil|].
  simpl. apply IH.
Qed.

Lemma firstn_map2 (f : A -> B -> C) (n : nat) (l1 : list A) (l2 : list B) :
  firstn n (map2 f l1 l2) = map2 f (firstn n l1) (firstn n l2).
Proof. unfold map2. rewrite firstn_map, combine_firstn. reflexivity. Qed.

Lemma skipn_map2 (f : A -> B -> C) (n : nat) (l1 : list A) (l2 : list B) :
  skipn n (map2 f l1 l2) = map2 f (skipn n l1) (skipn n l2).
Proof. unfold map2. rewrite skipn_map, skipn_combine. reflexivity. Qed.

(** Chunking commutes with a pointwise binary operation. *)
Lemma chunks_map2 (f : A -> B -> C) (n cnt : nat) (l1 : list A) (l2 : list B) :
  chunks n cnt (map2 f l1 l2) = map2 (map2 f) (chunks n cnt l1) (chunks n cnt l2).
Proof.
  revert l1 l2. induction cnt as [|cnt IH]; intros l1 l2; [reflexivity|].
  cbn [chunks]. rewrite firstn_map2, skipn_map2, IH. reflexivity.
Qed.

Lemma chunks_map (f : A -> B) (n cnt : nat) (l : list A) :
  chunks n cnt (map f l) = map (map f) (chunks n cnt l).
Proof.
  revert l. induction cnt as [|cnt IH]; intros l; [reflexivity|].
  cbn [chunks map]. rewrite firstn_map, skipn_map, IH. reflexivity.
Qed.

Lemma length_chunks (n cnt : nat) (l : list A) : length (chunks n cnt l) = cnt.
Proof.
  revert l. induction cnt as [|cnt IH]; intros l; [reflexivity|].
  cbn [chunks length]. rewrite IH. reflexivity.
Qed.

(** Chunking the concatenation of rows of one length gives the rows back. *)
Lemma chunks_concat (n : nat) (rows : list (list A)) :
  Forall (fun r => length r = n) rows ->
  chunks n (length rows) (concat rows) = rows.
Proof.
  induction 1 as [|r rows Hr _ IH]; [reflexivity|].
  subst n. cbn [length chunks concat].
  rewrite firstn_app, skipn_app, Nat.sub_diag, firstn_all, skipn_all.
  cbn [firstn skipn app]. rewrite app_nil_r, IH. reflexivity.
Qed.

Lemma chunks_singletons (l : list A) :
  chunks 1 (length l) l = map (fun x => [x]) l.
Proof.
  induction l as [|x l IH]; [reflexivity|].
  cbn [length chunks firstn skipn map]. rewrite IH. reflexivity.
Qed.

Lemma chunks_empty_rows (cnt : nat) (l : list A) : chunks 0 cnt l = repeat [] cnt.
Proof.
  induction cnt as [|cnt IH]; [reflexivity|].
  cbn [chunks firstn skipn repeat]. rewrite IH. reflexivity.
Qed.

Lemma concat_singletons (l : list A) : concat (map (fun x => [x]) l) = l.
Proof. induction l as [|x l IH]; [reflexivity|]. simpl. rewrite IH. reflexivity. Qed.

Lemma concat_repeat_singleton (x : A) (n : nat) : concat (repeat [x] n) = repeat x n.
Proof. symmetry. apply repeat_to_concat. Qed.

Lemma concat_repeat_repeat (x : A) (n m : nat) :
  concat (repeat (repeat x n) m) = repeat x (m * n).
Proof.
  induction m as [|m IH]; [reflexivity|].
  cbn [repeat concat]. rewrite IH, <- repeat_app. reflexivity.
Qed.

Lemma map2_repeat_l (f : A -> B -> C) (x : A) (l : list B) :
  map2 f (repeat x (length l)) l = map (f x) l.
Proof.
  unfold map2. induction l as [|y l IH]; [reflexivity|].
  simpl. rewrite IH. reflexivity.
Qed.

Lemma map2_repeat_r (f : A -> B -> C) (l : list A) (y : B) :
  map2 f l (repeat y (length l)) = map (fun x => f x y) l.
Proof.
  unfold map2. induction l as [|x l IH]; [reflexivity|].
  simpl. rewrite IH. reflexivity.
Qed.

End Rows.

Lemma map2_map_map {A B A' B' C} (h : A' -> B' -> C) (f : A -> A') (g : B -> B')
    (l1 : list A) (l2 : list B) :
  map2 h (map f l1) (map g l2) = map (fun p => h (f (fst p)) (g (snd p))) (combine l1 l2).
Proof.
  unfold map2. revert l2. induction l1 as [|x l1 IH]; intros l2; [reflexivity|].
  destruct l2 as [|y l2]; [reflexivity|]. simpl. rewrite IH. reflexivity.
Qed.

(** The two broadcasts of [ExpandDims(w, 0) - ExpandDims(w, 1)]: a row
    repeated downwards and a column repeated rightwards. *)
Lemma broadcast_row {A} (w : list A) :
  length w <> 1%nat ->
  broadcast_data [1%nat; length w] [length w; length w] w = concat (repeat w (length w)).
Proof.
  intros Hn. cbn [broadcast_data fold_right].
  destruct (Nat.eqb_spec 1 (length w)) as [E|_]; [congruence|].
  rewrite Nat.eqb_refl. rewrite chunks_singletons, map_map. cbn [broadcast_data].
  rewrite concat_singletons. reflexivity.
Qed.

Lemma broadcast_column {A} (w : list A) :
  length w <> 1%nat ->
  broadcast_data [length w; 1%nat] [length w; length w] w
  = concat (map (fun x => repeat x (length w)) w).
Proof.
  intros Hn. cbn [broadcast_data fold_right].
  rewrite Nat.eqb_refl. change (1 * 1)%nat with 1%nat.
  rewrite chunks_singletons, map_map. f_equal. apply map_ext. intros x.
  destruct (Nat.eqb_spec 1 (length w)) as [E|_]; [congruence|].
  apply concat_repeat_singleton.
Qed.

Lemma chunks_concat_count {A} (n cnt : nat) (rows : list (list A)) :
  length rows = cnt -> Forall (fun r => length r = n) rows ->
  chunks n cnt (concat rows) = rows.
Proof. intros <-. apply chunks_concat. Qed.

(* ================================================================= *)
(** ** The product with a scalar, element by element *)

Lemma concat_chunks {A} (n cnt : nat) (l : list A) :
  length l = (cnt * n)%nat -> concat (chunks n cnt l) = l.
Proof.
  revert l. induction cnt as [|cnt IH]; intros l Hl.
  - destruct l; [reflexivity|discriminate].
  - cbn [chunks concat]. rewrite IH, firstn_skipn; [reflexivity|].
    rewrite length_skipn, Hl. simpl. lia.
Qed.

Lemma chunks_lengths {A} (n cnt : nat) (l : list A) :
  length l = (cnt * n)%nat -> Forall (fun r => length r = n) (chunks n cnt l).
Proof.
  revert l. induction cnt as [|cnt IH]; intros l Hl; [constructor|].
  cbn [chunks]. constructor.
  - rewrite length_firstn, Hl. simpl. lia.
  - apply IH. rewrite length_skipn, Hl. simpl. lia.
Qed.

(** Broadcasting to the shape an array already has changes nothing. *)
Lemma broadcast_data_same {A} (s : list nat) (l : list A) :
  length l = fold_right Nat.mul 1%nat s -> broadcast_data s s l = l.
Proof.
  revert l. induction s as [|d s IH]; intros l Hl; [reflexivity|].
  cbn [broadcast_data]. rewrite Nat.eqb_refl.
  cbn [fold_right] in Hl.
  rewrite (map_ext_in _ (fun r => r)).
  - rewrite map_id. apply concat_chunks. exact Hl.
  - intros r Hr. apply IH.
    pose proof (chunks_lengths (fold_right Nat.mul 1%nat s) d l Hl) as Hall.
    rewrite Forall_forall in Hall. apply Hall. exact Hr.
Qed.

(** Broadcasting a single element fills the shape with it. *)
Lemma broadcast_data_scalar {A} (s : list nat) (x : A) :
  broadcast_data (repeat 1%nat (length s)) s [x] = repeat x (fold_right Nat.mul 1%nat s).
Proof.
  induction s as [|d s IH]; [reflexivity|].
  cbn [length repeat broadcast_data fold_right].
  assert (Hone : fold_right Nat.mul 1%nat (repeat 1%nat (length s)) = 1%nat).
  { clear. induction (length s) as [|n IHn]; [reflexivity|]. simpl. rewrite IHn. reflexivity. }
  destruct (Nat.eqb_spec 1 d) as [<-|Hd].
  - rewrite Hone. cbn [chunks firstn skipn map concat]. rewrite IH, app_nil_r.
    simpl. rewrite Nat.add_0_r. reflexivity.
  - rewrite IH. apply concat_repeat_repeat.
Qed.

Lemma nat_shape_size (s : Shape) :
  wf_shape s -> fold_right Nat.mul 1%nat (nat_shape s) = size_of s.
Proof.
  unfold size_of, TotalSize, nat_shape.
  induction 1 as [|d s Hd Hs IH]; [reflexivity|].
  cbn [map fold_right]. rewrite IH.
  fold (TotalSize s). rewrite Z2Nat.inj_mul; [reflexivity|assumption|].
  apply TotalSize_nonneg. assumption.
Qed.

Section ScalarProduct.
Context {T : Type} `{Scalar T} `{TypeUtil T}.

(** [x * b] for a rank-0 [x] multiplies every element of [b] by [x]. *)
Lemma Multiply_scalar_left (a b : Array T) (x : T) :
  shape a = [] -> data a = [x] -> wf b ->
  Multiply a b
  = Ok (mkArray (shape b) (ResultType a b) (device a) (map (smul x) (data b))).
Proof.
  intros Hsa Hda [Hwb Hlb]. unfold Multiply, BroadcastBinary.
  destruct (list_eq_dec Z.eq_dec (shape a) (shape b)) as [E|E].
  - rewrite <- E, Hsa in Hlb. change (size_of []) with 1%nat in Hlb.
    rewrite Hsa in E. rewrite <- E, Hda, Hsa.
    destruct (data b) as [|y [|z l]]; try discriminate. reflexivity.
  - assert (Hbs : BroadcastShapes (shape a) (shape b) = Ok (shape b)).
    { unfold BroadcastShapes. rewrite Hsa. change (rev []) with (@nil Z).
      destruct (rev (shape b)) eqn:Hr; cbn [broadcast_rev];
        rewrite <- Hr, rev_involutive; reflexivity. }
    rewrite Hbs. cbn [rbind]. unfold BroadcastTo. cbn [data].
    rewrite Hsa, Hda. unfold pad_shape. cbn [nat_shape map length].
    rewrite Nat.sub_0_r, app_nil_r.
    replace (length (shape b)) with (length (nat_shape (shape b)))
      by (unfold nat_shape; apply length_map).
    rewrite broadcast_data_scalar, Nat.sub_diag. cbn [repeat app].
    rewrite broadcast_data_same by (rewrite nat_shape_size; assumption).
    rewrite nat_shape_size by assumption. rewrite <- Hlb.
    rewrite map2_repeat_l. reflexivity.
Qed.

(** [a * y] for a rank-0 [y] multiplies every element of [a] by [y]. *)
Lemma Multiply_scalar_right (a b : Array T) (y : T) :
  shape b = [] -> data b = [y] -> wf a ->
  Multiply a b
  = Ok (mkArray (shape a) (ResultType a b) (device a) (map (fun x => smul x y) (data a))).
Proof.
  intros Hsb Hdb [Hwa Hla]. unfold Multiply, BroadcastBinary.
  destruct (list_eq_dec Z.eq_dec (shape a) (shape b)) as [E|E].
  - rewrite E, Hsb in Hla. change (size_of []) with 1%nat in Hla.
    rewrite Hsb in E. rewrite E, Hdb.
    destruct (data a) as [|x [|z l]]; try discriminate. reflexivity.
  - assert (Hbs : BroadcastShapes (shape a) (shape b) = Ok (shape a)).
    { unfold BroadcastShapes. rewrite Hsb. change (rev []) with (@nil Z).
      destruct (rev (shape a)) eqn:Hr; cbn [broadcast_rev];
        rewrite <- Hr, rev_involutive; reflexivity. }
    rewrite Hbs. cbn [rbind]. unfold BroadcastTo. cbn [data].
    rewrite Hsb, Hdb. unfold pad_shape. cbn [nat_shape map length].
    rewrite Nat.sub_0_r, app_nil_r.
    replace (length (shape a)) with (length (nat_shape (shape a)))
      by (unfold nat_shape; apply length_map).
    rewrite broadcast_data_scalar, Nat.sub_diag. cbn [repeat app].
    rewrite broadcast_data_same by (rewrite nat_shape_size; assumption).
    rewrite nat_shape_size by assumption. rewrite <- Hla.
    rewrite map2_repeat_r. reflexivity.
Qed.

End ScalarProduct.

(* ================================================================= *)
(** ** [Dot] on operands of rank at least 1 *)

Section EntryPoints.
Context {T : Type} `{Scalar T} `{TypeUtil T} `{Backend T} `{GraphEngine T}.

(** [Dot] is the scalar shortcut or [DotOperands] followed by [DotProduct]. *)
Lemma Dot_unfold (a b : Array T) (out_dtype : option Dtype) :
  Dot a b out_dtype =
  if (Nat.eqb (ndim a) 0 || Nat.eqb (ndim b) 0)%bool then lift (Multiply a b)
  else bind (DotOperands a b)
            (fun mb => DotProduct a b out_dtype (fst mb) (snd mb)).
Proof. reflexivity. Qed.

Lemma DotRegister_run (a b a_matrix b_matrix out_matrix : Array T) (s : State T) :
  DotRegister a b a_matrix b_matrix out_matrix s =
  (Ok tt,
   mkState (backprop_mode s) (kernel_log s)
     (graph s ++
      let ta := (backprop_mode s && IsBackpropRequired a_matrix)%bool in
      let tb := (backprop_mode s && IsBackpropRequired b_matrix)%bool in
      if (ta || tb)%bool then
        [mkOpNode "dot" [a_matrix; b_matrix] [out_matrix]
           ((if ta then [1%nat] else []) ++ (if tb then [0%nat] else []))
           []
           ((if ta then [dot_target_a a] else []) ++ (if tb then [dot_target_b b] else []))]
      else [])).
Proof.
  destruct s as [mode klog g].
  unfold DotRegister, bind, CreateTarget, ret, Finalize, BeginRule.
  cbn [nth_error bb_inputs backprop_mode kernel_log graph].
  destruct mode, (IsBackpropRequired a_matrix) eqn:Ea;
    cbn; rewrite ?Ea; destruct (IsBackpropRequired b_matrix) eqn:Eb;
    cbn; rewrite ?app_nil_r; reflexivity.
Qed.

Lemma dot_axes (n : nat) :
  firstn (n + 2 - 2) (seq 0 (n + 2)) ++ rev (skipn (n + 2 - 2) (seq 0 (n + 2)))
  = seq 0 n ++ [S n; n].
Proof.
  replace (n + 2 - 2)%nat with n by lia.
  rewrite seq_app. simpl.
  rewrite firstn_app, skipn_app, length_seq, Nat.sub_diag.
  rewrite firstn_all2 by (rewrite length_seq; lia).
  rewrite skipn_all2 by (rewrite length_seq; lia).
  simpl. rewrite app_nil_r. reflexivity.
Qed.

(** The transposition of [Dot] swaps the last two axes. *)
Lemma dot_transposed_shape (b : Array T) (p : Shape) (c x : Z) :
  shape b = p ++ [c; x] ->
  shape (TransposeAxes b
           (firstn (ndim b - 2) (seq 0 (ndim b)) ++ rev (skipn (ndim b - 2) (seq 0 (ndim b)))))
  = p ++ [x; c].
Proof.
  intros Hb. unfold ndim. rewrite Hb, length_app. cbn [length].
  rewrite dot_axes. cbn [TransposeAxes shape]. rewrite Hb.
  unfold permute. rewrite map_app, map_nth_prefix. cbn [map].
  rewrite (app_nth2 p) by lia. rewrite (app_nth2 p) by lia.
  replace (S (length p) - length p)%nat with 1%nat by lia.
  rewrite Nat.sub_diag. reflexivity.
Qed.

Lemma dim_last (a : Array T) : dim a (ndim a - 1) = contracted_left a.
Proof.
  unfold dim, contracted_left, back, ndim.
  destruct (shape a) as [|d s _] using rev_ind; [reflexivity|].
  rewrite length_app, last_last. cbn [length].
  replace (length s + 1 - 1)%nat with (length s) by lia.
  apply nth_snoc.
Qed.

(** The second-to-last extent of a right operand of rank above 2. *)
Lemma contracted_right_second_to_last (b : Array T) (p : Shape) (c x : Z) :
  shape b = p ++ [c; x] -> contracted_right b = c.
Proof.
  intros Hsb. unfold contracted_right, dim, ndim. rewrite Hsb, length_app. cbn [length].
  destruct (Nat.leb_spec (length p + 2) 2) as [Hq|Hq].
  - destruct p; [reflexivity|simpl in Hq; lia].
  - replace (length p + 2 - 2)%nat with (length p) by lia.
    rewrite app_nth2, Nat.sub_diag by lia. reflexivity.
Qed.

(** The last extent of the transposed right operand is the second-to-last
    extent of [b]: the divisor of [Reshape({-1, modified_b.shape().back()})]. *)
Lemma transposed_back (b : Array T) :
  (2 < ndim b)%nat ->
  back (shape (TransposeAxes b
                 (firstn (ndim b - 2) (seq 0 (ndim b))
                  ++ rev (skipn (ndim b - 2) (seq 0 (ndim b))))))
  = contracted_right b.
Proof.
  intros Hq.
  destruct (split_last_two (shape b)) as [p [c [x Hsb]]]; [unfold ndim in Hq; lia|].
  rewrite (dot_transposed_shape b p c x Hsb), (contracted_right_second_to_last b p c x Hsb).
  unfold back.
  replace (p ++ [x; c]) with ((p ++ [x]) ++ [c]) by (rewrite <- app_assoc; reflexivity).
  apply last_last.
Qed.

(** A right operand of rank above 2 whose second-to-last extent is 0 stops
    [Dot] at the reshape that follows the transposition: the extent inference
    divides by that extent. *)
Lemma DotOperands_divides_by_zero (a b : Array T) (s : State T) :
  (2 < ndim b)%nat -> contracted_right b = 0 ->
  DotOperands a b s = (Throw DivisionByZero, s).
Proof.
  intros Hq Hzero. unfold DotOperands.
  destruct (Nat.ltb_spec 2 (ndim b)) as [_|?]; [|lia].
  unfold bind, lift. rewrite (transposed_back b Hq), Hzero, Reshape_infer_rows_zero.
  reflexivity.
Qed.

Lemma DotOperands_run (a b : Array T) (s : State T) :
  wf_shape (shape b) -> (1 <= ndim b)%nat ->
  ((2 < ndim b)%nat -> contracted_right b <> 0) ->
  DotOperands a b s = (Ok (dot_modified_b b, dot_shape a b), s).
Proof.
  intros Hb Hrb Hdiv. unfold DotOperands, dot_modified_b, dot_shape.
  destruct (Nat.ltb_spec 2 (ndim b)) as [Hq|Hq].
  - destruct (Nat.leb_spec (ndim b) 2) as [?|_]; [lia|].
    destruct (split_last_two (shape b)) as [p [c [x Hsb]]]; [unfold ndim in Hq; lia|].
    pose proof (dot_transposed_shape b p c x Hsb) as Ht.
    assert (Hc0 : c <> 0).
    { rewrite <- (contracted_right_second_to_last b p c x Hsb). exact (Hdiv Hq). }
    set (tb := TransposeAxes b _) in *.
    assert (Hback : back (shape tb) = c).
    { rewrite Ht. unfold back.
      replace (p ++ [x; c]) with ((p ++ [x]) ++ [c]) by (rewrite <- app_assoc; reflexivity).
      apply last_last. }
    assert (Hwf : wf_shape (shape tb)).
    { rewrite Ht. rewrite Hsb in Hb.
      apply wf_shape_app in Hb. destruct Hb as [Hp Hcx].
      apply wf_shape_cons in Hcx. destruct Hcx as [Hc Hx].
      apply wf_shape_cons in Hx. destruct Hx as [Hx _].
      apply wf_shape_app. split; [assumption|].
      apply wf_shape_cons. split; [assumption|].
      apply wf_shape_cons. split; [assumption|]. constructor. }
    unfold bind, lift, ret. rewrite Hback.
    rewrite (Reshape_infer_rows tb (p ++ [x]) c);
      [|rewrite Ht, <- app_assoc; reflexivity|assumption|assumption].
    rewrite Ht.
    replace (p ++ [x; c]) with ((p ++ [x]) ++ [c]) by (rewrite <- app_assoc; reflexivity).
    rewrite removelast_last.
    unfold remove_nth, ndim. rewrite Hsb, length_app. cbn [length].
    replace (length p + 2 - 2)%nat with (length p) by lia.
    rewrite firstn_app, Nat.sub_diag, firstn_all. cbn [firstn].
    rewrite app_nil_r.
    rewrite skipn_app.
    rewrite skipn_all2 by lia.
    replace (S (length p) - length p)%nat with 1%nat by lia.
    reflexivity.
  - destruct (Nat.leb_spec (ndim b) 2) as [_|?]; [|lia]. reflexivity.
Qed.

Lemma dot_shape_split (a b : Array T) :
  dot_shape a b = removelast (shape a) ++ dot_right_rest b.
Proof. unfold dot_shape, dot_right_rest. destruct (ndim b <=? 2)%nat; reflexivity. Qed.

Lemma left_size (a : Array T) :
  (1 <= ndim a)%nat ->
  GetTotalSize a = TotalSize (removelast (shape a)) * contracted_left a.
Proof.
  intros Hra. unfold GetTotalSize, contracted_left, back.
  destruct (split_last (shape a) Hra) as [p [k Hs]]. rewrite Hs.
  rewrite removelast_last, last_last, TotalSize_app.
  unfold TotalSize at 2. simpl. ring.
Qed.

Lemma right_size (b : Array T) :
  (1 <= ndim b)%nat ->
  GetTotalSize b = contracted_right b * TotalSize (dot_right_rest b).
Proof.
  intros Hrb. unfold GetTotalSize, contracted_right, dot_right_rest, dim.
  destruct (Nat.leb_spec (ndim b) 2) as [Hq|Hq].
  - unfold ndim in Hrb. destruct (shape b) as [|d t]; [simpl in Hrb; lia|]. reflexivity.
  - destruct (split_last_two (shape b)) as [p [c [x Hsb]]]; [unfold ndim in Hq; lia|].
    unfold remove_nth, ndim. rewrite Hsb, length_app. cbn [length].
    replace (length p + 2 - 2)%nat with (length p) by lia.
    rewrite app_nth2, Nat.sub_diag by lia. cbn [nth].
    rewrite firstn_app, Nat.sub_diag, firstn_all. cbn [firstn]. rewrite app_nil_r.
    rewrite skipn_app, skipn_all2 by lia.
    replace (S (length p) - length p)%nat with 1%nat by lia. cbn [skipn app].
    rewrite !TotalSize_app. unfold TotalSize. simpl. ring.
Qed.

Lemma wf_left_rest (a : Array T) :
  wf_shape (shape a) -> wf_shape (removelast (shape a)).
Proof.
  intros Ha. destruct (shape a) as [|d s _] using rev_ind; [constructor|].
  rewrite removelast_last. apply wf_shape_app in Ha. tauto.
Qed.

Lemma wf_right_rest (b : Array T) :
  wf_shape (shape b) -> wf_shape (dot_right_rest b).
Proof.
  intros Hb. unfold dot_right_rest, remove_nth.
  destruct (ndim b <=? 2)%nat.
  - destruct (shape b); [constructor|]. apply wf_shape_cons in Hb. tauto.
  - apply wf_shape_app. split.
    + rewrite <- (firstn_skipn (ndim b - 2) (shape b)) in Hb.
      apply wf_shape_app in Hb. tauto.
    + rewrite <- (firstn_skipn (S (ndim b - 2)) (shape b)) in Hb.
      apply wf_shape_app in Hb. tauto.
Qed.

Lemma contracted_left_nonneg (a : Array T) :
  wf_shape (shape a) -> 0 <= contracted_left a.
Proof.
  intros Ha. unfold contracted_left, back.
  destruct (shape a) as [|d s _] using rev_ind; [simpl; lia|].
  rewrite last_last. apply wf_shape_app in Ha. destruct Ha as [_ Hd].
  apply wf_shape_cons in Hd. tauto.
Qed.

Lemma Transpose_shape2 (r c : Z) (dt : Dtype) (dev : Device) (d : list T) :
  shape (Transpose (mkArray [r; c] dt dev d)) = [c; r].
Proof. reflexivity. Qed.

Lemma modified_b_dim0 (b : Array T) :
  (1 <= ndim b)%nat -> dim (dot_modified_b b) 0 = contracted_right b.
Proof.
  intros Hrb. unfold dot_modified_b, contracted_right.
  destruct (Nat.ltb_spec 2 (ndim b)) as [Hq|Hq];
    destruct (Nat.leb_spec (ndim b) 2) as [Hq'|Hq']; try lia; try reflexivity.
  destruct (split_last_two (shape b)) as [p [c [x Hsb]]]; [unfold ndim in Hq; lia|].
  pose proof (dot_transposed_shape b p c x Hsb) as Ht.
  set (tb := TransposeAxes b _) in *.
  unfold dim at 1. rewrite Transpose_shape2. cbn [nth]. rewrite Ht. unfold back.
  replace (p ++ [x; c]) with ((p ++ [x]) ++ [c]) by (rewrite <- app_assoc; reflexivity).
  rewrite last_last. unfold dim, ndim. rewrite Hsb, length_app. cbn [length].
  replace (length p + 2 - 2)%nat with (length p) by lia.
  rewrite app_nth2, Nat.sub_diag by lia. reflexivity.
Qed.

Lemma modified_b_size (b : Array T) :
  wf_shape (shape b) -> (1 <= ndim b)%nat ->
  GetTotalSize (dot_modified_b b) = GetTotalSize b.
Proof.
  intros Hb Hrb. unfold dot_modified_b.
  destruct (Nat.ltb_spec 2 (ndim b)) as [Hq|Hq]; [|reflexivity].
  destruct (split_last_two (shape b)) as [p [c [x Hsb]]]; [unfold ndim in Hq; lia|].
  pose proof (dot_transposed_shape b p c x Hsb) as Ht.
  set (tb := TransposeAxes b _) in *.
  unfold GetTotalSize. rewrite Transpose_shape2, Ht. unfold back.
  replace (p ++ [x; c]) with ((p ++ [x]) ++ [c]) by (rewrite <- app_assoc; reflexivity).
  rewrite last_last, Hsb, !TotalSize_app. unfold TotalSize at 2 4. cbn.
  fold (TotalSize p). rewrite !Z.mul_1_r.
  destruct (Z.eq_dec c 0) as [->|Hc]; [ring|].
  rewrite Z.quot_mul by assumption. ring.
Qed.

Lemma quot_left (a : Array T) :
  (1 <= ndim a)%nat -> contracted_left a <> 0 ->
  Z.quot (GetTotalSize a) (contracted_left a) = TotalSize (removelast (shape a)).
Proof.
  intros Hra Hk. rewrite (left_size a Hra). apply Z.quot_mul. assumption.
Qed.

Lemma quot_right (a b : Array T) :
  (1 <= ndim b)%nat -> contracted_right b = contracted_left a -> contracted_left a <> 0 ->
  Z.quot (GetTotalSize b) (contracted_left a) = TotalSize (dot_right_rest b).
Proof.
  intros Hrb Hagree Hk. rewrite (right_size b Hrb), Hagree, Z.mul_comm.
  apply Z.quot_mul. assumption.
Qed.

Lemma DotProduct_run (a b : Array T) (out_dtype : option Dtype) (s : State T) :
  wf_shape (shape a) -> wf_shape (shape b) ->
  (1 <= ndim a)%nat -> (1 <= ndim b)%nat ->
  DotProduct a b out_dtype (dot_modified_b b) (dot_shape a b) s
  = Dot_reduced a b out_dtype s.
Proof.
  intros Ha Hb Hra Hrb. unfold DotProduct, Dot_reduced.
  rewrite dim_last, (modified_b_dim0 b Hrb).
  destruct (Z.eqb_spec (contracted_right b) (contracted_left a)) as [Hagree|Hne];
    [|reflexivity].
  cbn [negb].
  destruct (Z.eqb_spec (contracted_left a) 0) as [Hk0|Hk]; [reflexivity|].
  pose proof (quot_left a Hra Hk) as Hm.
  pose proof (quot_right a b Hrb Hagree Hk) as Hn.
  pose proof (contracted_left_nonneg a Ha) as Hknn.
  pose proof (TotalSize_nonneg _ (wf_left_rest a Ha)) as Hmnn.
  pose proof (TotalSize_nonneg _ (wf_right_rest b Hb)) as Hnnn.
  unfold bind at 1, lift at 1.
  rewrite (Reshape_exact a).
  2:{ rewrite Hm. repeat (apply wf_shape_cons; split; [assumption|]). constructor. }
  2:{ rewrite Hm, (left_size a Hra). unfold TotalSize at 1. simpl. ring. }
  unfold bind at 1, lift at 1.
  rewrite (Reshape_exact (dot_modified_b b)).
  2:{ rewrite Hn. repeat (apply wf_shape_cons; split; [assumption|]). constructor. }
  2:{ rewrite Hn, (modified_b_size b Hb Hrb), (right_size b Hrb), Hagree.
      unfold TotalSize at 1. simpl. ring. }
  fold (dot_a_matrix a). fold (dot_b_matrix a b). fold (dot_out_shape2 a b).
  unfold bind at 1, NoBackpropModeScope, CallDotKernel.
  destruct (DotKernel (dot_a_matrix a) (dot_b_matrix a b)
              (Empty (dot_out_shape2 a b) (real_out_dtype a b out_dtype) (device a)))
    as [d|]; [|reflexivity].
  cbn [log_kernel backprop_mode kernel_log graph shape dtype device Empty].
  unfold bind at 1. rewrite DotRegister_run.
  cbn [backprop_mode kernel_log graph]. unfold lift.
  rewrite Reshape_exact.
  - reflexivity.
  - rewrite dot_shape_split. apply wf_shape_app. split.
    + apply wf_left_rest. assumption.
    + apply wf_right_rest. assumption.
  - unfold GetTotalSize. cbn [shape]. unfold dot_out_shape2.
    rewrite Hm, Hn, dot_shape_split, TotalSize_app.
    unfold TotalSize at 3. simpl. ring.
Qed.

(** [Dot] on operands of rank at least 1 is [Dot_reduced], unless the
    reshape of the transposed right operand divides by zero. *)
Lemma Dot_run (a b : Array T) (out_dtype : option Dtype) (s : State T) :
  wf_shape (shape a) -> wf_shape (shape b) ->
  (1 <= ndim a)%nat -> (1 <= ndim b)%nat ->
  ((2 < ndim b)%nat -> contracted_right b <> 0) ->
  Dot a b out_dtype s = Dot_reduced a b out_dtype s.
Proof.
  intros Ha Hb Hra Hrb Hdiv. rewrite Dot_unfold.
  destruct (Nat.eqb_spec (ndim a) 0) as [?|_]; [lia|].
  destruct (Nat.eqb_spec (ndim b) 0) as [?|_]; [lia|].
  cbn [orb]. unfold bind. rewrite (DotOperands_run a b s Hb Hrb Hdiv).
  cbn [fst snd]. apply DotProduct_run; assumption.
Qed.

Lemma Dot_divides_by_zero (a b : Array T) (out_dtype : option Dtype) (s : State T) :
  (1 <= ndim a)%nat -> (2 < ndim b)%nat -> contracted_right b = 0 ->
  Dot a b out_dtype s = (Throw DivisionByZero, s).
Proof.
  intros Hra Hq Hzero. rewrite Dot_unfold.
  destruct (Nat.eqb_spec (ndim a) 0) as [?|_]; [lia|].
  destruct (Nat.eqb_spec (ndim b) 0) as [?|_]; [lia|].
  cbn [orb]. unfold bind. rewrite (DotOperands_divides_by_zero a b s Hq Hzero).
  reflexivity.
Qed.

(** The two cases of a right operand. *)
Lemma divisor_cases (b : Array T) :
  ((2 < ndim b)%nat -> contracted_right b <> 0) \/
  ((2 < ndim b)%nat /\ contracted_right b = 0).
Proof.
  destruct (Nat.ltb_spec 2 (ndim b)) as [Hq|Hq]; [|left; lia].
  destruct (Z.eq_dec (contracted_right b) 0) as [Hz|Hz]; [right|left]; auto.
Qed.

(* ----------------------------------------------------------------- *)
(** *** [Eigh] and [Eigvalsh] in closed form *)

Lemma Eigh_run (a : Array T) (uplo : string) (s : State T) :
  Eigh a uplo s = Eigh_reduced a uplo s.
Proof.
  unfold Eigh, Eigh_reduced.
  destruct (negb (Nat.eqb (ndim a) 2)); [reflexivity|].
  destruct (negb (dim a 0 =? dim a 1)); [reflexivity|].
  destruct s as [mode klog g].
  unfold bind, NoBackpropModeScope, CallSyevdKernel, CreateTarget, Finalize, ret, BeginRule,
    eigh_nodes, after_kernel, kernel_logged, log_kernel.
  cbn [backprop_mode kernel_log graph].
  destruct (SyevdKernel a uplo true) as [[w v]|]; [|reflexivity].
  cbn [nth_error bb_inputs fst snd backprop_mode kernel_log graph].
  destruct mode; cbn [andb]; [|rewrite app_nil_r; reflexivity].
  destruct (IsBackpropRequired a); cbn; [reflexivity|rewrite app_nil_r; reflexivity].
Qed.

Lemma Eigvalsh_run (a : Array T) (uplo : string) (s : State T) :
  Eigvalsh a uplo s = Eigvalsh_reduced a uplo s.
Proof.
  unfold Eigvalsh, Eigvalsh_reduced.
  destruct (negb (Nat.eqb (ndim a) 2)); [reflexivity|].
  destruct (negb (dim a 0 =? dim a 1)); [reflexivity|].
  unfold bind, NoBackpropModeScope, CallSyevdKernel, ret, kernel_logged, log_kernel.
  cbn [backprop_mode kernel_log graph].
  destruct (SyevdKernel a uplo false) as [wv|]; reflexivity.
Qed.

(* ----------------------------------------------------------------- *)
(** *** Kernel dispatches and the backprop mode *)

Lemma unrecorded_pure {A} (r : Result A) : kernels_unrecorded (@lift T A r).
Proof.
  intros s. split; [reflexivity|]. exists []. split; [|constructor].
  unfold dispatched, lift. cbn [snd]. symmetry. apply app_nil_r.
Qed.

Lemma unrecorded_ret {A} (x : A) : kernels_unrecorded (@ret T A x).
Proof. exact (unrecorded_pure (Ok x)). Qed.

Lemma unrecorded_throw {A} (e : Error) : kernels_unrecorded (@throw T A e).
Proof. exact (unrecorded_pure (Throw e)). Qed.

Lemma unrecorded_bind {A B} (c : M T A) (f : A -> M T B) :
  kernels_unrecorded c -> (forall x, kernels_unrecorded (f x)) ->
  kernels_unrecorded (bind c f).
Proof.
  intros Hc Hf s. unfold bind.
  destruct (Hc s) as [Hmode [calls [Hlog Hall]]].
  destruct (c s) as [[x|e] s1]; cbn [snd] in *.
  - destruct (Hf x s1) as [Hmode' [calls' [Hlog' Hall']]].
    split; [congruence|]. exists (calls ++ calls'). split.
    + unfold dispatched in *. rewrite Hlog', Hlog, app_assoc. reflexivity.
    + apply Forall_app. split; assumption.
  - split; [assumption|]. exists calls. split; assumption.
Qed.

Lemma unrecorded_scope_dot (x y out : Array T) :
  kernels_unrecorded (NoBackpropModeScope (CallDotKernel x y out)).
Proof.
  intros s. unfold NoBackpropModeScope, CallDotKernel, log_kernel.
  cbn [backprop_mode kernel_log graph].
  destruct (DotKernel x y out); cbn [snd backprop_mode kernel_log graph];
    (split; [reflexivity|]); exists [mkKernelCall kDotKernel false];
    (split; [reflexivity|repeat constructor]).
Qed.

Lemma unrecorded_scope_syevd (a : Array T) (uplo : string) (compute_v : bool) :
  kernels_unrecorded (NoBackpropModeScope (CallSyevdKernel a uplo compute_v)).
Proof.
  intros s. unfold NoBackpropModeScope, CallSyevdKernel, log_kernel.
  cbn [backprop_mode kernel_log graph].
  destruct (SyevdKernel a uplo compute_v); cbn [snd backprop_mode kernel_log graph];
    (split; [reflexivity|]); exists [mkKernelCall kSyevdKernel false];
    (split; [reflexivity|repeat constructor]).
Qed.

Lemma unrecorded_CreateTarget (bb : BackwardBuilder T) (i : nat) :
  kernels_unrecorded (CreateTarget bb i).
Proof.
  intros s. unfold CreateTarget.
  destruct (nth_error (bb_inputs bb) i) as [x|];
    [destruct (backprop_mode s && IsBackpropRequired x)%bool|];
    cbn [snd]; (split; [reflexivity|]); exists [];
    (split; [symmetry; apply app_nil_r|constructor]).
Qed.

Lemma unrecorded_Finalize (bb : BackwardBuilder T) : kernels_unrecorded (Finalize bb).
Proof.
  intros s. unfold Finalize.
  destruct (bb_targets bb); cbn [snd backprop_mode];
    (split; [reflexivity|]); exists [];
    (split; [symmetry; apply app_nil_r|constructor]).
Qed.

Lemma unrecorded_DotRegister (a b a_matrix b_matrix out_matrix : Array T) :
  kernels_unrecorded (DotRegister a b a_matrix b_matrix out_matrix).
Proof.
  unfold DotRegister.
  repeat (apply unrecorded_bind; [|intros]);
    try apply unrecorded_CreateTarget; try apply unrecorded_Finalize.
  - destruct x; [|apply unrecorded_ret]. apply unrecorded_ret.
  - destruct x0; [|apply unrecorded_ret]. apply unrecorded_ret.
Qed.

Lemma unrecorded_DotProduct (a b : Array T) (out_dtype : option Dtype)
    (modified_b : Array T) (out_shape : Shape) :
  kernels_unrecorded (DotProduct a b out_dtype modified_b out_shape).
Proof.
  unfold DotProduct.
  destruct (negb _); [apply unrecorded_throw|].
  destruct (_ =? 0); [apply unrecorded_ret|].
  apply unrecorded_bind; [apply unrecorded_pure|intros a_matrix].
  apply unrecorded_bind; [apply unrecorded_pure|intros b_matrix].
  apply unrecorded_bind; [apply unrecorded_scope_dot|intros out_matrix].
  apply unrecorded_bind; [apply unrecorded_DotRegister|intros _].
  apply unrecorded_pure.
Qed.

Lemma unrecorded_Dot (a b : Array T) (out_dtype : option Dtype) :
  kernels_unrecorded (Dot a b out_dtype).
Proof.
  rewrite Dot_unfold.
  destruct (_ || _)%bool; [apply unrecorded_pure|].
  apply unrecorded_bind; [|intros mb; apply unrecorded_DotProduct].
  unfold DotOperands. destruct (2 <? ndim b)%nat; [|apply unrecorded_ret].
  apply unrecorded_bind; [apply unrecorded_pure|intros; apply unrecorded_ret].
Qed.

Lemma unrecorded_Eigh (a : Array T) (uplo : string) : kernels_unrecorded (Eigh a uplo).
Proof.
  unfold Eigh.
  destruct (negb _); [apply unrecorded_throw|].
  destruct (negb _); [apply unrecorded_throw|].
  apply unrecorded_bind; [apply unrecorded_scope_syevd|intros wv].
  apply unrecorded_bind; [|intros; apply unrecorded_ret].
  apply unrecorded_bind; [|intros; apply unrecorded_Finalize].
  apply unrecorded_bind; [apply unrecorded_CreateTarget|intros bt].
  destruct bt; apply unrecorded_ret.
Qed.

Lemma unrecorded_Eigvalsh (a : Array T) (uplo : string) :
  kernels_unrecorded (Eigvalsh a uplo).
Proof.
  unfold Eigvalsh.
  destruct (negb _); [apply unrecorded_throw|].
  destruct (negb _); [apply unrecorded_throw|].
  apply unrecorded_bind; [apply unrecorded_scope_syevd|intros; apply unrecorded_ret].
Qed.

(* ----------------------------------------------------------------- *)
(** *** The scalar shortcut *)

Lemma BroadcastShapes_scalar (s1 s2 : Shape) :
  s1 = [] \/ s2 = [] -> exists s, BroadcastShapes s1 s2 = Ok s.
Proof.
  unfold BroadcastShapes. intros [->| ->].
  - change (rev []) with (@nil Z). destruct (rev s2); simpl; eauto.
  - change (rev []) with (@nil Z). destruct (rev s1); simpl; eauto.
Qed.

(** The product with a rank-0 operand never throws, and has the promoted
    dtype. *)
Lemma Multiply_scalar (a b : Array T) :
  ndim a = 0%nat \/ ndim b = 0%nat ->
  exists r, Multiply a b = Ok r /\ dtype r = ResultType a b.
Proof.
  intros Hr. unfold Multiply, BroadcastBinary.
  destruct (list_eq_dec Z.eq_dec (shape a) (shape b)); [eauto|].
  destruct (BroadcastShapes_scalar (shape a) (shape b)) as [sh Hsh].
  - unfold ndim in Hr. destruct Hr as [Hr|Hr]; apply length_zero_iff_nil in Hr; auto.
  - rewrite Hsh. cbn [rbind]. eauto.
Qed.

Lemma Dot_scalar_run (a b : Array T) (out_dtype : option Dtype) (s : State T) :
  ndim a = 0%nat \/ ndim b = 0%nat ->
  Dot a b out_dtype s = (Multiply a b, s).
Proof.
  intros Hr. rewrite Dot_unfold.
  destruct Hr as [Hr|Hr]; rewrite Hr; cbn [Nat.eqb orb]; rewrite ?orb_true_r; reflexivity.
Qed.

(** On operands of rank at least 1 the result has the dtype [Dot] was
    asked for. *)
Lemma Dot_nonscalar_dtype (a b : Array T) (out_dtype : option Dtype) (s s' : State T)
    (r : Array T) :
  wf_shape (shape a) -> wf_shape (shape b) ->
  (1 <= ndim a)%nat -> (1 <= ndim b)%nat ->
  Dot a b out_dtype s = (Ok r, s') ->
  dtype r = real_out_dtype a b out_dtype.
Proof.
  intros Ha Hb Hra Hrb.
  destruct (divisor_cases b) as [Hdiv|[Hq Hzero]];
    [|rewrite (Dot_divides_by_zero a b out_dtype s Hra Hq Hzero); discriminate].
  rewrite (Dot_run a b out_dtype s Ha Hb Hra Hrb Hdiv).
  unfold Dot_reduced.
  destruct (negb _); [discriminate|].
  destruct (_ =? 0); [intros E; inversion E; reflexivity|].
  destruct (DotKernel _ _ _); [|discriminate].
  intros E; inversion E; reflexivity.
Qed.

(** C6: when either operand has rank 0, [Dot] returns the elementwise product
    [a * b] at once: the product is returned whatever [out_dtype] is, and
    [Dot] itself dispatches no kernel and attaches no op node (it leaves the
    state as it was).  The product with a rank-0 operand multiplies every
    element of the other operand by the scalar. *)
Theorem Dot_scalar_degenerates_to_multiply
    (a b : Array T) (out_dtype : option Dtype) (s : State T) :
  ndim a = 0%nat \/ ndim b = 0%nat ->
  exists r,
    Multiply a b = Ok r /\
    Dot a b out_dtype s = (Ok r, s) /\
    kernel_log (snd (Dot a b out_dtype s)) = kernel_log s /\
    graph (snd (Dot a b out_dtype s)) = graph s /\
    (forall x, ndim a = 0%nat -> data a = [x] -> wf b ->
       shape r = shape b /\ data r = map (smul x) (data b)) /\
    (forall y, ndim b = 0%nat -> data b = [y] -> wf a ->
       shape r = shape a /\ data r = map (fun x => smul x y) (data a)).
Proof.
  intros Hr. destruct (Multiply_scalar a b Hr) as [r [Hm _]].
  exists r. rewrite (Dot_scalar_run a b out_dtype s Hr), Hm.
  repeat (split; [reflexivity|]). split.
  - intros x Hra Hda Hwb. apply length_zero_iff_nil in Hra.
    rewrite (Multiply_scalar_left a b x Hra Hda Hwb) in Hm.
    injection Hm as <-. split; reflexivity.
  - intros y Hrb Hdb Hwa. apply length_zero_iff_nil in Hrb.
    rewrite (Multiply_scalar_right a b y Hrb Hdb Hwa) in Hm.
    injection Hm as <-. split; reflexivity.
Qed.

(** C10: when either operand has rank 0, an explicit [out_dtype] is ignored:
    [Dot a b (Some dt)] returns [a * b], whose dtype is the promoted type of
    [a] and [b], for every [dt]; on operands of rank at least 1 the result
    has the dtype [dt]. *)
Theorem Dot_scalar_ignores_out_dtype (a b : Array T) (dt : Dtype) (s : State T) :
  ndim a = 0%nat \/ ndim b = 0%nat ->
  (exists r,
     Multiply a b = Ok r /\
     Dot a b (Some dt) s = (Ok r, s) /\
     dtype r = ResultType a b) /\
  Dot a b (Some dt) s = Dot a b None s /\
  (forall (a' b' r' : Array T) (s0 s1 : State T),
     wf_shape (shape a') -> wf_shape (shape b') ->
     (1 <= ndim a')%nat -> (1 <= ndim b')%nat ->
     Dot a' b' (Some dt) s0 = (Ok r', s1) -> dtype r' = dt).
Proof.
  intros Hr. destruct (Multiply_scalar a b Hr) as [r [Hm Hd]].
  repeat split.
  - exists r. rewrite (Dot_scalar_run a b (Some dt) s Hr), Hm. auto.
  - rewrite !(Dot_scalar_run a b _ s Hr). reflexivity.
  - intros a' b' r' s0 s1 Ha Hb Hra Hrb E.
    apply (Dot_nonscalar_dtype a' b' (Some dt) s0 s1 r' Ha Hb Hra Hrb E).
Qed.

(* ----------------------------------------------------------------- *)
(** *** Shape, zero contraction and errors *)



(** X15: for operands of rank at least 1 whose contracted extents agree, and
    a right operand that is of rank at most 2 or has a second-to-last extent
    other than 0, [Dot] returns an array whose shape is the left shape without
    its last axis followed by the right shape without its first axis (right
    rank at most 2) or without its second-to-last axis (right rank above 2). *)
Theorem Dot_output_shape (a b : Array T) (out_dtype : option Dtype) (s : State T) :
  wf_shape (shape a) -> wf_shape (shape b) ->
  (1 <= ndim a)%nat -> (1 <= ndim b)%nat ->
  contracted_right b = contracted_left a ->
  ((2 < ndim b)%nat -> contracted_right b <> 0) ->
  (forall x y out : Array T, DotKernel x y out <> None) ->
  exists r s',
    Dot a b out_dtype s = (Ok r, s') /\
    ((ndim b <= 2)%nat -> shape r = removelast (shape a) ++ tl (shape b)) /\
    ((2 < ndim b)%nat ->
       shape r = removelast (shape a) ++ remove_nth (ndim b - 2) (shape b)).
Proof.
  intros Ha Hb Hra Hrb Hagree Hdiv Hkernel.
  assert (Hshape :
    ((ndim b <= 2)%nat -> dot_shape a b = removelast (shape a) ++ tl (shape b)) /\
    ((2 < ndim b)%nat ->
       dot_shape a b = removelast (shape a) ++ remove_nth (ndim b - 2) (shape b))).
  { unfold dot_shape.
    destruct (Nat.leb_spec (ndim b) 2); split; intros; try lia; auto. }
  rewrite (Dot_run a b out_dtype s Ha Hb Hra Hrb Hdiv). unfold Dot_reduced.
  destruct (Z.eqb_spec (contracted_right b) (contracted_left a)) as [_|Hne];
    [|contradiction].
  cbn [negb].
  destruct (contracted_left a =? 0).
  - eexists. eexists. split; [reflexivity|]. exact Hshape.
  - destruct (DotKernel _ _ _) as [d|] eqn:Hd; [|exfalso; exact (Hkernel _ _ _ Hd)].
    eexists. eexists. split; [reflexivity|]. exact Hshape.
Qed.

(** X16: for a left operand of rank at least 1 and a right operand of rank 1
    or 2 whose contracted extents agree and are zero, [Dot] returns the
    zero-filled array of the output shape and the result dtype and leaves the
    state as it was: no kernel is dispatched and no op node is attached. *)
Theorem Dot_zero_contraction (a b : Array T) (out_dtype : option Dtype) (s : State T) :
  wf_shape (shape a) -> wf_shape (shape b) ->
  (1 <= ndim a)%nat -> (1 <= ndim b)%nat -> (ndim b <= 2)%nat ->
  contracted_right b = contracted_left a ->
  contracted_left a = 0 ->
  exists r,
    Dot a b out_dtype s = (Ok r, s) /\
    r = Zeros (dot_shape a b) (real_out_dtype a b out_dtype) (device a) /\
    shape r = dot_shape a b /\
    dtype r = real_out_dtype a b out_dtype /\
    data r = repeat szero (size_of (dot_shape a b)) /\
    kernel_log (snd (Dot a b out_dtype s)) = kernel_log s /\
    graph (snd (Dot a b out_dtype s)) = graph s.
Proof.
  intros Ha Hb Hra Hrb Hq Hagree Hzero.
  rewrite (Dot_run a b out_dtype s Ha Hb Hra Hrb) by lia. unfold Dot_reduced.
  destruct (Z.eqb_spec (contracted_right b) (contracted_left a)) as [_|Hne];
    [|contradiction].
  destruct (Z.eqb_spec (contracted_left a) 0) as [_|Hne]; [|contradiction].
  cbn [negb snd].
  eexists. repeat split.
Qed.

Lemma Dot_raises_iff (a b : Array T) (out_dtype : option Dtype) (s : State T) :
  wf_shape (shape a) -> wf_shape (shape b) ->
  (raises_DimensionError (Dot a b out_dtype) s ->
   (1 <= ndim a)%nat /\ (1 <= ndim b)%nat /\ contracted_right b <> contracted_left a) /\
  (((2 < ndim b)%nat -> contracted_right b <> 0) ->
   (1 <= ndim a)%nat /\ (1 <= ndim b)%nat /\ contracted_right b <> contracted_left a ->
   raises_DimensionError (Dot a b out_dtype) s) /\
  (raises_DimensionError (Dot a b out_dtype) s -> snd (Dot a b out_dtype s) = s).
Proof.
  intros Ha Hb. unfold raises_DimensionError.
  destruct (Nat.eq_dec (ndim a) 0) as [Hra|Hra];
    [|destruct (Nat.eq_dec (ndim b) 0) as [Hrb|Hrb]].
  1,2: rewrite (Dot_scalar_run a b out_dtype s) by auto;
       destruct (Multiply_scalar a b) as [r [Hm _]]; [auto|]; rewrite Hm; cbn [fst snd];
       split; [intros [msg E]; discriminate|split; [lia|reflexivity]].
  destruct (divisor_cases b) as [Hdiv|[Hq Hzero]].
  2:{ rewrite (Dot_divides_by_zero a b out_dtype s) by (assumption || lia).
      cbn [fst snd]. split; [intros [msg E]; discriminate|].
      split; [|reflexivity]. intros Hdiv _. exfalso. exact (Hdiv Hq Hzero). }
  rewrite (Dot_run a b out_dtype s Ha Hb) by (assumption || lia). unfold Dot_reduced.
  destruct (Z.eqb_spec (contracted_right b) (contracted_left a)) as [Hagree|Hne];
    cbn [negb].
  - assert (Hno : forall (x : Result (Array T) * State T),
              (forall msg, fst x <> Throw (DimensionError msg)) ->
              ((exists msg, fst x = Throw (DimensionError msg)) ->
               (1 <= ndim a)%nat /\ (1 <= ndim b)%nat /\
               contracted_right b <> contracted_left a) /\
              (((2 < ndim b)%nat -> contracted_right b <> 0) ->
               (1 <= ndim a)%nat /\ (1 <= ndim b)%nat /\
               contracted_right b <> contracted_left a ->
               exists msg, fst x = Throw (DimensionError msg)) /\
              ((exists msg, fst x = Throw (DimensionError msg)) -> snd x = s)).
    { intros x Hx. split; [|split].
      - intros [msg E]. exfalso. exact (Hx msg E).
      - intros _ [_ [_ Hc]]. contradiction.
      - intros [msg E]. exfalso. exact (Hx msg E). }
    apply Hno.
    destruct (contracted_left a =? 0); [cbn; discriminate|].
    destruct (DotKernel _ _ _); cbn; discriminate.
  - cbn [fst snd]. split; [|split; [|reflexivity]].
    + intros _. repeat split; [lia|lia|assumption].
    + intros _ _. eauto.
Qed.

Lemma not_square_iff (a : Array T) :
  negb (Nat.eqb (ndim a) 2) = true \/
  (negb (Nat.eqb (ndim a) 2) = false /\ negb (dim a 0 =? dim a 1) = true) <->
  ndim a <> 2%nat \/ dim a 0 <> dim a 1.
Proof.
  destruct (Nat.eqb_spec (ndim a) 2) as [Hr|Hr];
    destruct (Z.eqb_spec (dim a 0) (dim a 1)) as [Hd|Hd]; cbn [negb];
    intuition congruence.
Qed.

Lemma Eigh_raises_iff (a : Array T) (uplo : string) (s : State T) :
  (raises_DimensionError (Eigh a uplo) s <-> ndim a <> 2%nat \/ dim a 0 <> dim a 1) /\
  (raises_DimensionError (Eigh a uplo) s -> snd (Eigh a uplo s) = s).
Proof.
  unfold raises_DimensionError. rewrite Eigh_run.
  rewrite <- not_square_iff. unfold Eigh_reduced.
  destruct (negb (Nat.eqb (ndim a) 2)); cbn [fst snd].
  - split; [split; eauto|reflexivity].
  - destruct (negb (dim a 0 =? dim a 1)); cbn [fst snd].
    + split; [split; eauto|reflexivity].
    + destruct (SyevdKernel a uplo true); cbn [fst snd];
        (split; [split|]); try (intros [msg E]; discriminate);
        intros [E|[_ E]]; discriminate.
Qed.

Lemma Eigvalsh_raises_iff (a : Array T) (uplo : string) (s : State T) :
  (raises_DimensionError (Eigvalsh a uplo) s <-> ndim a <> 2%nat \/ dim a 0 <> dim a 1) /\
  (raises_DimensionError (Eigvalsh a uplo) s -> snd (Eigvalsh a uplo s) = s).
Proof.
  unfold raises_DimensionError. rewrite Eigvalsh_run.
  rewrite <- not_square_iff. unfold Eigvalsh_reduced.
  destruct (negb (Nat.eqb (ndim a) 2)); cbn [fst snd].
  - split; [split; eauto|reflexivity].
  - destruct (negb (dim a 0 =? dim a 1)); cbn [fst snd].
    + split; [split; eauto|reflexivity].
    + destruct (SyevdKernel a uplo false); cbn [fst snd];
        (split; [split|]); try (intros [msg E]; discriminate);
        intros [E|[_ E]]; discriminate.
Qed.

(** X17: [Eigh] and [Eigvalsh] end in a [DimensionError] exactly when the
    input is not of rank 2 or not square.  [Dot] ends in a [DimensionError]
    only when both operands have rank at least 1 and their contracted extents
    differ, and it does so for every such pair whose right operand is of rank
    at most 2 or has a second-to-last extent other than 0.  In each case the
    state is the one the call started from: the error is raised before any
    kernel is dispatched. *)
Theorem DimensionError_exactly_on_invalid_shapes
    (a b : Array T) (out_dtype : option Dtype) (uplo : string) (s : State T) :
  wf_shape (shape a) -> wf_shape (shape b) ->
  (raises_DimensionError (Dot a b out_dtype) s ->
   (1 <= ndim a)%nat /\ (1 <= ndim b)%nat /\ contracted_right b <> contracted_left a) /\
  (((2 < ndim b)%nat -> contracted_right b <> 0) ->
   (1 <= ndim a)%nat /\ (1 <= ndim b)%nat /\ contracted_right b <> contracted_left a ->
   raises_DimensionError (Dot a b out_dtype) s) /\
  (raises_DimensionError (Eigh a uplo) s <-> ndim a <> 2%nat \/ dim a 0 <> dim a 1) /\
  (raises_DimensionError (Eigvalsh a uplo) s <-> ndim a <> 2%nat \/ dim a 0 <> dim a 1) /\
  (raises_DimensionError (Dot a b out_dtype) s ->
   snd (Dot a b out_dtype s) = s /\ kernel_log (snd (Dot a b out_dtype s)) = kernel_log s) /\
  (raises_DimensionError (Eigh a uplo) s ->
   snd (Eigh a uplo s) = s /\ kernel_log (snd (Eigh a uplo s)) = kernel_log s) /\
  (raises_DimensionError (Eigvalsh a uplo) s ->
   snd (Eigvalsh a uplo s) = s /\ kernel_log (snd (Eigvalsh a uplo s)) = kernel_log s).
Proof.
  intros Ha Hb.
  destruct (Dot_raises_iff a b out_dtype s Ha Hb) as [HD1 [HD1' HD2]].
  destruct (Eigh_raises_iff a uplo s) as [HE1 HE2].
  destruct (Eigvalsh_raises_iff a uplo s) as [HV1 HV2].
  split; [exact HD1|]. split; [exact HD1'|]. split; [exact HE1|]. split; [exact HV1|].
  split; [|split]; intros Hr;
    [rewrite (HD2 Hr)|rewrite (HE2 Hr)|rewrite (HV2 Hr)]; split; reflexivity.
Qed.

(* ----------------------------------------------------------------- *)
(** *** The gradient rule of [Dot] *)

(** The closures of [Dot], run in the context of their op node. *)
Lemma DotGradA_run (node : OpNode T) (a_dtype : Dtype) (a_matrix b_matrix gout : Array T)
    (s : State T) :
  op_inputs node = [a_matrix; b_matrix] ->
  run_backward (DotGradA (InputToken 1) a_dtype) (context_of node [Some gout]) s
  = Dot gout (Transpose b_matrix) (Some a_dtype) s.
Proof.
  intros Hin. unfold run_backward, context_of, GetRetainedInput, the_output_grad, output_grad.
  cbn [bctx_inputs bctx_output_grads nth_error]. rewrite Hin. reflexivity.
Qed.

Lemma DotGradB_run (node : OpNode T) (b_dtype : Dtype) (a_matrix b_matrix gout : Array T)
    (s : State T) :
  op_inputs node = [a_matrix; b_matrix] ->
  run_backward (DotGradB (InputToken 0) b_dtype) (context_of node [Some gout]) s
  = Dot (Transpose a_matrix) gout (Some b_dtype) s.
Proof.
  intros Hin. unfold run_backward, context_of, GetRetainedInput, the_output_grad, output_grad.
  cbn [bctx_inputs bctx_output_grads nth_error]. rewrite Hin. reflexivity.
Qed.

Lemma wf_shape2 (m n : Z) : 0 <= m -> 0 <= n -> wf_shape [m; n].
Proof. intros. repeat (apply wf_shape_cons; split; [assumption|]). constructor. Qed.

Lemma quot_nonneg (x k : Z) : 0 <= x -> 0 <= k -> 0 <= Z.quot x k.
Proof.
  intros Hx Hk. destruct (Z.eq_dec k 0) as [->|Hne].
  - assert (E : Z.quot x 0 = 0) by (destruct x; reflexivity). rewrite E. lia.
  - apply Z.quot_pos; lia.
Qed.

Lemma dot_out_shape2_wf (a b : Array T) :
  wf_shape (shape a) -> wf_shape (shape b) -> wf_shape (dot_out_shape2 a b).
Proof.
  intros Ha Hb. pose proof (contracted_left_nonneg a Ha).
  apply wf_shape2; apply quot_nonneg; try assumption; apply TotalSize_nonneg; assumption.
Qed.

(** C3: on the kernel path with both reduced operands differentiable, [Dot]
    attaches one op node "dot" over [a_matrix] and [b_matrix] with exactly two
    targets.  The closure of target 0 captures only the token of [b_matrix]
    and computes [Dot(gout, b_matrix.Transpose(), a.dtype())]; the closure of
    target 1 captures only the token of [a_matrix] and computes
    [Dot(a_matrix.Transpose(), gout, b.dtype())]; both call the entry point
    [Dot] and their results have the dtype of [a], respectively of [b]. *)
Theorem Dot_gradient_rule
    (a b : Array T) (out_dtype : option Dtype) (s : State T) (d : list T) :
  wf_shape (shape a) -> wf_shape (shape b) ->
  (1 <= ndim a)%nat -> (1 <= ndim b)%nat ->
  contracted_right b = contracted_left a ->
  contracted_left a <> 0 ->
  DotKernel (dot_a_matrix a) (dot_b_matrix a b)
    (Empty (dot_out_shape2 a b) (real_out_dtype a b out_dtype) (device a)) = Some d ->
  backprop_mode s = true ->
  IsBackpropRequired (dot_a_matrix a) = true ->
  IsBackpropRequired (dot_b_matrix a b) = true ->
  exists r s' node grad_a grad_b,
    Dot a b out_dtype s = (Ok r, s') /\
    graph s' = graph s ++ [node] /\
    op_name node = "dot"%string /\
    op_inputs node = [dot_a_matrix a; dot_b_matrix a b] /\
    ndim (dot_a_matrix a) = 2%nat /\ ndim (dot_b_matrix a b) = 2%nat /\
    op_targets node = [mkTargetDef 0 grad_a; mkTargetDef 1 grad_b] /\
    captured_inputs grad_a = [InputToken 1] /\ captured_outputs grad_a = [] /\
    captured_inputs grad_b = [InputToken 0] /\ captured_outputs grad_b = [] /\
    (forall gout s0,
       run_backward grad_a (context_of node [Some gout]) s0
       = Dot gout (Transpose (dot_b_matrix a b)) (Some (dtype a)) s0) /\
    (forall gout s0,
       run_backward grad_b (context_of node [Some gout]) s0
       = Dot (Transpose (dot_a_matrix a)) gout (Some (dtype b)) s0) /\
    (forall gout s0 g s1,
       shape gout = dot_out_shape2 a b ->
       run_backward grad_a (context_of node [Some gout]) s0 = (Ok g, s1) ->
       dtype g = dtype a) /\
    (forall gout s0 g s1,
       shape gout = dot_out_shape2 a b ->
       run_backward grad_b (context_of node [Some gout]) s0 = (Ok g, s1) ->
       dtype g = dtype b).
Proof.
  intros Ha Hb Hra Hrb Hagree Hk Hd Hmode Hreq_a Hreq_b.
  pose proof (dot_out_shape2_wf a b Ha Hb) as Hout.
  pose proof (contracted_left_nonneg a Ha) as Hknn.
  rewrite (Dot_run a b out_dtype s Ha Hb Hra Hrb) by (intros _; congruence).
  unfold Dot_reduced.
  destruct (Z.eqb_spec (contracted_right b) (contracted_left a)) as [_|Hne];
    [|contradiction].
  destruct (Z.eqb_spec (contracted_left a) 0) as [Hz|_]; [contradiction|].
  cbn [negb]. rewrite Hd. unfold dot_nodes. rewrite Hmode, Hreq_a, Hreq_b.
  cbn [andb orb app].
  eexists. eexists. eexists. exists (DotGradA (InputToken 1) (dtype a)).
  exists (DotGradB (InputToken 0) (dtype b)).
  split; [reflexivity|]. split; [reflexivity|].
  cbn [op_name op_inputs op_targets captured_inputs captured_outputs].
  repeat (split; [reflexivity|]).
  assert (HA : forall gout s0,
             run_backward (DotGradA (InputToken 1) (dtype a))
               (context_of
                  (mkOpNode "dot" [dot_a_matrix a; dot_b_matrix a b]
                     [mkArray (dot_out_shape2 a b) (real_out_dtype a b out_dtype) (device a) d]
                     [1%nat; 0%nat] [] [dot_target_a a; dot_target_b b])
                  [Some gout]) s0
             = Dot gout (Transpose (dot_b_matrix a b)) (Some (dtype a)) s0).
  { intros. apply (DotGradA_run _ _ (dot_a_matrix a)). reflexivity. }
  assert (HB : forall gout s0,
             run_backward (DotGradB (InputToken 0) (dtype b))
               (context_of
                  (mkOpNode "dot" [dot_a_matrix a; dot_b_matrix a b]
                     [mkArray (dot_out_shape2 a b) (real_out_dtype a b out_dtype) (device a) d]
                     [1%nat; 0%nat] [] [dot_target_a a; dot_target_b b])
                  [Some gout]) s0
             = Dot (Transpose (dot_a_matrix a)) gout (Some (dtype b)) s0).
  { intros. apply (DotGradB_run _ _ _ (dot_b_matrix a b)). reflexivity. }
  split.
  - intros gout s0 g s1 Hg. rewrite HA. intros E.
    change (dtype a)
      with (real_out_dtype gout (Transpose (dot_b_matrix a b)) (Some (dtype a))).
    apply (Dot_nonscalar_dtype gout (Transpose (dot_b_matrix a b)) (Some (dtype a)) s0 s1 g);
      [rewrite Hg; assumption| | | |exact E].
    + unfold dot_b_matrix. rewrite Transpose_shape2.
      unfold dot_out_shape2 in Hout. apply wf_shape_cons in Hout.
      destruct Hout as [_ Hn]. apply wf_shape_cons in Hn. destruct Hn as [Hn _].
      apply wf_shape2; assumption.
    + unfold ndim. rewrite Hg. simpl. lia.
    + unfold ndim, dot_b_matrix. rewrite Transpose_shape2. simpl. lia.
  - intros gout s0 g s1 Hg. rewrite HB. intros E.
    change (dtype b)
      with (real_out_dtype (Transpose (dot_a_matrix a)) gout (Some (dtype b))).
    apply (Dot_nonscalar_dtype (Transpose (dot_a_matrix a)) gout (Some (dtype b)) s0 s1 g);
      [|rewrite Hg; assumption| | |exact E].
    + unfold dot_a_matrix. rewrite Transpose_shape2.
      unfold dot_out_shape2 in Hout. apply wf_shape_cons in Hout.
      destruct Hout as [Hm _]. apply wf_shape2; assumption.
    + unfold ndim, dot_a_matrix. rewrite Transpose_shape2. simpl. lia.
    + unfold ndim. rewrite Hg. simpl. lia.
Qed.

(* ----------------------------------------------------------------- *)
(** *** [Eigvalsh] against [Eigh] *)

Lemma Eigvalsh_graph (a : Array T) (uplo : string) (s : State T) :
  graph (snd (Eigvalsh a uplo s)) = graph s.
Proof.
  rewrite Eigvalsh_run. unfold Eigvalsh_reduced.
  destruct (negb _); [reflexivity|]. destruct (negb _); [reflexivity|].
  destruct (SyevdKernel a uplo false); reflexivity.
Qed.



End EntryPoints.

(* ================================================================= *)
(** ** The gradient of [Eigh] *)

Section EighProperties.
Context {T : Type} `{Scalar T} `{TypeUtil T} `{Backend T} `{GraphEngine T}.

Lemma rows_of_mk {E} (n m : Z) (dt : Dtype) (dev : Device) (d : list E) :
  rows_of (mkArray [n; m] dt dev d) = chunks (Z.to_nat m) (Z.to_nat n) d.
Proof. reflexivity. Qed.

Lemma rows_of_shape {E} (x : Array E) (n m : Z) :
  shape x = [n; m] -> rows_of x = chunks (Z.to_nat m) (Z.to_nat n) (data x).
Proof. intros Hs. unfold rows_of, dim. rewrite Hs. reflexivity. Qed.

(** [F = ExpandDims(w, 0) - ExpandDims(w, 1)] has [F[i][j] = w[j] - w[i]]. *)
Lemma EighF_difference_rows (w : Array T) (N : nat) :
  shape w = [Z.of_nat N] -> length (data w) = N ->
  exists F0,
    EighF_difference w = Ok F0 /\
    shape F0 = [Z.of_nat N; Z.of_nat N] /\
    rows_of F0 = F_difference (data w).
Proof.
  intros Hs Hlen. unfold EighF_difference, Subtract, BroadcastBinary, ExpandDims.
  cbn [shape data device dtype]. rewrite Hs. cbn [firstn skipn app].
  destruct (list_eq_dec Z.eq_dec [1; Z.of_nat N] [Z.of_nat N; 1]) as [E|E].
  - assert (HN : N = 1%nat) by (injection E; lia). rewrite HN in *.
    destruct (data w) as [|w0 [|w1 l]]; try discriminate.
    eexists. split; [reflexivity|]. split; [reflexivity|]. reflexivity.
  - assert (HN : N <> 1%nat) by (intros HN; apply E; rewrite HN; reflexivity).
    assert (Hbs : BroadcastShapes [1; Z.of_nat N] [Z.of_nat N; 1]
                  = Ok [Z.of_nat N; Z.of_nat N]).
    { unfold BroadcastShapes. cbn [rev app broadcast_rev].
      destruct (Z.eqb_spec 1 (Z.of_nat N)) as [?|_]; [lia|].
      destruct (Z.eqb_spec (Z.of_nat N) 1) as [?|_]; [lia|].
      cbn [Z.eqb Pos.eqb rev app]. reflexivity. }
    rewrite Hbs. cbn [rbind]. eexists. split; [reflexivity|]. split; [reflexivity|].
    rewrite rows_of_mk. unfold BroadcastTo, pad_shape, nat_shape.
    cbn [shape data length map Nat.sub repeat app].
    rewrite Nat2Z.id. change (Z.to_nat 1) with 1%nat.
    subst N. rewrite (broadcast_row (data w) HN), (broadcast_column (data w) HN).
    rewrite chunks_map2.
    rewrite (chunks_concat_count (length (data w)) (length (data w)) (repeat (data w) _))
      by (rewrite ?repeat_length; auto using Forall_forall;
          apply Forall_forall; intros r Hr; apply repeat_spec in Hr; subst; reflexivity).
    rewrite (chunks_concat_count (length (data w)) (length (data w)) (map _ (data w)))
      by (rewrite ?length_map; auto;
          apply Forall_forall; intros r Hr; apply in_map_iff in Hr;
          destruct Hr as [x [<- _]]; apply repeat_length).
    unfold F_difference.
    rewrite <- (length_map (fun x => repeat x (length (data w))) (data w)) at 1.
    rewrite map2_repeat_l, map_map. apply map_ext. intros wi.
    apply map2_repeat_r.
Qed.

Lemma Eye_rows (N : nat) (dt : Dtype) (dev : Device) :
  rows_of (Eye false true (Z.of_nat N) (Z.of_nat N) 0 dt dev)
  = map (fun i => map (fun j => Nat.eqb i j) (seq 0 N)) (seq 0 N).
Proof.
  unfold Eye. rewrite rows_of_mk, Nat2Z.id, flat_map_concat_map.
  rewrite chunks_concat_count.
  - apply map_ext. intros i. apply map_ext. intros j.
    destruct (Z.eqb_spec (Z.of_nat j) (Z.of_nat i + 0));
      destruct (Nat.eqb_spec i j); try reflexivity; lia.
  - rewrite length_map, length_seq. reflexivity.
  - apply Forall_forall. intros r Hr. apply in_map_iff in Hr.
    destruct Hr as [i [<- _]]. rewrite length_map, length_seq. reflexivity.
Qed.

(** The diagonal of [F] is replaced by infinity, the rest is kept. *)
Lemma EighF_masked_rows (a F0 : Array T) (w : list T) :
  shape F0 = [Z.of_nat (length w); Z.of_nat (length w)] ->
  rows_of F0 = F_difference w ->
  exists F1,
    EighF_masked a F0 = Ok F1 /\
    shape F1 = [Z.of_nat (length w); Z.of_nat (length w)] /\
    rows_of F1 = F_masked w.
Proof.
  intros Hs Hrows. unfold EighF_masked, Where, BroadcastBinary, dim.
  rewrite Hs. cbn [nth].
  destruct (list_eq_dec Z.eq_dec _ _) as [_|E]; [|exfalso; apply E; reflexivity].
  eexists. split; [reflexivity|]. split; [reflexivity|].
  change (shape (Eye false true (Z.of_nat (length w)) (Z.of_nat (length w)) 0 kBool (device a)))
    with [Z.of_nat (length w); Z.of_nat (length w)].
  rewrite rows_of_mk, chunks_map2.
  rewrite <- (rows_of_shape F0 _ _ Hs), Hrows.
  pose proof (Eye_rows (length w) kBool (device a)) as He.
  unfold Eye in He |- *. rewrite rows_of_mk in He. cbn [data]. rewrite He.
  unfold F_difference, F_masked.
  rewrite map2_map_map. apply map_ext. intros p.
  rewrite map2_map_map. apply map_ext. intros q.
  destruct (fst p =? fst q)%nat; reflexivity.
Qed.

(** After the inversion the diagonal is zero and the rest is [1 / (w[j] - w[i])]. *)
Lemma Reciprocal_masked_rows (F1 : Array T) (w : list T) :
  srecip sinf = szero ->
  shape F1 = [Z.of_nat (length w); Z.of_nat (length w)] ->
  rows_of F1 = F_masked w ->
  shape (Reciprocal F1) = [Z.of_nat (length w); Z.of_nat (length w)] /\
  rows_of (Reciprocal F1) = F_inverse w.
Proof.
  intros Hinf Hs Hrows. split; [exact Hs|].
  unfold Reciprocal. rewrite Hs, rows_of_mk, chunks_map.
  rewrite <- (rows_of_shape F1 _ _ Hs), Hrows.
  unfold F_masked, F_inverse. rewrite map_map. apply map_ext. intros p.
  rewrite map_map. apply map_ext. intros q.
  destruct (fst p =? fst q)%nat; [exact Hinf|reflexivity].
Qed.

Lemma EighF_rows (a w : Array T) (N : nat) :
  srecip sinf = szero ->
  shape w = [Z.of_nat N] -> length (data w) = N ->
  exists F0 F1 F2,
    EighF_difference w = Ok F0 /\ rows_of F0 = F_difference (data w) /\
    EighF_masked a F0 = Ok F1 /\ rows_of F1 = F_masked (data w) /\
    F2 = Reciprocal F1 /\ rows_of F2 = F_inverse (data w) /\
    EighF a w = Ok F2 /\
    shape F2 = [Z.of_nat N; Z.of_nat N].
Proof.
  intros Hinf Hs Hlen.
  destruct (EighF_difference_rows w N Hs Hlen) as [F0 [HF0 [Hs0 Hr0]]].
  rewrite <- Hlen in Hs0.
  destruct (EighF_masked_rows a F0 (data w) Hs0 Hr0) as [F1 [HF1 [Hs1 Hr1]]].
  destruct (Reciprocal_masked_rows F1 (data w) Hinf Hs1 Hr1) as [Hs2 Hr2].
  exists F0, F1, (Reciprocal F1).
  repeat (split; [assumption || reflexivity|]).
  split; [|rewrite Hs2, Hlen; reflexivity].
  unfold EighF. rewrite HF0. cbn [rbind]. rewrite HF1. reflexivity.
Qed.

(* ----------------------------------------------------------------- *)
(** *** [Dot] of two matrices is the matrix product *)

Lemma mat_mul_rows (N : nat) (X Y : list (list T)) :
  length (mat_mul N X Y) = length X /\
  Forall (fun r => length r = N) (mat_mul N X Y).
Proof.
  unfold mat_mul, columns. split; [apply length_map|].
  apply Forall_forall. intros r Hr. apply in_map_iff in Hr.
  destruct Hr as [x [<- _]]. rewrite !length_map, length_seq. reflexivity.
Qed.

(** The product over an empty contracted axis is the zero matrix. *)
Lemma mat_mul_empty (M N : nat) :
  mat_mul N (repeat [] M) [] = repeat (repeat szero N) M.
Proof.
  unfold mat_mul, columns. rewrite map_repeat. f_equal.
  rewrite map_map. cbn [map]. unfold dot_product, map2. cbn [combine map fold_left].
  rewrite map_const, length_seq. reflexivity.
Qed.

Lemma Dot_matrix (x y : Array T) (M K N : nat) (s : State T) :
  (forall p q out, DotKernel p q out = Some (matrix_product_data p q)) ->
  shape x = [Z.of_nat M; Z.of_nat K] -> shape y = [Z.of_nat K; Z.of_nat N] ->
  exists r s',
    Dot x y None s = (Ok r, s') /\
    shape r = [Z.of_nat M; Z.of_nat N] /\
    rows_of r = mat_mul N (rows_of x) (rows_of y).
Proof.
  intros Hkernel Hx Hy.
  assert (Hwx : wf_shape (shape x)) by (rewrite Hx; apply wf_shape2; lia).
  assert (Hwy : wf_shape (shape y)) by (rewrite Hy; apply wf_shape2; lia).
  assert (Hrx : ndim x = 2%nat) by (unfold ndim; rewrite Hx; reflexivity).
  assert (Hry : ndim y = 2%nat) by (unfold ndim; rewrite Hy; reflexivity).
  assert (Hcl : contracted_left x = Z.of_nat K)
    by (unfold contracted_left; rewrite Hx; reflexivity).
  assert (Hcr : contracted_right y = Z.of_nat K)
    by (unfold contracted_right, dim; rewrite Hry, Hy; reflexivity).
  assert (Hds : dot_shape x y = [Z.of_nat M; Z.of_nat N])
    by (unfold dot_shape; rewrite Hry, Hx, Hy; reflexivity).
  assert (Hgx : GetTotalSize x = Z.of_nat M * Z.of_nat K)
    by (unfold GetTotalSize, TotalSize; rewrite Hx; simpl; ring).
  assert (Hgy : GetTotalSize y = Z.of_nat N * Z.of_nat K)
    by (unfold GetTotalSize, TotalSize; rewrite Hy; simpl; ring).
  assert (Hmb : dot_modified_b y = y)
    by (unfold dot_modified_b; rewrite Hry; reflexivity).
  rewrite (Dot_run x y None s Hwx Hwy) by lia. unfold Dot_reduced.
  rewrite Hcl, Hcr, Z.eqb_refl, Hds. cbn [negb].
  rewrite (rows_of_shape x _ _ Hx), (rows_of_shape y _ _ Hy), !Nat2Z.id.
  destruct (Z.eqb_spec (Z.of_nat K) 0) as [HK|HK].
  - assert (K = 0%nat) by lia. subst K.
    eexists. eexists. split; [reflexivity|]. split; [reflexivity|].
    unfold Zeros. rewrite rows_of_mk, !Nat2Z.id.
    replace (size_of [Z.of_nat M; Z.of_nat N]) with (M * N)%nat
      by (unfold size_of, TotalSize; simpl; lia).
    rewrite chunks_empty_rows. cbn [chunks]. rewrite mat_mul_empty.
    rewrite <- concat_repeat_repeat.
    apply chunks_concat_count; [apply repeat_length|].
    apply Forall_forall. intros r Hr. apply repeat_spec in Hr. subst r.
    apply repeat_length.
  - rewrite Hkernel.
    eexists. eexists. split; [reflexivity|]. split; [reflexivity|].
    rewrite rows_of_mk, !Nat2Z.id. unfold matrix_product_data.
    unfold dot_b_matrix, dot_a_matrix. rewrite Hmb, Hcl, Hgx, Hgy.
    rewrite !Z.quot_mul by assumption.
    rewrite !rows_of_mk. unfold dim. cbn [shape nth]. rewrite !Nat2Z.id.
    destruct (mat_mul_rows N (chunks K M (data x)) (chunks N K (data y))) as [Hl Hf].
    apply chunks_concat_count; [|assumption].
    rewrite Hl. apply length_chunks.
Qed.

(* ----------------------------------------------------------------- *)
(** *** Entries of the three stages of [F] *)

Lemma nth_indexed {X} (f : nat * T -> X) (w : list T) (i : nat) (dx : X) :
  (i < length w)%nat ->
  nth i (map f (combine (seq 0 (length w)) w)) dx = f (i, nth i w szero).
Proof.
  intros Hi.
  rewrite (nth_indep _ dx (f (0%nat, szero)))
    by (rewrite length_map, length_combine, length_seq; lia).
  rewrite map_nth, combine_nth by apply length_seq.
  rewrite seq_nth by assumption. reflexivity.
Qed.

Lemma F_difference_entry (w : list T) (i j : nat) :
  (i < length w)%nat -> (j < length w)%nat ->
  entry (F_difference w) i j = ssub (nth j w szero) (nth i w szero).
Proof.
  intros Hi Hj. unfold entry, F_difference.
  rewrite (nth_indep _ [] ((fun wi => map (fun wj => ssub wj wi) w) szero))
    by (rewrite length_map; assumption).
  rewrite (map_nth (fun wi => map (fun wj => ssub wj wi) w)).
  rewrite (nth_indep _ szero ((fun wj => ssub wj (nth i w szero)) szero))
    by (rewrite length_map; assumption).
  rewrite (map_nth (fun wj => ssub wj (nth i w szero))). reflexivity.
Qed.

Lemma F_masked_entry (w : list T) (i j : nat) :
  (i < length w)%nat -> (j < length w)%nat ->
  entry (F_masked w) i j
  = if Nat.eqb i j then sinf else ssub (nth j w szero) (nth i w szero).
Proof.
  intros Hi Hj. unfold entry, F_masked.
  rewrite nth_indexed by assumption. rewrite nth_indexed by assumption. reflexivity.
Qed.

Lemma F_inverse_entry (w : list T) (i j : nat) :
  (i < length w)%nat -> (j < length w)%nat ->
  entry (F_inverse w) i j
  = if Nat.eqb i j then szero else srecip (ssub (nth j w szero) (nth i w szero)).
Proof.
  intros Hi Hj. unfold entry, F_inverse.
  rewrite nth_indexed by assumption. rewrite nth_indexed by assumption. reflexivity.
Qed.

(* ----------------------------------------------------------------- *)
(** *** [Transpose] of a matrix *)

Lemma Transpose_shape_2d {E} (v : Array E) (r c : Z) :
  shape v = [r; c] -> shape (Transpose v) = [c; r].
Proof. destruct v as [sh dt dev d]. cbn [shape]. intros ->. reflexivity. Qed.

Lemma gather_nth {E} (d : list E) (dflt : E) (offsets : list nat) :
  Forall (fun k => (k < length d)%nat) offsets ->
  gather d offsets = map (fun k => nth k d dflt) offsets.
Proof.
  unfold gather. induction 1 as [|k offsets Hk _ IH]; [reflexivity|].
  cbn [flat_map map]. rewrite IH.
  destruct (nth_error d k) as [x|] eqn:Hnth.
  - rewrite (nth_error_nth _ _ dflt Hnth). reflexivity.
  - apply nth_error_None in Hnth. lia.
Qed.

Lemma indices_2d (C R : nat) :
  indices [C; R] = flat_map (fun i => map (fun i' => [i; i']) (seq 0 R)) (seq 0 C).
Proof.
  cbn [indices]. apply flat_map_ext. intros i.
  induction (seq 0 R) as [|i' l IH]; [reflexivity|].
  cbn [flat_map map app]. rewrite <- IH. reflexivity.
Qed.

Lemma map_flat_map {X Y Z'} (f : Y -> Z') (g : X -> list Y) (l : list X) :
  map f (flat_map g l) = flat_map (fun x => map f (g x)) l.
Proof.
  induction l as [|x l IH]; [reflexivity|].
  cbn [flat_map]. rewrite map_app, IH. reflexivity.
Qed.

(** The elements of the transposed matrix, row by row. *)
Lemma Transpose_data_2d {E} (v : Array E) (R C : nat) (dflt : E) :
  shape v = [Z.of_nat R; Z.of_nat C] -> length (data v) = (R * C)%nat ->
  data (Transpose v)
  = concat (map (fun i => map (fun i' => nth (i' * C + i)%nat (data v) dflt) (seq 0 R))
                (seq 0 C)).
Proof.
  intros Hs Hlen. unfold Transpose, TransposeAxes, ndim, nat_shape, inverse_axes, permute.
  rewrite Hs. cbn [length seq rev app map nth position Nat.eqb data].
  rewrite !Nat2Z.id, indices_2d, map_flat_map.
  rewrite (flat_map_ext _ (fun i => map (fun i' => (i' * C + i)%nat) (seq 0 R))).
  2:{ intros i. rewrite map_map. apply map_ext. intros i'.
      unfold ravel. cbn [combine fold_left fst snd map nth]. lia. }
  rewrite (gather_nth _ dflt).
  - rewrite map_flat_map, flat_map_concat_map. f_equal. apply map_ext. intros i.
    apply map_map.
  - apply Forall_flat_map, Forall_forall. intros i Hi. apply in_seq in Hi.
    apply Forall_map, Forall_forall. intros i' Hi'. apply in_seq in Hi'.
    rewrite Hlen. nia.
Qed.

Lemma column_of_chunks {E} (C R : nat) (d : list E) (dflt : E) (j : nat) :
  (j < C)%nat ->
  map (fun r => nth j r dflt) (chunks C R d)
  = map (fun i' => nth (i' * C + j)%nat d dflt) (seq 0 R).
Proof.
  intros Hj. revert d. induction R as [|R IH]; intros d; [reflexivity|].
  cbn [chunks map seq]. rewrite <- seq_shift, map_map, IH, nth_firstn.
  destruct (Nat.ltb_spec j C) as [_|?]; [|lia].
  f_equal. apply map_ext. intros i'. rewrite nth_skipn. f_equal. lia.
Qed.

(** The rows of [v.Transpose()] are the columns of [v]. *)
Lemma Transpose_rows (v : Array T) (R C : nat) :
  shape v = [Z.of_nat R; Z.of_nat C] -> length (data v) = (R * C)%nat ->
  rows_of (Transpose v) = columns C (rows_of v).
Proof.
  intros Hs Hlen.
  rewrite (rows_of_shape (Transpose v) _ _ (Transpose_shape_2d v _ _ Hs)).
  rewrite (rows_of_shape v _ _ Hs), !Nat2Z.id.
  rewrite (Transpose_data_2d v R C szero Hs Hlen).
  rewrite chunks_concat_count.
  - unfold columns. apply map_ext_in. intros j Hj. apply in_seq in Hj.
    symmetry. apply column_of_chunks. lia.
  - rewrite length_map, length_seq. reflexivity.
  - apply Forall_forall. intros r Hr. apply in_map_iff in Hr.
    destruct Hr as [i [<- _]]. rewrite length_map, length_seq. reflexivity.
Qed.

(* ----------------------------------------------------------------- *)
(** *** The closure of [Eigh] *)

Lemma binary_same_shape {X Y Z'} (f : X -> Y -> Z') (dt : Dtype) (x : Array X) (y : Array Y) :
  shape x = shape y ->
  BroadcastBinary f dt x y = Ok (mkArray (shape x) dt (device x) (map2 f (data x) (data y))).
Proof.
  intros Hs. unfold BroadcastBinary.
  destruct (list_eq_dec Z.eq_dec (shape x) (shape y)); [reflexivity|contradiction].
Qed.

Lemma rows_of_map2 {X Y Z'} (f : X -> Y -> Z') (dt : Dtype) (dev : Device)
    (x : Array X) (y : Array Y) (n m : Z) :
  shape x = [n; m] -> shape y = [n; m] ->
  rows_of (mkArray [n; m] dt dev (map2 f (data x) (data y)))
  = map2 (map2 f) (rows_of x) (rows_of y).
Proof.
  intros Hx Hy.
  rewrite rows_of_mk, chunks_map2, (rows_of_shape x _ _ Hx), (rows_of_shape y _ _ Hy).
  reflexivity.
Qed.

Lemma Diag_rows (g : Array T) (N : nat) :
  shape g = [Z.of_nat N] -> length (data g) = N ->
  exists D,
    Diag g = Ok D /\ shape D = [Z.of_nat N; Z.of_nat N] /\ rows_of D = diag_mat (data g).
Proof.
  intros Hs Hlen. unfold Diag. rewrite Hs.
  eexists. split; [reflexivity|]. split; [reflexivity|].
  rewrite rows_of_mk, Nat2Z.id, flat_map_concat_map. unfold diag_mat. rewrite Hlen.
  apply chunks_concat_count.
  - rewrite length_map, length_combine, length_seq, Hlen. lia.
  - apply Forall_forall. intros r Hr. apply in_map_iff in Hr.
    destruct Hr as [p [<- _]]. rewrite length_map, length_seq. reflexivity.
Qed.

Lemma EighGradient_run (a w v gw gv : Array T) (N : nat) (s : State T) :
  (forall p q out, DotKernel p q out = Some (matrix_product_data p q)) ->
  srecip sinf = szero ->
  shape w = [Z.of_nat N] -> length (data w) = N ->
  shape v = [Z.of_nat N; Z.of_nat N] -> length (data v) = (N * N)%nat ->
  shape gw = [Z.of_nat N] -> length (data gw) = N ->
  shape gv = [Z.of_nat N; Z.of_nat N] ->
  exists grad_a s',
    EighGradient a w v gw gv s = (Ok grad_a, s') /\
    shape grad_a = [Z.of_nat N; Z.of_nat N] /\
    rows_of grad_a
    = eigh_gradient_formula N (data w) (rows_of v) (rows_of gv) (data gw).
Proof.
  intros Hkernel Hinf Hw Hwl Hv Hvl Hgw Hgwl Hgv.
  destruct (EighF_rows a w N Hinf Hw Hwl)
    as [F0 [F1 [F2 [_ [_ [_ [_ [_ [HrF [HF HsF]]]]]]]]]].
  pose proof (Transpose_shape_2d v _ _ Hv) as Hvt.
  unfold EighGradient, bind, lift. rewrite HF.
  destruct (Dot_matrix (Transpose v) gv N N N s Hkernel Hvt Hgv)
    as [d1 [s1 [Hd1 [Hsd1 Hrd1]]]].
  rewrite Hd1.
  unfold Multiply. rewrite (binary_same_shape smul _ F2 d1) by congruence.
  destruct (Diag_rows gw N Hgw Hgwl) as [D [HD [HsD HrD]]]. rewrite HD.
  set (P := mkArray (shape F2) _ _ (map2 smul (data F2) (data d1))).
  unfold Add. rewrite binary_same_shape by (rewrite HsD; exact HsF).
  set (Q := mkArray (shape P) _ _ (map2 sadd (data P) (data D))).
  assert (HsP : shape P = [Z.of_nat N; Z.of_nat N]) by exact HsF.
  assert (HsQ : shape Q = [Z.of_nat N; Z.of_nat N]) by exact HsF.
  assert (HrP : rows_of P = hadamard (rows_of F2) (rows_of d1)).
  { subst P. rewrite HsF. unfold hadamard. apply rows_of_map2; assumption. }
  assert (HrQ : rows_of Q = mat_add (rows_of P) (rows_of D)).
  { subst Q. change (shape P) with (shape F2). rewrite HsF.
    unfold mat_add. apply rows_of_map2; assumption. }
  destruct (Dot_matrix v Q N N N s1 Hkernel Hv HsQ) as [d2 [s2 [Hd2 [Hsd2 Hrd2]]]].
  rewrite Hd2.
  destruct (Dot_matrix d2 (Transpose v) N N N s2 Hkernel Hsd2 Hvt)
    as [d3 [s3 [Hd3 [Hsd3 Hrd3]]]].
  exists d3, s3. split; [exact Hd3|]. split; [exact Hsd3|].
  rewrite Hrd3, Hrd2, HrQ, HrP, HrF, Hrd1, HrD, (Transpose_rows v N N Hv Hvl).
  reflexivity.
Qed.

(** On a differentiable square input in recording mode [Eigh] attaches one
    node "eigh" with the single target 0, whose closure retains the input and
    both outputs and is run in [eigh_context]. *)
Lemma Eigh_registers_closure (a w v : Array T) (uplo : string) (s : State T) :
  ndim a = 2%nat -> dim a 0 = dim a 1 ->
  SyevdKernel a uplo true = Some (w, v) ->
  backprop_mode s = true -> IsBackpropRequired a = true ->
  exists node,
    Eigh a uplo s = (Ok (w, v), after_kernel kSyevdKernel s [node]) /\
    op_name node = "eigh"%string /\
    op_targets node = [mkTargetDef 0 eigh_closure] /\
    captured_inputs eigh_closure = [InputToken 0] /\
    captured_outputs eigh_closure = [OutputToken 0; OutputToken 1] /\
    forall grads, context_of node grads = eigh_context a w v grads.
Proof.
  intros Hr Hsq Hk Hmode Hreq. rewrite Eigh_run. unfold Eigh_reduced.
  rewrite Hr, Hsq, Z.eqb_refl, Hk. cbn [Nat.eqb negb fst snd].
  unfold eigh_nodes. rewrite Hmode, Hreq. cbn [andb].
  eexists. split; [reflexivity|]. repeat split.
Qed.

Lemma size_of_vector (N : nat) : size_of [Z.of_nat N] = N.
Proof. unfold size_of, TotalSize. simpl. lia. Qed.

Lemma size_of_square (N : nat) : size_of [Z.of_nat N; Z.of_nat N] = (N * N)%nat.
Proof. unfold size_of, TotalSize. simpl. lia. Qed.

Lemma EighBackward_run (a w v : Array T) (grads : list (option (Array T))) (s : State T) :
  run_backward eigh_closure (eigh_context a w v grads) s
  = EighGradient a w v
      (grad_or_zeros (output_grad (eigh_context a w v grads) 0) w a)
      (grad_or_zeros (output_grad (eigh_context a w v grads) 1) v a) s.
Proof. reflexivity. Qed.

(** C7: in the closure of [Eigh] an absent output gradient is replaced by a
    zero array before the formula is evaluated: the closure is the formula
    [EighGradient] applied to arrays only, and running it with an absent
    gradient is running it with the zero array of shape [n] (for [grad_w]) or
    [n]-by-[n] (for [grad_v]) and the dtype of [a] in its place. *)
Theorem Eigh_missing_gradients_are_zeros
    (a w v : Array T) (grads : list (option (Array T))) (N : nat) (s : State T) :
  shape w = [Z.of_nat N] -> shape v = [Z.of_nat N; Z.of_nat N] ->
  let bctx := eigh_context a w v grads in
  let gw := match output_grad bctx 0 with
            | Some g => g
            | None => Zeros [Z.of_nat N] (dtype a) (device a)
            end in
  let gv := match output_grad bctx 1 with
            | Some g => g
            | None => Zeros [Z.of_nat N; Z.of_nat N] (dtype a) (device a)
            end in
  run_backward eigh_closure bctx s = EighGradient a w v gw gv s /\
  run_backward eigh_closure bctx s
  = run_backward eigh_closure (eigh_context a w v [Some gw; Some gv]) s /\
  (output_grad bctx 0 = None ->
   shape gw = [Z.of_nat N] /\ dtype gw = dtype a /\ data gw = repeat szero N) /\
  (output_grad bctx 1 = None ->
   shape gv = [Z.of_nat N; Z.of_nat N] /\ dtype gv = dtype a /\
   data gv = repeat szero (N * N)).
Proof.
  intros Hw Hv bctx gw gv.
  assert (Hgw : grad_or_zeros (output_grad bctx 0) w a = gw).
  { unfold grad_or_zeros, gw. rewrite Hw. reflexivity. }
  assert (Hgv : grad_or_zeros (output_grad bctx 1) v a = gv).
  { unfold grad_or_zeros, gv. rewrite Hv. reflexivity. }
  split; [|split; [|split]].
  - unfold bctx. rewrite EighBackward_run. fold bctx. rewrite Hgw, Hgv. reflexivity.
  - unfold bctx. rewrite !EighBackward_run. fold bctx. rewrite Hgw, Hgv. reflexivity.
  - intros Hnone. unfold gw. rewrite Hnone. unfold Zeros. cbn [shape dtype data].
    rewrite size_of_vector. auto.
  - intros Hnone. unfold gv. rewrite Hnone. unfold Zeros. cbn [shape dtype data].
    rewrite size_of_square. auto.
Qed.

(** C1: for an [n]-by-[n] input with retained eigenvalues [w] (length [n])
    and eigenvectors [v] ([n]-by-[n]), the closure of [Eigh] returns
    [v . (F o (vt . grad_v) + diag(grad_w)) . vt] ([vt] the transpose of [v],
    [o] the elementwise product), where [F] is built as
    [F[i][j] = w[j] - w[i]], gets infinity on its diagonal before the
    inversion, and after it has zero on the diagonal and [1 / (w[j] - w[i])]
    elsewhere.  The matrix products are those of the kernel, which is taken to
    compute the 2-D product; [1 / infinity] is zero in the element
    arithmetic. *)
Theorem Eigh_gradient_formula
    (a w v : Array T) (grad_w grad_v : option (Array T)) (N : nat) (s : State T) :
  (forall p q out, DotKernel p q out = Some (matrix_product_data p q)) ->
  srecip sinf = szero ->
  shape a = [Z.of_nat N; Z.of_nat N] ->
  shape w = [Z.of_nat N] -> length (data w) = N ->
  shape v = [Z.of_nat N; Z.of_nat N] -> length (data v) = (N * N)%nat ->
  (forall g, grad_w = Some g -> shape g = [Z.of_nat N] /\ length (data g) = N) ->
  (forall g, grad_v = Some g -> shape g = [Z.of_nat N; Z.of_nat N]) ->
  exists F0 F1 F2 grad_a s',
    EighF_difference w = Ok F0 /\
    (forall i j, (i < N)%nat -> (j < N)%nat ->
       entry (rows_of F0) i j = ssub (nth j (data w) szero) (nth i (data w) szero)) /\
    EighF_masked a F0 = Ok F1 /\
    (forall i j, (i < N)%nat -> (j < N)%nat ->
       entry (rows_of F1) i j
       = if Nat.eqb i j then sinf
         else ssub (nth j (data w) szero) (nth i (data w) szero)) /\
    F2 = Reciprocal F1 /\
    (forall i j, (i < N)%nat -> (j < N)%nat ->
       entry (rows_of F2) i j
       = if Nat.eqb i j then szero
         else srecip (ssub (nth j (data w) szero) (nth i (data w) szero))) /\
    rows_of F2 = F_inverse (data w) /\
    run_backward eigh_closure (eigh_context a w v [grad_w; grad_v]) s = (Ok grad_a, s') /\
    shape grad_a = [Z.of_nat N; Z.of_nat N] /\
    rows_of grad_a
    = eigh_gradient_formula N (data w) (rows_of v)
        (rows_of (grad_or_zeros grad_v v a)) (data (grad_or_zeros grad_w w a)).
Proof.
  intros Hkernel Hinf Ha Hw Hwl Hv Hvl Hgw Hgv.
  destruct (EighF_rows a w N Hinf Hw Hwl)
    as [F0 [F1 [F2 [HF0 [Hr0 [HF1 [Hr1 [HF2 [Hr2 [HF HsF]]]]]]]]]].
  assert (Hgw' : shape (grad_or_zeros grad_w w a) = [Z.of_nat N] /\
                 length (data (grad_or_zeros grad_w w a)) = N).
  { destruct grad_w as [g|]; [apply Hgw; reflexivity|].
    cbn [grad_or_zeros Zeros shape data]. rewrite Hw, repeat_length, size_of_vector. auto. }
  assert (Hgv' : shape (grad_or_zeros grad_v v a) = [Z.of_nat N; Z.of_nat N]).
  { destruct grad_v as [g|]; [apply Hgv; reflexivity|]. exact Hv. }
  destruct Hgw' as [Hgws Hgwl].
  destruct (EighGradient_run a w v _ _ N s Hkernel Hinf Hw Hwl Hv Hvl Hgws Hgwl Hgv')
    as [grad_a [s' [Hrun [Hshape Hrows]]]].
  exists F0, F1, F2, grad_a, s'.
  split; [exact HF0|]. split.
  { intros i j Hi Hj. rewrite Hr0. apply F_difference_entry; lia. }
  split; [exact HF1|]. split.
  { intros i j Hi Hj. rewrite Hr1. apply F_masked_entry; lia. }
  split; [exact HF2|]. split.
  { intros i j Hi Hj. rewrite Hr2. apply F_inverse_entry; lia. }
  split; [exact Hr2|].
  split; [|split; assumption].
  rewrite EighBackward_run. exact Hrun.
Qed.

End EighProperties.

(* ================================================================= *)
(** ** Further properties of the entry points *)

Section Further.
Context {T : Type} `{Scalar T} `{TypeUtil T} `{Backend T} `{GraphEngine T}.

Lemma dot_a_matrix_eq (a : Array T) :
  (1 <= ndim a)%nat -> contracted_left a <> 0 ->
  dot_a_matrix a
  = mkArray [TotalSize (removelast (shape a)); contracted_left a]
      (dtype a) (device a) (data a).
Proof.
  intros Hra Hk. unfold dot_a_matrix. rewrite (quot_left a Hra Hk). reflexivity.
Qed.

Lemma dot_out_shape2_eq (a b : Array T) :
  (1 <= ndim a)%nat -> (1 <= ndim b)%nat ->
  contracted_right b = contracted_left a -> contracted_left a <> 0 ->
  dot_out_shape2 a b = [TotalSize (removelast (shape a)); TotalSize (dot_right_rest b)].
Proof.
  intros Hra Hrb Hagree Hk. unfold dot_out_shape2.
  rewrite (quot_left a Hra Hk), (quot_right a b Hrb Hagree Hk). reflexivity.
Qed.

Lemma dot_modified_b_dtype (b : Array T) : dtype (dot_modified_b b) = dtype b.
Proof. unfold dot_modified_b. destruct (2 <? ndim b)%nat; reflexivity. Qed.

Lemma dot_shape_size (a b : Array T) :
  TotalSize (dot_shape a b)
  = TotalSize (removelast (shape a)) * TotalSize (dot_right_rest b).
Proof. rewrite dot_shape_split. apply TotalSize_app. Qed.

(** X1: on the kernel path [Dot] hands the kernel the elements of [a],
    untouched, as an [m]-by-[k] matrix ([k] the contracted extent, [m] the
    product of the other extents of [a]), a [k]-by-[n] matrix of the dtype of
    [b] (the elements of [b], untouched, when its rank is at most 2) and an
    [m]-by-[n] output; it returns the kernel's elements in the output shape,
    whose size is [m * n], or the kernel's failure. *)
Theorem Dot_kernel_operands (a b : Array T) (out_dtype : option Dtype) (s : State T) :
  wf_shape (shape a) -> wf_shape (shape b) ->
  (1 <= ndim a)%nat -> (1 <= ndim b)%nat ->
  contracted_right b = contracted_left a ->
  contracted_left a <> 0 ->
  let k := contracted_left a in
  let m := TotalSize (removelast (shape a)) in
  let n := TotalSize (dot_right_rest b) in
  let rdt := real_out_dtype a b out_dtype in
  exists b_matrix,
    shape b_matrix = [k; n] /\
    dtype b_matrix = dtype b /\
    ((ndim b <= 2)%nat -> data b_matrix = data b) /\
    TotalSize (dot_shape a b) = m * n /\
    fst (Dot a b out_dtype s)
    = match DotKernel (mkArray [m; k] (dtype a) (device a) (data a)) b_matrix
              (Empty [m; n] rdt (device a)) with
      | Some d => Ok (mkArray (dot_shape a b) rdt (device a) d)
      | None => Throw (ChainerxError "DotKernel")
      end.
Proof.
  intros Ha Hb Hra Hrb Hagree Hk k m n rdt.
  exists (dot_b_matrix a b).
  split; [|split; [|split; [|split]]].
  - unfold dot_b_matrix. cbn [shape]. rewrite (quot_right a b Hrb Hagree Hk). reflexivity.
  - unfold dot_b_matrix. cbn [dtype]. apply dot_modified_b_dtype.
  - intros Hq. unfold dot_b_matrix, dot_modified_b. cbn [data].
    destruct (Nat.ltb_spec 2 (ndim b)); [lia|reflexivity].
  - apply dot_shape_size.
  - rewrite (Dot_run a b out_dtype s Ha Hb Hra Hrb) by (intros _; congruence).
  unfold Dot_reduced.
    destruct (Z.eqb_spec (contracted_right b) (contracted_left a)) as [_|Hne];
      [|contradiction].
    destruct (Z.eqb_spec (contracted_left a) 0) as [Hz|_]; [contradiction|].
    cbn [negb]. rewrite (dot_a_matrix_eq a Hra Hk), (dot_out_shape2_eq a b Hra Hrb Hagree Hk).
    fold k m n rdt. destruct (DotKernel _ _ _); reflexivity.
Qed.

(** X2: when the matrix-product kernel throws, [Dot] throws the kernel's
    error: no op node is attached, the backprop mode is as before the call and
    the one dispatch is on the log, unrecorded. *)
Theorem Dot_kernel_failure (a b : Array T) (out_dtype : option Dtype) (s : State T) :
  wf_shape (shape a) -> wf_shape (shape b) ->
  (1 <= ndim a)%nat -> (1 <= ndim b)%nat ->
  contracted_right b = contracted_left a ->
  contracted_left a <> 0 ->
  (forall x y out : Array T, DotKernel x y out = None) ->
  fst (Dot a b out_dtype s) = Throw (ChainerxError "DotKernel") /\
  graph (snd (Dot a b out_dtype s)) = graph s /\
  backprop_mode (snd (Dot a b out_dtype s)) = backprop_mode s /\
  kernel_log (snd (Dot a b out_dtype s)) = kernel_log s ++ [mkKernelCall kDotKernel false].
Proof.
  intros Ha Hb Hra Hrb Hagree Hk Hfail.
  rewrite (Dot_run a b out_dtype s Ha Hb Hra Hrb) by (intros _; congruence).
  unfold Dot_reduced.
  destruct (Z.eqb_spec (contracted_right b) (contracted_left a)) as [_|Hne];
    [|contradiction].
  destruct (Z.eqb_spec (contracted_left a) 0) as [Hz|_]; [contradiction|].
  cbn [negb]. rewrite Hfail. repeat split.
Qed.

(** X3: when the eigensolver kernel throws on a square matrix, [Eigh] and
    [Eigvalsh] throw the kernel's error: [Eigh] attaches no op node, the
    backprop mode is as before the call and the one dispatch is on the log,
    unrecorded. *)
Theorem Eigh_kernel_failure (a : Array T) (uplo : string) (s : State T) :
  ndim a = 2%nat -> dim a 0 = dim a 1 ->
  (forall compute_v, SyevdKernel a uplo compute_v = None) ->
  Eigh a uplo s
  = (Throw (ChainerxError "SyevdKernel"),
     mkState (backprop_mode s) (kernel_log s ++ [mkKernelCall kSyevdKernel false]) (graph s)) /\
  Eigvalsh a uplo s
  = (Throw (ChainerxError "SyevdKernel"),
     mkState (backprop_mode s) (kernel_log s ++ [mkKernelCall kSyevdKernel false]) (graph s)).
Proof.
  intros Hr Hsq Hfail. rewrite Eigh_run, Eigvalsh_run.
  unfold Eigh_reduced, Eigvalsh_reduced.
  rewrite Hr, Hsq, Z.eqb_refl, !Hfail. split; reflexivity.
Qed.

(** X4: in recording mode, on the kernel path, [Dot] defines a target for
    exactly the reduced operands that are differentiable, and retains an
    operand only for the target of the other one: no op node when neither is
    differentiable, otherwise one node "dot" whose targets are 0 (if
    [a_matrix] is differentiable) and 1 (if [b_matrix] is) and whose retained
    inputs are 1 (for target 0) and 0 (for target 1). *)
Theorem Dot_targets_follow_differentiability
    (a b : Array T) (out_dtype : option Dtype) (s : State T) (d : list T) :
  wf_shape (shape a) -> wf_shape (shape b) ->
  (1 <= ndim a)%nat -> (1 <= ndim b)%nat ->
  contracted_right b = contracted_left a ->
  contracted_left a <> 0 ->
  DotKernel (dot_a_matrix a) (dot_b_matrix a b)
    (Empty (dot_out_shape2 a b) (real_out_dtype a b out_dtype) (device a)) = Some d ->
  backprop_mode s = true ->
  let ta := IsBackpropRequired (dot_a_matrix a) in
  let tb := IsBackpropRequired (dot_b_matrix a b) in
  exists nodes,
    graph (snd (Dot a b out_dtype s)) = graph s ++ nodes /\
    length nodes = (if (ta || tb)%bool then 1 else 0)%nat /\
    Forall (fun node =>
              op_name node = "dot"%string /\
              map def_input (op_targets node)
              = (if ta then [0%nat] else []) ++ (if tb then [1%nat] else []) /\
              op_retained_inputs node
              = (if ta then [1%nat] else []) ++ (if tb then [0%nat] else []) /\
              op_retained_outputs node = [])
           nodes.
Proof.
  intros Ha Hb Hra Hrb Hagree Hk Hd Hmode ta tb.
  rewrite (Dot_run a b out_dtype s Ha Hb Hra Hrb) by (intros _; congruence).
  unfold Dot_reduced.
  destruct (Z.eqb_spec (contracted_right b) (contracted_left a)) as [_|Hne];
    [|contradiction].
  destruct (Z.eqb_spec (contracted_left a) 0) as [Hz|_]; [contradiction|].
  cbn [negb]. rewrite Hd. cbn [snd after_kernel graph].
  eexists. split; [reflexivity|].
  unfold dot_nodes. rewrite Hmode. cbn [andb]. fold ta tb.
  destruct ta, tb; cbn; split; try reflexivity; repeat constructor.
Qed.

(* ----------------------------------------------------------------- *)
(** *** Calls made while recording is off *)

Lemma silent_pure {A} (r : Result A) : silent_when_off (@lift T A r).
Proof. intros s Hs. split; [reflexivity|exact Hs]. Qed.

Lemma silent_bind {A B} (c : M T A) (f : A -> M T B) :
  silent_when_off c -> (forall x, silent_when_off (f x)) -> silent_when_off (bind c f).
Proof.
  intros Hc Hf s Hs. unfold bind. destruct (Hc s Hs) as [Hg Hm].
  destruct (c s) as [[x|e] s1]; cbn [snd] in *.
  - destruct (Hf x s1 Hm) as [Hg' Hm']. split; congruence.
  - split; assumption.
Qed.

Lemma silent_scope_dot (x y out : Array T) :
  silent_when_off (NoBackpropModeScope (CallDotKernel x y out)).
Proof.
  intros s Hs. unfold NoBackpropModeScope, CallDotKernel, log_kernel.
  destruct (DotKernel x y out); cbn [snd graph backprop_mode]; split; auto.
Qed.

Lemma silent_DotRegister (a b a_matrix b_matrix out_matrix : Array T) :
  silent_when_off (DotRegister a b a_matrix b_matrix out_matrix).
Proof.
  intros s Hs. rewrite DotRegister_run. cbn [snd graph backprop_mode].
  rewrite Hs. cbn [andb orb]. rewrite app_nil_r. auto.
Qed.

Lemma silent_Dot (a b : Array T) (out_dtype : option Dtype) :
  silent_when_off (Dot a b out_dtype).
Proof.
  rewrite Dot_unfold. destruct (_ || _)%bool; [apply silent_pure|].
  apply silent_bind.
  - unfold DotOperands. destruct (2 <? ndim b)%nat; [|apply (silent_pure (Ok _))].
    apply silent_bind; [apply silent_pure|intros; apply (silent_pure (Ok _))].
  - intros mb. unfold DotProduct.
    destruct (negb _); [apply (silent_pure (Throw _))|].
    destruct (_ =? 0); [apply (silent_pure (Ok _))|].
    apply silent_bind; [apply silent_pure|intros a_matrix].
    apply silent_bind; [apply silent_pure|intros b_matrix].
    apply silent_bind; [apply silent_scope_dot|intros out_matrix].
    apply silent_bind; [apply silent_DotRegister|intros _]. apply silent_pure.
Qed.

Lemma silent_Eigh (a : Array T) (uplo : string) : silent_when_off (Eigh a uplo).
Proof.
  intros s Hs. rewrite Eigh_run. unfold Eigh_reduced.
  destruct (negb _); [auto|]. destruct (negb _); [auto|].
  destruct (SyevdKernel a uplo true); cbn [snd after_kernel kernel_logged graph backprop_mode];
    [|auto].
  unfold eigh_nodes. rewrite Hs. cbn [andb]. rewrite app_nil_r. auto.
Qed.

Lemma silent_Eigvalsh (a : Array T) (uplo : string) : silent_when_off (Eigvalsh a uplo).
Proof.
  intros s Hs. rewrite Eigvalsh_run. unfold Eigvalsh_reduced.
  destruct (negb _); [auto|]. destruct (negb _); [auto|].
  destruct (SyevdKernel a uplo false); cbn [snd kernel_logged graph backprop_mode]; auto.
Qed.

Lemma silent_GetRetainedInput (bctx : BackwardContext T) (tok : RetainedInputToken) :
  silent_when_off (GetRetainedInput bctx tok).
Proof.
  destruct tok as [i]. unfold GetRetainedInput.
  destruct (nth_error _ i); [apply (silent_pure (Ok _))|apply (silent_pure (Throw _))].
Qed.

Lemma silent_GetRetainedOutput (bctx : BackwardContext T) (tok : RetainedOutputToken) :
  silent_when_off (GetRetainedOutput bctx tok).
Proof.
  destruct tok as [i]. unfold GetRetainedOutput.
  destruct (nth_error _ i); [apply (silent_pure (Ok _))|apply (silent_pure (Throw _))].
Qed.

Lemma silent_the_output_grad (bctx : BackwardContext T) :
  silent_when_off (the_output_grad bctx).
Proof.
  unfold the_output_grad.
  destruct (output_grad bctx 0); [apply (silent_pure (Ok _))|apply (silent_pure (Throw _))].
Qed.

Lemma silent_EighGradient (a w v gw gv : Array T) :
  silent_when_off (EighGradient a w v gw gv).
Proof.
  unfold EighGradient.
  apply silent_bind; [apply silent_pure|intros F].
  apply silent_bind; [apply silent_Dot|intros vt_gv].
  apply silent_bind; [apply silent_pure|intros F_vt_gv].
  apply silent_bind; [apply silent_pure|intros diag_gw].
  apply silent_bind; [apply silent_pure|intros inner].
  apply silent_bind; [apply silent_Dot|intros v_inner].
  apply silent_Dot.
Qed.

Lemma silent_run_backward (fn : BackwardFn) (bctx : BackwardContext T) :
  silent_when_off (run_backward fn bctx).
Proof.
  destruct fn as [tok dt|tok dt|a_tok w_tok v_tok]; unfold run_backward.
  - apply silent_bind; [apply silent_GetRetainedInput|intros b_matrix].
    apply silent_bind; [apply silent_the_output_grad|intros gout]. apply silent_Dot.
  - apply silent_bind; [apply silent_GetRetainedInput|intros a_matrix].
    apply silent_bind; [apply silent_the_output_grad|intros gout]. apply silent_Dot.
  - apply silent_bind; [apply silent_GetRetainedInput|intros a].
    apply silent_bind; [apply silent_GetRetainedOutput|intros w].
    apply silent_bind; [apply silent_GetRetainedOutput|intros v].
    apply silent_EighGradient.
Qed.

(** X5: called while recording is off, [Dot], [Eigh], [Eigvalsh] and the
    gradient closures attach no op node and leave recording off, whatever the
    arguments and the outcome: a backward pass run in a no-recording scope
    builds no graph of its own. *)
Theorem nothing_attached_while_recording_is_off
    (a b : Array T) (out_dtype : option Dtype) (uplo : string)
    (fn : BackwardFn) (bctx : BackwardContext T) :
  silent_when_off (Dot a b out_dtype) /\
  silent_when_off (Eigh a uplo) /\
  silent_when_off (Eigvalsh a uplo) /\
  silent_when_off (run_backward fn bctx).
Proof.
  split; [apply silent_Dot|]. split; [apply silent_Eigh|].
  split; [apply silent_Eigvalsh|apply silent_run_backward].
Qed.

(* ----------------------------------------------------------------- *)
(** *** The closures and the kernels *)

Lemma unrecorded_GetRetainedInput (bctx : BackwardContext T) (tok : RetainedInputToken) :
  kernels_unrecorded (GetRetainedInput bctx tok).
Proof.
  destruct tok as [i]. unfold GetRetainedInput.
  destruct (nth_error _ i); [apply unrecorded_ret|apply unrecorded_throw].
Qed.

Lemma unrecorded_GetRetainedOutput (bctx : BackwardContext T) (tok : RetainedOutputToken) :
  kernels_unrecorded (GetRetainedOutput bctx tok).
Proof.
  destruct tok as [i]. unfold GetRetainedOutput.
  destruct (nth_error _ i); [apply unrecorded_ret|apply unrecorded_throw].
Qed.

Lemma unrecorded_the_output_grad (bctx : BackwardContext T) :
  kernels_unrecorded (the_output_grad bctx).
Proof.
  unfold the_output_grad.
  destruct (output_grad bctx 0); [apply unrecorded_ret|apply unrecorded_throw].
Qed.

Lemma unrecorded_EighGradient (a w v gw gv : Array T) :
  kernels_unrecorded (EighGradient a w v gw gv).
Proof.
  unfold EighGradient.
  apply unrecorded_bind; [apply unrecorded_pure|intros F].
  apply unrecorded_bind; [apply unrecorded_Dot|intros vt_gv].
  apply unrecorded_bind; [apply unrecorded_pure|intros F_vt_gv].
  apply unrecorded_bind; [apply unrecorded_pure|intros diag_gw].
  apply unrecorded_bind; [apply unrecorded_pure|intros inner].
  apply unrecorded_bind; [apply unrecorded_Dot|intros v_inner].
  apply unrecorded_Dot.
Qed.

(** X6: the gradient closures of [Dot] and [Eigh] dispatch their kernels
    with recording suspended too, and leave the backprop mode as they found
    it, whether they return or throw. *)
Theorem closures_run_kernels_unrecorded (fn : BackwardFn) (bctx : BackwardContext T) :
  kernels_unrecorded (run_backward fn bctx).
Proof.
  destruct fn as [tok dt|tok dt|a_tok w_tok v_tok]; unfold run_backward.
  - apply unrecorded_bind; [apply unrecorded_GetRetainedInput|intros b_matrix].
    apply unrecorded_bind; [apply unrecorded_the_output_grad|intros gout].
    apply unrecorded_Dot.
  - apply unrecorded_bind; [apply unrecorded_GetRetainedInput|intros a_matrix].
    apply unrecorded_bind; [apply unrecorded_the_output_grad|intros gout].
    apply unrecorded_Dot.
  - apply unrecorded_bind; [apply unrecorded_GetRetainedInput|intros a].
    apply unrecorded_bind; [apply unrecorded_GetRetainedOutput|intros w].
    apply unrecorded_bind; [apply unrecorded_GetRetainedOutput|intros v].
    apply unrecorded_EighGradient.
Qed.

(** X7: on a square matrix on which the kernel returns [(w, v)], [Eigh]
    returns exactly that pair; it attaches an op node only when recording is on
    and the input is differentiable, and then one node "eigh" over the input and
    both outputs with the single target 0, whose closure retains input 0 and
    outputs 0 and 1. *)
Theorem Eigh_attaches_one_target (a w v : Array T) (uplo : string) (s : State T) :
  ndim a = 2%nat -> dim a 0 = dim a 1 ->
  SyevdKernel a uplo true = Some (w, v) ->
  fst (Eigh a uplo s) = Ok (w, v) /\
  ((backprop_mode s && IsBackpropRequired a)%bool = false ->
   graph (snd (Eigh a uplo s)) = graph s) /\
  ((backprop_mode s && IsBackpropRequired a)%bool = true ->
   graph (snd (Eigh a uplo s))
   = graph s ++ [mkOpNode "eigh" [a] [w; v] [0%nat] [0%nat; 1%nat]
                   [mkTargetDef 0 eigh_closure]]).
Proof.
  intros Hr Hsq Hk. rewrite Eigh_run. unfold Eigh_reduced.
  rewrite Hr, Hsq, Z.eqb_refl, Hk. cbn [Nat.eqb negb fst snd after_kernel graph].
  unfold eigh_nodes. split; [reflexivity|].
  split; intros Hd; rewrite Hd; [apply app_nil_r|reflexivity].
Qed.

(* ----------------------------------------------------------------- *)
(** *** The product of two matrices and its gradients *)

(** [Dot] of an [M]-by-[K] and a [K]-by-[N] matrix, for any [out_dtype]. *)
Lemma Dot_matrix_any (x y : Array T) (M K N : nat) (out_dtype : option Dtype) (s : State T) :
  (forall p q out, DotKernel p q out = Some (matrix_product_data p q)) ->
  shape x = [Z.of_nat M; Z.of_nat K] -> shape y = [Z.of_nat K; Z.of_nat N] ->
  exists r s',
    Dot x y out_dtype s = (Ok r, s') /\
    shape r = [Z.of_nat M; Z.of_nat N] /\
    dtype r = real_out_dtype x y out_dtype /\
    rows_of r = mat_mul N (rows_of x) (rows_of y) /\
    (K = 0%nat -> s' = s /\ rows_of r = repeat (repeat szero N) M) /\
    (K <> 0%nat ->
     kernel_log s' = kernel_log s ++ [mkKernelCall kDotKernel false]).
Proof.
  intros Hkernel Hx Hy.
  assert (Hwx : wf_shape (shape x)) by (rewrite Hx; apply wf_shape2; lia).
  assert (Hwy : wf_shape (shape y)) by (rewrite Hy; apply wf_shape2; lia).
  assert (Hrx : ndim x = 2%nat) by (unfold ndim; rewrite Hx; reflexivity).
  assert (Hry : ndim y = 2%nat) by (unfold ndim; rewrite Hy; reflexivity).
  assert (Hcl : contracted_left x = Z.of_nat K)
    by (unfold contracted_left; rewrite Hx; reflexivity).
  assert (Hcr : contracted_right y = Z.of_nat K)
    by (unfold contracted_right, dim; rewrite Hry, Hy; reflexivity).
  assert (Hds : dot_shape x y = [Z.of_nat M; Z.of_nat N])
    by (unfold dot_shape; rewrite Hry, Hx, Hy; reflexivity).
  assert (Hgx : GetTotalSize x = Z.of_nat M * Z.of_nat K)
    by (unfold GetTotalSize, TotalSize; rewrite Hx; simpl; ring).
  assert (Hgy : GetTotalSize y = Z.of_nat N * Z.of_nat K)
    by (unfold GetTotalSize, TotalSize; rewrite Hy; simpl; ring).
  assert (Hmb : dot_modified_b y = y)
    by (unfold dot_modified_b; rewrite Hry; reflexivity).
  rewrite (Dot_run x y out_dtype s Hwx Hwy) by lia. unfold Dot_reduced.
  rewrite Hcl, Hcr, Z.eqb_refl, Hds. cbn [negb].
  rewrite (rows_of_shape x _ _ Hx), (rows_of_shape y _ _ Hy), !Nat2Z.id.
  destruct (Z.eqb_spec (Z.of_nat K) 0) as [HK|HK].
  - assert (K = 0%nat) by lia. subst K.
    assert (Hzero : rows_of (Zeros [Z.of_nat M; Z.of_nat N]
                               (real_out_dtype x y out_dtype) (device x))
                    = repeat (repeat szero N) M).
    { unfold Zeros. rewrite rows_of_mk, !Nat2Z.id.
      replace (size_of [Z.of_nat M; Z.of_nat N]) with (M * N)%nat
        by (unfold size_of, TotalSize; simpl; lia).
      rewrite <- concat_repeat_repeat.
      apply chunks_concat_count; [apply repeat_length|].
      apply Forall_forall. intros r Hr. apply repeat_spec in Hr. subst r.
      apply repeat_length. }
    eexists. eexists. split; [reflexivity|]. split; [reflexivity|].
    split; [reflexivity|]. rewrite Hzero. split.
    + rewrite chunks_empty_rows. cbn [chunks]. symmetry. apply mat_mul_empty.
    + split; [auto|]. intros Hne. contradiction.
  - rewrite Hkernel.
    eexists. eexists. split; [reflexivity|]. split; [reflexivity|].
    split; [reflexivity|]. split.
    + rewrite rows_of_mk, !Nat2Z.id. unfold matrix_product_data.
      unfold dot_b_matrix, dot_a_matrix. rewrite Hmb, Hcl, Hgx, Hgy.
      rewrite !Z.quot_mul by assumption.
      rewrite !rows_of_mk. unfold dim. cbn [shape nth]. rewrite !Nat2Z.id.
      destruct (mat_mul_rows N (chunks K M (data x)) (chunks N K (data y))) as [Hl Hf].
      apply chunks_concat_count; [|assumption].
      rewrite Hl. apply length_chunks.
    + split; [intros HK0; lia|]. intros _. reflexivity.
Qed.

(** X8: for a kernel that computes the 2-D product, [Dot] of an [M]-by-[K]
    and a [K]-by-[N] matrix is their matrix product, of the dtype [Dot] was
    asked for.  The zero-contraction shortcut agrees with it: when [K] is 0
    the result is the [M]-by-[N] zero matrix, which is the product over an
    empty axis, and the state is untouched; otherwise the kernel is dispatched
    once. *)
Theorem Dot_of_matrices_is_their_product
    (x y : Array T) (M K N : nat) (out_dtype : option Dtype) (s : State T) :
  (forall p q out, DotKernel p q out = Some (matrix_product_data p q)) ->
  shape x = [Z.of_nat M; Z.of_nat K] -> shape y = [Z.of_nat K; Z.of_nat N] ->
  exists r s',
    Dot x y out_dtype s = (Ok r, s') /\
    shape r = [Z.of_nat M; Z.of_nat N] /\
    dtype r = real_out_dtype x y out_dtype /\
    rows_of r = mat_mul N (rows_of x) (rows_of y) /\
    (K = 0%nat -> s' = s /\ rows_of r = repeat (repeat szero N) M) /\
    (K <> 0%nat ->
     kernel_log s' = kernel_log s ++ [mkKernelCall kDotKernel false]).
Proof. intros Hkernel Hx Hy. apply Dot_matrix_any; assumption. Qed.

(** X9: for matrices [a] ([M]-by-[K]) and [b] ([K]-by-[N]) and an output
    gradient [gout] ([M]-by-[N]), the closure of target 0 returns
    [gout . bt], an [M]-by-[K] matrix of the dtype it captured, and the
    closure of target 1 returns [at . gout], a [K]-by-[N] matrix of the dtype
    it captured ([at], [bt] the transposes): each gradient has the shape of the
    operand it belongs to. *)
Theorem Dot_gradients_are_matrix_products
    (a b gout : Array T) (M K N : nat) (a_dtype b_dtype : Dtype) (s : State T) :
  (forall p q out, DotKernel p q out = Some (matrix_product_data p q)) ->
  shape a = [Z.of_nat M; Z.of_nat K] -> length (data a) = (M * K)%nat ->
  shape b = [Z.of_nat K; Z.of_nat N] -> length (data b) = (K * N)%nat ->
  shape gout = [Z.of_nat M; Z.of_nat N] ->
  let bctx := mkBackwardContext [a; b] [] [Some gout] in
  exists grad_a sa grad_b sb,
    run_backward (DotGradA (InputToken 1) a_dtype) bctx s = (Ok grad_a, sa) /\
    shape grad_a = shape a /\ dtype grad_a = a_dtype /\
    rows_of grad_a = mat_mul K (rows_of gout) (mat_transpose N (rows_of b)) /\
    run_backward (DotGradB (InputToken 0) b_dtype) bctx s = (Ok grad_b, sb) /\
    shape grad_b = shape b /\ dtype grad_b = b_dtype /\
    rows_of grad_b = mat_mul N (mat_transpose K (rows_of a)) (rows_of gout).
Proof.
  intros Hkernel Ha Hal Hb Hbl Hg bctx.
  pose proof (Transpose_shape_2d a _ _ Ha) as Hat.
  pose proof (Transpose_shape_2d b _ _ Hb) as Hbt.
  destruct (Dot_matrix_any gout (Transpose b) M N K (Some a_dtype) s Hkernel Hg Hbt)
    as [ga [sa [Hra [Hsa [Hda [Hrowsa _]]]]]].
  destruct (Dot_matrix_any (Transpose a) gout K M N (Some b_dtype) s Hkernel Hat Hg)
    as [gb [sb [Hrb [Hsb [Hdb [Hrowsb _]]]]]].
  exists ga, sa, gb, sb.
  split; [exact Hra|]. split; [congruence|]. split; [exact Hda|]. split.
  { rewrite Hrowsa, (Transpose_rows b K N Hb Hbl). reflexivity. }
  split; [exact Hrb|]. split; [congruence|]. split; [exact Hdb|].
  rewrite Hrowsb, (Transpose_rows a M K Ha Hal). reflexivity.
Qed.

(* ----------------------------------------------------------------- *)
(** *** Gradients of operands of any rank *)

(** [Dot] of two matrices of matching extents returns a matrix, whatever the
    kernel computes. *)
Lemma Dot_2d_shape (x y : Array T) (m c n : Z) (out_dtype : option Dtype) (s : State T) :
  (forall p q out : Array T, DotKernel p q out <> None) ->
  0 <= m -> 0 <= c -> 0 <= n ->
  shape x = [m; c] -> shape y = [c; n] ->
  exists r s',
    Dot x y out_dtype s = (Ok r, s') /\
    shape r = [m; n] /\ dtype r = real_out_dtype x y out_dtype.
Proof.
  intros Hkernel Hm Hc Hn Hx Hy.
  assert (Hwx : wf_shape (shape x)) by (rewrite Hx; apply wf_shape2; lia).
  assert (Hwy : wf_shape (shape y)) by (rewrite Hy; apply wf_shape2; lia).
  assert (Hrx : ndim x = 2%nat) by (unfold ndim; rewrite Hx; reflexivity).
  assert (Hry : ndim y = 2%nat) by (unfold ndim; rewrite Hy; reflexivity).
  assert (Hcl : contracted_left x = c)
    by (unfold contracted_left; rewrite Hx; reflexivity).
  assert (Hcr : contracted_right y = c)
    by (unfold contracted_right, dim; rewrite Hry, Hy; reflexivity).
  assert (Hds : dot_shape x y = [m; n])
    by (unfold dot_shape; rewrite Hry, Hx, Hy; reflexivity).
  rewrite (Dot_run x y out_dtype s Hwx Hwy) by lia. unfold Dot_reduced.
  rewrite Hcl, Hcr, Z.eqb_refl, Hds. cbn [negb].
  destruct (c =? 0).
  - eexists. eexists. repeat split.
  - destruct (DotKernel _ _ _) as [d|] eqn:Hd; [|exfalso; exact (Hkernel _ _ _ Hd)].
    eexists. eexists. repeat split.
Qed.

(** X10: for operands of any rank on the kernel path, the closures of the
    "dot" node, run on an output gradient of the shape of [out_matrix], return:
    each gradient has the shape of the reduced operand it belongs to
    ([m]-by-[k] for [a_matrix], [k]-by-[n] for [b_matrix]) and the dtype of
    the original operand, also when [m] or [n] is zero. *)
Theorem Dot_gradients_have_operand_shapes
    (a b gout : Array T) (s : State T) :
  wf_shape (shape a) -> wf_shape (shape b) ->
  (1 <= ndim a)%nat -> (1 <= ndim b)%nat ->
  contracted_right b = contracted_left a ->
  contracted_left a <> 0 ->
  (forall p q out : Array T, DotKernel p q out <> None) ->
  shape gout = dot_out_shape2 a b ->
  let bctx := mkBackwardContext [dot_a_matrix a; dot_b_matrix a b] [] [Some gout] in
  exists grad_a sa grad_b sb,
    run_backward (DotGradA (InputToken 1) (dtype a)) bctx s = (Ok grad_a, sa) /\
    shape grad_a = shape (dot_a_matrix a) /\
    shape grad_a = [TotalSize (removelast (shape a)); contracted_left a] /\
    dtype grad_a = dtype a /\
    run_backward (DotGradB (InputToken 0) (dtype b)) bctx s = (Ok grad_b, sb) /\
    shape grad_b = shape (dot_b_matrix a b) /\
    shape grad_b = [contracted_left a; TotalSize (dot_right_rest b)] /\
    dtype grad_b = dtype b.
Proof.
  intros Ha Hb Hra Hrb Hagree Hk Hkernel Hg bctx.
  pose proof (contracted_left_nonneg a Ha) as Hknn.
  pose proof (TotalSize_nonneg _ (wf_left_rest a Ha)) as Hmnn.
  pose proof (TotalSize_nonneg _ (wf_right_rest b Hb)) as Hnnn.
  rewrite (dot_out_shape2_eq a b Hra Hrb Hagree Hk) in Hg.
  assert (Hsa : shape (dot_a_matrix a)
                = [TotalSize (removelast (shape a)); contracted_left a]).
  { rewrite (dot_a_matrix_eq a Hra Hk). reflexivity. }
  assert (Hsb : shape (dot_b_matrix a b)
                = [contracted_left a; TotalSize (dot_right_rest b)]).
  { unfold dot_b_matrix. cbn [shape]. rewrite (quot_right a b Hrb Hagree Hk). reflexivity. }
  destruct (Dot_2d_shape gout (Transpose (dot_b_matrix a b)) _ _ _ (Some (dtype a)) s
              Hkernel Hmnn Hnnn Hknn Hg (Transpose_shape_2d _ _ _ Hsb))
    as [ga [sa [Hrun_a [Hshape_a Hdtype_a]]]].
  destruct (Dot_2d_shape (Transpose (dot_a_matrix a)) gout _ _ _ (Some (dtype b)) s
              Hkernel Hknn Hmnn Hnnn (Transpose_shape_2d _ _ _ Hsa) Hg)
    as [gb [sb [Hrun_b [Hshape_b Hdtype_b]]]].
  exists ga, sa, gb, sb.
  split; [exact Hrun_a|]. split; [congruence|]. split; [exact Hshape_a|].
  split; [exact Hdtype_a|].
  split; [exact Hrun_b|]. split; [congruence|]. split; [exact Hshape_b|exact Hdtype_b].
Qed.

(* ----------------------------------------------------------------- *)
(** *** Well-formed results *)

Lemma wf_scalar_data {E} (x : Array E) :
  wf x -> ndim x = 0%nat -> exists e, data x = [e].
Proof.
  intros [_ Hl] Hr. apply length_zero_iff_nil in Hr. rewrite Hr in Hl.
  change (size_of []) with 1%nat in Hl.
  destruct (data x) as [|e [|e' l]]; try discriminate. eauto.
Qed.

(** X11: [Dot] keeps arrays well-formed: when both operands have non-negative
    extents and as many elements as their shapes say, and the kernel fills the
    output it is given, every array [Dot] returns has non-negative extents
    and as many elements as its shape says, on the scalar path, the
    zero-contraction path and the kernel path alike. *)
Theorem Dot_returns_well_formed
    (a b r : Array T) (out_dtype : option Dtype) (s s' : State T) :
  wf a -> wf b ->
  (forall d,
     DotKernel (dot_a_matrix a) (dot_b_matrix a b)
       (Empty (dot_out_shape2 a b) (real_out_dtype a b out_dtype) (device a)) = Some d ->
     length d = size_of (dot_out_shape2 a b)) ->
  Dot a b out_dtype s = (Ok r, s') ->
  wf r.
Proof.
  intros Hwa Hwb Hlen.
  destruct (Nat.eq_dec (ndim a) 0) as [Hra|Hra];
    [|destruct (Nat.eq_dec (ndim b) 0) as [Hrb|Hrb]].
  - rewrite (Dot_scalar_run a b out_dtype s) by auto.
    destruct (wf_scalar_data a Hwa Hra) as [x Hx].
    apply length_zero_iff_nil in Hra.
    rewrite (Multiply_scalar_left a b x Hra Hx Hwb). intros E. inversion E. subst.
    destruct Hwb as [Hsb Hlb]. split; [exact Hsb|].
    cbn [shape data]. rewrite length_map. exact Hlb.
  - rewrite (Dot_scalar_run a b out_dtype s) by auto.
    destruct (wf_scalar_data b Hwb Hrb) as [y Hy].
    apply length_zero_iff_nil in Hrb.
    rewrite (Multiply_scalar_right a b y Hrb Hy Hwa). intros E. inversion E. subst.
    destruct Hwa as [Hsa Hla]. split; [exact Hsa|].
    cbn [shape data]. rewrite length_map. exact Hla.
  - destruct Hwa as [Hsa _]. destruct Hwb as [Hsb _].
    assert (H1a : (1 <= ndim a)%nat) by lia.
    assert (H1b : (1 <= ndim b)%nat) by lia.
    assert (Hwf : wf_shape (dot_shape a b)).
    { rewrite dot_shape_split. apply wf_shape_app.
      split; [apply wf_left_rest|apply wf_right_rest]; assumption. }
    destruct (divisor_cases b) as [Hdiv|[Hq Hzero]];
      [|rewrite (Dot_divides_by_zero a b out_dtype s H1a Hq Hzero); discriminate].
    rewrite (Dot_run a b out_dtype s Hsa Hsb H1a H1b Hdiv). unfold Dot_reduced.
    destruct (Z.eqb_spec (contracted_right b) (contracted_left a)) as [Hagree|Hne];
      [|discriminate].
    cbn [negb].
    destruct (Z.eqb_spec (contracted_left a) 0) as [Hz|Hk].
    + intros E. inversion E. subst. split; [exact Hwf|]. apply repeat_length.
    + destruct (DotKernel _ _ _) as [d|] eqn:Hd; [|discriminate].
      intros E. inversion E. subst. split; [exact Hwf|].
      cbn [shape data]. rewrite (Hlen d eq_refl).
      rewrite (dot_out_shape2_eq a b H1a H1b Hagree Hk).
      unfold size_of. rewrite dot_shape_size. f_equal.
      unfold TotalSize at 1. simpl. ring.
Qed.

(* ----------------------------------------------------------------- *)
(** *** The closure of [Eigh] on an empty matrix *)

Lemma Dot_empty_contraction (x y : Array T) (m n : Z) (out_dtype : option Dtype)
    (s : State T) :
  0 <= m -> 0 <= n -> shape x = [m; 0] -> shape y = [0; n] ->
  Dot x y out_dtype s
  = (Ok (Zeros [m; n] (real_out_dtype x y out_dtype) (device x)), s).
Proof.
  intros Hm Hn Hx Hy.
  assert (Hwx : wf_shape (shape x)) by (rewrite Hx; apply wf_shape2; lia).
  assert (Hwy : wf_shape (shape y)) by (rewrite Hy; apply wf_shape2; lia).
  assert (Hry : ndim y = 2%nat) by (unfold ndim; rewrite Hy; reflexivity).
  rewrite (Dot_run x y out_dtype s Hwx Hwy)
    by (unfold ndim; rewrite ?Hx, ?Hy; simpl; lia).
  unfold Dot_reduced, contracted_left, contracted_right, dot_shape, dim.
  rewrite Hry, Hx, Hy. reflexivity.
Qed.

(** X12: on an empty (0-by-0) eigenproblem the closure of [Eigh] returns the
    empty 0-by-0 gradient and leaves the state as it was: each of the three
    [Dot] calls of the formula takes the zero-contraction shortcut, so that
    the product kernel is never dispatched and [Dot] attaches no op node,
    whether the output gradients are present or absent. *)
Theorem Eigh_closure_on_empty_matrix
    (a w v : Array T) (grad_w grad_v : option (Array T)) (s : State T) :
  shape w = [0] -> data w = [] -> shape v = [0; 0] ->
  (forall g, grad_w = Some g -> shape g = [0]) ->
  (forall g, grad_v = Some g -> shape g = [0; 0]) ->
  exists grad_a,
    run_backward eigh_closure (eigh_context a w v [grad_w; grad_v]) s = (Ok grad_a, s) /\
    shape grad_a = [0; 0] /\ data grad_a = [].
Proof.
  intros Hw Hdw Hv Hgw Hgv. rewrite EighBackward_run.
  cbn [output_grad eigh_context bctx_output_grads nth_error].
  set (gw := grad_or_zeros grad_w w a). set (gv := grad_or_zeros grad_v v a).
  assert (Hsgw : shape gw = [0]).
  { subst gw. destruct grad_w as [g|]; [apply Hgw; reflexivity|exact Hw]. }
  assert (Hsgv : shape gv = [0; 0]).
  { subst gv. destruct grad_v as [g|]; [apply Hgv; reflexivity|exact Hv]. }
  destruct (EighF_difference_rows w 0 Hw) as [F0 [HF0 [Hs0 Hr0]]];
    [rewrite Hdw; reflexivity|].
  assert (Hs0' : shape F0 = [Z.of_nat (length (data w)); Z.of_nat (length (data w))])
    by (rewrite Hdw; exact Hs0).
  destruct (EighF_masked_rows a F0 (data w) Hs0' Hr0) as [F1 [HF1 [Hs1 _]]].
  rewrite Hdw in Hs1. change (Z.of_nat (length (@nil T))) with 0 in Hs1.
  pose proof (Transpose_shape_2d v _ _ Hv) as Hvt.
  unfold EighGradient, bind, lift, EighF. rewrite HF0. cbn [rbind]. rewrite HF1.
  cbn [rbind].
  rewrite (Dot_empty_contraction (Transpose v) gv 0 0 None s) by (assumption || lia).
  unfold Multiply. rewrite binary_same_shape by (cbn [shape Reciprocal Zeros]; exact Hs1).
  unfold Diag. rewrite Hsgw.
  unfold Add. rewrite binary_same_shape by (cbn [shape Reciprocal]; exact Hs1).
  rewrite (Dot_empty_contraction v _ 0 0 None s);
    [|lia|lia|exact Hv|cbn [shape Reciprocal]; exact Hs1].
  rewrite (Dot_empty_contraction _ (Transpose v) 0 0 None s);
    [|lia|lia|reflexivity|exact Hvt].
  eexists. split; [reflexivity|]. split; reflexivity.
Qed.

(* ----------------------------------------------------------------- *)
(** *** A right operand of rank above 2 *)

Lemma b_transpose_axes_eq (n : nat) :
  (2 <= n)%nat -> b_transpose_axes n = seq 0 (n - 2) ++ [n - 1; n - 2]%nat.
Proof.
  intros Hn. unfold b_transpose_axes.
  replace n with ((n - 2) + 2)%nat at 2 4 by lia.
  rewrite seq_app.
  replace (n - 2)%nat with (length (seq 0 (n - 2))) at 1 4 by apply length_seq.
  rewrite firstn_app, skipn_app, firstn_all, skipn_all, Nat.sub_diag.
  cbn [firstn skipn app seq rev]. rewrite app_nil_r.
  do 2 f_equal. lia.
Qed.

(** X13: for a right operand of any rank [n > 2], the axes that [Dot] hands
    to [Transpose] are [0 .. n-3] followed by [n-1] and [n-2]: a permutation
    of the [n] axes.  The transposed operand has the shape of [b] with its
    last two extents swapped, so that the extent compared with the last one
    of [a] is the second-to-last one of [b]. *)
Theorem Dot_transposes_the_last_two_axes (b : Array T) :
  (2 < ndim b)%nat ->
  let n := ndim b in
  let axes := b_transpose_axes n in
  dot_modified_b b
  = (let tb := TransposeAxes b axes in
     Transpose (mkArray [Z.quot (GetTotalSize tb) (back (shape tb)); back (shape tb)]
                  (dtype tb) (device tb) (data tb))) /\
  axes = seq 0 (n - 2) ++ [n - 1; n - 2]%nat /\
  length axes = n /\ NoDup axes /\ Forall (fun ax => (ax < n)%nat) axes /\
  exists p y x,
    shape b = p ++ [y; x] /\
    shape (TransposeAxes b axes) = p ++ [x; y] /\
    back (shape (TransposeAxes b axes)) = contracted_right b.
Proof.
  intros Hn n axes.
  assert (Heq : axes = seq 0 (n - 2) ++ [n - 1; n - 2]%nat)
    by (apply b_transpose_axes_eq; lia).
  split.
  { unfold dot_modified_b. destruct (Nat.ltb_spec 2 (ndim b)); [reflexivity|lia]. }
  split; [exact Heq|].
  split; [rewrite Heq, length_app, length_seq; simpl; lia|].
  split.
  { rewrite Heq. apply NoDup_app.
    - apply seq_NoDup.
    - repeat constructor; simpl; lia.
    - intros x Hx Hx'. apply in_seq in Hx. simpl in Hx'. lia. }
  split.
  { rewrite Heq. apply Forall_app. split.
    - apply Forall_forall. intros x Hx. apply in_seq in Hx. lia.
    - repeat constructor; lia. }
  destruct (split_last_two (shape b)) as [p [y [x Hs]]]; [unfold ndim in Hn; lia|].
  assert (Hp : (n - 2)%nat = length p).
  { unfold n, ndim. rewrite Hs, length_app. simpl. lia. }
  exists p, y, x. split; [exact Hs|].
  assert (Hshape : shape (TransposeAxes b axes) = p ++ [x; y]).
  { unfold TransposeAxes, permute. cbn [shape]. rewrite Heq, map_app, Hs, Hp.
    rewrite map_nth_prefix. f_equal. cbn [map].
    replace (n - 1)%nat with (S (length p)) by lia.
    rewrite !app_nth2 by lia.
    replace (S (length p) - length p)%nat with 1%nat by lia.
    rewrite Nat.sub_diag. reflexivity. }
  split; [exact Hshape|].
  rewrite Hshape. unfold back, contracted_right, dim.
  replace (p ++ [x; y]) with ((p ++ [x]) ++ [y]) by (rewrite <- app_assoc; reflexivity).
  rewrite last_last.
  destruct (Nat.leb_spec (ndim b) 2) as [?|_]; [lia|].
  fold n. rewrite Hp, Hs, app_nth2 by lia. rewrite Nat.sub_diag. reflexivity.
Qed.
Lemma nth_concat_uniform {A} (n : nat) (rows : list (list A)) (i c : nat) (d : A) :
  Forall (fun r => length r = n) rows -> (c < n)%nat ->
  nth (i * n + c) (concat rows) d = nth c (nth i rows []) d.
Proof.
  intros Hall Hc. revert i. induction Hall as [|r rows Hr _ IH]; intros i.
  - cbn [concat]. destruct i; destruct (_ + c)%nat; destruct c; reflexivity.
  - cbn [concat]. destruct i as [|i].
    + cbn [nth]. rewrite app_nth1 by lia. reflexivity.
    + cbn [nth]. rewrite app_nth2 by lia. rewrite <- IH. f_equal. lia.
Qed.

Lemma length_concat_uniform {A} (n : nat) (rows : list (list A)) :
  Forall (fun r => length r = n) rows -> length (concat rows) = (length rows * n)%nat.
Proof.
  induction 1 as [|r rows Hr _ IH]; [reflexivity|].
  cbn [concat length]. rewrite length_app, IH, Hr. lia.
Qed.

Lemma uniform_map_seq {A} (f : nat -> list A) (n m : nat) :
  (forall i, length (f i) = n) -> Forall (fun r => length r = n) (map f (seq 0 m)).
Proof.
  intros Hf. apply Forall_forall. intros r Hr. apply in_map_iff in Hr.
  destruct Hr as [i [<- _]]. apply Hf.
Qed.

Lemma nth_map_seq {A} (f : nat -> A) (n i : nat) (d : A) :
  (i < n)%nat -> nth i (map f (seq 0 n)) d = f i.
Proof.
  intros Hi. rewrite (nth_indep _ d (f 0%nat)) by (rewrite length_map, length_seq; exact Hi).
  rewrite map_nth, seq_nth by exact Hi. reflexivity.
Qed.

Lemma nth_chunks {A} (n cnt : nat) (l : list A) (i : nat) :
  (i < cnt)%nat -> nth i (chunks n cnt l) [] = firstn n (skipn (i * n) l).
Proof.
  revert l i. induction cnt as [|cnt IH]; intros l i Hi; [lia|].
  cbn [chunks]. destruct i as [|i]; [reflexivity|].
  cbn [nth]. rewrite IH by lia. rewrite skipn_skipn. do 2 f_equal. lia.
Qed.

Lemma firstn_skipn_nth {A} (n o : nat) (l : list A) (d : A) :
  (o + n <= length l)%nat ->
  firstn n (skipn o l) = map (fun k => nth (o + k) l d) (seq 0 n).
Proof.
  intros Hlen. rewrite <- (map_nth_seq d (skipn o l) n) by (rewrite length_skipn; lia).
  apply map_ext. intros k. apply nth_skipn.
Qed.

Lemma flat_index_bound (J K L j k l : nat) :
  (j < J)%nat -> (k < K)%nat -> (l < L)%nat ->
  ((j * K + k) * L + l < J * (K * L))%nat.
Proof.
  intros Hj Hk Hl.
  assert (Hjk : (j * K + k + 1 <= J * K)%nat) by nia.
  assert (Hjkl : ((j * K + k + 1) * L <= J * K * L)%nat)
    by (apply Nat.mul_le_mono_r; exact Hjk).
  lia.
Qed.

Lemma indices_3d (J L K : nat) :
  indices [J; L; K]
  = flat_map (fun j => flat_map (fun l => map (fun k => [j; l; k]) (seq 0 K)) (seq 0 L))
             (seq 0 J).
Proof.
  change (indices [J; L; K])
    with (flat_map (fun j => map (cons j) (indices [L; K])) (seq 0 J)).
  apply flat_map_ext. intros j. rewrite indices_2d, map_flat_map.
  apply flat_map_ext. intros l. rewrite map_map. reflexivity.
Qed.

(** The elements of a rank-3 array after its last two axes are swapped. *)
Lemma TransposeAxes_data_3d {E} (b : Array E) (J K L : nat) (dflt : E) :
  shape b = [Z.of_nat J; Z.of_nat K; Z.of_nat L] ->
  length (data b) = (J * (K * L))%nat ->
  data (TransposeAxes b [0; 2; 1]%nat)
  = concat (map (fun j =>
                   concat (map (fun l =>
                                  map (fun k => nth ((j * K + k) * L + l)%nat (data b) dflt)
                                      (seq 0 K))
                               (seq 0 L)))
                (seq 0 J)).
Proof.
  intros Hs Hlen. unfold TransposeAxes, nat_shape, inverse_axes, permute.
  rewrite Hs. cbn [length seq map nth position Nat.eqb data].
  rewrite !Nat2Z.id, indices_3d, map_flat_map.
  rewrite (flat_map_ext _ (fun j => flat_map (fun l =>
             map (fun k => ((j * K + k) * L + l)%nat) (seq 0 K)) (seq 0 L))).
  2:{ intros j. rewrite map_flat_map. apply flat_map_ext. intros l.
      rewrite map_map. apply map_ext. intros k.
      unfold ravel. cbn [combine fold_left fst snd map nth]. lia. }
  rewrite (gather_nth _ dflt).
  - rewrite map_flat_map, flat_map_concat_map. f_equal. apply map_ext. intros j.
    rewrite map_flat_map, flat_map_concat_map. f_equal. apply map_ext. intros l.
    apply map_map.
  - apply Forall_flat_map, Forall_forall. intros j Hj. apply in_seq in Hj.
    apply Forall_flat_map, Forall_forall. intros l Hl. apply in_seq in Hl.
    apply Forall_map, Forall_forall. intros k Hk. apply in_seq in Hk.
    rewrite Hlen. apply (flat_index_bound J K L j k l); lia.
Qed.

Lemma dot_modified_b_rank3 (b : Array T) (J K L : nat) :
  K <> 0%nat ->
  shape b = [Z.of_nat J; Z.of_nat K; Z.of_nat L] ->
  dot_modified_b b
  = Transpose (mkArray [Z.of_nat (J * L); Z.of_nat K] (dtype b) (device b)
                 (data (TransposeAxes b [0; 2; 1]%nat))).
Proof.
  intros HK Hs. unfold dot_modified_b, ndim. rewrite Hs.
  cbn [length Nat.ltb Nat.leb Nat.sub seq firstn skipn rev app].
  unfold TransposeAxes at 1 2 3 4. unfold permute, back, GetTotalSize.
  rewrite Hs. cbn [shape map nth last dtype device TotalSize fold_right].
  replace (Z.of_nat J * (Z.of_nat L * (Z.of_nat K * 1)))
    with (Z.of_nat (J * L) * Z.of_nat K) by lia.
  rewrite Z.quot_mul by lia. reflexivity.
Qed.

Lemma rows_of_b_matrix_rank3 (a b : Array T) (J K L : nat) :
  K <> 0%nat -> contracted_left a = Z.of_nat K ->
  shape b = [Z.of_nat J; Z.of_nat K; Z.of_nat L] ->
  length (data b) = (J * (K * L))%nat ->
  shape (dot_b_matrix a b) = [Z.of_nat K; Z.of_nat (J * L)] /\
  rows_of (dot_b_matrix a b)
  = map (fun k => map (fun c => nth (c * K + k)%nat (data (TransposeAxes b [0; 2; 1]%nat)) szero)
                      (seq 0 (J * L)))
        (seq 0 K).
Proof.
  intros HK Hcl Hs Hlen.
  assert (Hq : Z.quot (GetTotalSize b) (contracted_left a) = Z.of_nat (J * L)).
  { rewrite Hcl. unfold GetTotalSize, TotalSize. rewrite Hs. cbn [fold_right].
    replace (Z.of_nat J * (Z.of_nat K * (Z.of_nat L * 1)))
      with (Z.of_nat (J * L) * Z.of_nat K) by lia.
    apply Z.quot_mul. lia. }
  unfold dot_b_matrix. rewrite Hq, Hcl. split; [reflexivity|].
  rewrite rows_of_mk, !Nat2Z.id, (dot_modified_b_rank3 b J K L HK Hs).
  rewrite (Transpose_data_2d _ (J * L) K szero); [|reflexivity|].
  - cbn [data]. apply chunks_concat_count.
    + rewrite length_map, length_seq. reflexivity.
    + apply uniform_map_seq. intros i. rewrite length_map, length_seq. reflexivity.
  - cbn [data]. rewrite (TransposeAxes_data_3d b J K L szero Hs Hlen).
    rewrite (length_concat_uniform (L * K)), length_map, length_seq; [lia|].
    apply uniform_map_seq. intros j.
    rewrite (length_concat_uniform K), length_map, length_seq; [reflexivity|].
    apply uniform_map_seq. intros l. rewrite length_map, length_seq. reflexivity.
Qed.

(** X14: for a kernel that computes the 2-D product, [Dot] of an [M]-by-[K]
    matrix and a [J]-by-[K]-by-[L] array returns the [M]-by-[J]-by-[L] array
    whose entry [(i, j, l)] is the sum over [k] of [a[i][k] * b[j][k][l]],
    provided [K] is not 0: the transposition, the reshape and the second
    transposition of the right operand make the kernel contract the
    second-to-last axis of [b]. *)
Theorem Dot_rank3_contracts_second_to_last_axis
    (a b : Array T) (M J K L : nat) (out_dtype : option Dtype) (s : State T) :
  (forall p q out, DotKernel p q out = Some (matrix_product_data p q)) ->
  shape a = [Z.of_nat M; Z.of_nat K] ->
  shape b = [Z.of_nat J; Z.of_nat K; Z.of_nat L] ->
  length (data b) = (J * (K * L))%nat ->
  K <> 0%nat ->
  exists r s',
    Dot a b out_dtype s = (Ok r, s') /\
    shape r = [Z.of_nat M; Z.of_nat J; Z.of_nat L] /\
    forall i j l, (i < M)%nat -> (j < J)%nat -> (l < L)%nat ->
      tensor_entry J L (data r) i j l
      = dot_product (nth i (rows_of a) [])
                    (map (fun k => tensor_entry K L (data b) j k l) (seq 0 K)).
Proof.
  intros Hkernel Ha Hb Hlen HK'.
  assert (Hwa : wf_shape (shape a)) by (rewrite Ha; unfold wf_shape; repeat constructor; lia).
  assert (Hwb : wf_shape (shape b)) by (rewrite Hb; unfold wf_shape; repeat constructor; lia).
  assert (Hcl : contracted_left a = Z.of_nat K)
    by (unfold contracted_left; rewrite Ha; reflexivity).
  assert (Hcr : contracted_right b = Z.of_nat K)
    by (unfold contracted_right, dim, ndim; rewrite Hb; reflexivity).
  assert (Hds : dot_shape a b = [Z.of_nat M; Z.of_nat J; Z.of_nat L])
    by (unfold dot_shape, ndim; rewrite Ha, Hb; reflexivity).
  rewrite (Dot_run a b out_dtype s Hwa Hwb)
    by (rewrite ?Hcr; unfold ndim; rewrite ?Ha, ?Hb; simpl; lia).
  unfold Dot_reduced. rewrite Hcl, Hcr, Z.eqb_refl, Hds. cbn [negb].
  destruct (Z.eqb_spec (Z.of_nat K) 0) as [HK|HK].
  - lia.
  - rewrite Hkernel.
    eexists. eexists. split; [reflexivity|]. split; [reflexivity|].
    intros i j l Hi Hj Hl. unfold tensor_entry. cbn [data].
    destruct (rows_of_b_matrix_rank3 a b J K L HK' Hcl Hb Hlen) as [Hsb Hrows].
    unfold matrix_product_data. rewrite Hrows. unfold dim. rewrite Hsb.
    cbn [nth]. rewrite Nat2Z.id.
    assert (Hra : rows_of (dot_a_matrix a) = rows_of a).
    { rewrite (dot_a_matrix_eq a) by (unfold ndim; rewrite ?Ha; simpl; lia).
      rewrite rows_of_mk, (rows_of_shape a _ _ Ha), Hcl.
      replace (TotalSize (removelast (shape a))) with (Z.of_nat M)
        by (rewrite Ha; unfold TotalSize; simpl; lia).
      reflexivity. }
    rewrite Hra.
    assert (HlenA : length (rows_of a) = M).
    { rewrite (rows_of_shape a _ _ Ha), length_chunks. apply Nat2Z.id. }
    replace ((i * J + j) * L + l)%nat with (i * (J * L) + (j * L + l))%nat by lia.
    assert (Hc : (j * L + l < J * L)%nat) by nia.
    rewrite (nth_concat_uniform (J * L)); [| |exact Hc].
    2:{ apply mat_mul_rows. }
    unfold mat_mul.
    rewrite (nth_indep _ [] (map (fun c => dot_product [] c) (columns (J * L) (map (fun k : nat => map (fun c : nat => nth (c * K + k) (data (TransposeAxes b [0%nat; 2%nat; 1%nat])) szero) (seq 0 (J * L))) (seq 0 K)))))
      by (rewrite length_map; lia).
    rewrite (map_nth (fun r => map (fun c => dot_product r c) _)).
    unfold columns at 1. rewrite map_map, nth_map_seq by exact Hc.
    f_equal. rewrite map_map. apply map_ext_in. intros k Hk. apply in_seq in Hk.
    rewrite nth_map_seq by exact Hc.
    rewrite (TransposeAxes_data_3d b J K L szero Hb Hlen).
    replace ((j * L + l) * K + k)%nat with (j * (L * K) + (l * K + k))%nat by lia.
    rewrite (nth_concat_uniform (L * K)); [| |nia].
    2:{ apply uniform_map_seq. intros j'.
        rewrite (length_concat_uniform K), length_map, length_seq; [reflexivity|].
        apply uniform_map_seq. intros l'. rewrite length_map, length_seq. reflexivity. }
    rewrite (nth_indep _ [] ((fun j0 => concat (map (fun l0 => map (fun k0 => nth ((j0 * K + k0) * L + l0) (data b) szero) (seq 0 K)) (seq 0 L))) 0%nat))
      by (rewrite length_map, length_seq; lia).
    rewrite nth_map_seq by lia.
    rewrite (nth_concat_uniform K); [| |lia].
    2:{ apply uniform_map_seq. intros l'. rewrite length_map, length_seq. reflexivity. }
    rewrite (nth_indep _ [] ((fun l0 => map (fun k0 => nth ((j * K + k0) * L + l0) (data b) szero) (seq 0 K)) 0%nat))
      by (rewrite length_map, length_seq; lia).
    rewrite nth_map_seq by lia. rewrite nth_map_seq by lia. reflexivity.
Qed.
End Further.

(* ================================================================= *)
(** ** The theorems at concrete inputs *)

Ltac wf_shape_tac := unfold wf_shape; repeat constructor; lia.

Lemma Dot_output_shape_witness :
  exists r s', Dot A23 B232 None initial_state = (Ok r, s') /\ shape r = [2; 2; 2].
Proof.
  destruct (Dot_output_shape A23 B232 None initial_state) as [r [s' [Hrun [_ Hshape]]]].
  - wf_shape_tac.
  - wf_shape_tac.
  - vm_compute; lia.
  - vm_compute; lia.
  - reflexivity.
  - intros _. vm_compute. discriminate.
  - intros x y out. simpl. discriminate.
  - exists r, s'. split; [exact Hrun|]. apply Hshape. vm_compute; lia.
Defined.

Lemma Dot_gradient_rule_witness :
  exists r s' node,
    Dot A22 B22 None initial_state = (Ok r, s') /\
    graph s' = [node] /\
    length (op_targets node) = 2%nat.
Proof.
  destruct (Dot_gradient_rule A22 B22 None initial_state [19; 22; 43; 50]%float)
    as [r [s' [node [ga [gb [Hrun [Hgraph [_ [_ [_ [_ [Htargets _]]]]]]]]]]]].
  - wf_shape_tac.
  - wf_shape_tac.
  - vm_compute; lia.
  - vm_compute; lia.
  - reflexivity.
  - vm_compute. discriminate.
  - vm_compute. reflexivity.
  - reflexivity.
  - reflexivity.
  - reflexivity.
  - exists r, s', node. split; [exact Hrun|]. split; [exact Hgraph|].
    rewrite Htargets. reflexivity.
Defined.

Lemma Dot_zero_contraction_witness :
  exists r,
    Dot A20 B03 None initial_state = (Ok r, initial_state) /\
    shape r = [2; 3] /\
    data r = repeat 0%float 6.
Proof.
  destruct (Dot_zero_contraction A20 B03 None initial_state)
    as [r [Hrun [_ [Hshape [_ [Hdata _]]]]]].
  - wf_shape_tac.
  - wf_shape_tac.
  - vm_compute; lia.
  - vm_compute; lia.
  - vm_compute; lia.
  - reflexivity.
  - reflexivity.
  - exists r. split; [exact Hrun|]. split; [exact Hshape|exact Hdata].
Defined.

Lemma DimensionError_exactly_witness :
  raises_DimensionError (Dot A23 B22 None) initial_state /\
  raises_DimensionError (Eigh A23 "L") initial_state /\
  raises_DimensionError (Eigvalsh A23 "L") initial_state.
Proof.
  destruct (DimensionError_exactly_on_invalid_shapes A23 B22 None "L" initial_state)
    as [_ [HD [HE [HV _]]]].
  - wf_shape_tac.
  - wf_shape_tac.
  - split; [|split].
    + apply HD; [vm_compute; lia|]. repeat split; vm_compute; try lia; discriminate.
    + apply HE. right. vm_compute. discriminate.
    + apply HV. right. vm_compute. discriminate.
Defined.

Lemma Dot_scalar_witness :
  exists r, Multiply three B22 = Ok r /\ Dot three B22 None initial_state = (Ok r, initial_state).
Proof.
  destruct (Dot_scalar_degenerates_to_multiply three B22 None initial_state)
    as [r [Hm [Hrun _]]].
  - left. reflexivity.
  - exists r. split; assumption.
Defined.

Lemma Dot_scalar_ignores_out_dtype_witness :
  exists r,
    Dot three B22 (Some kInt8) initial_state = (Ok r, initial_state) /\
    dtype r = kFloat64.
Proof.
  destruct (Dot_scalar_ignores_out_dtype three B22 kInt8 initial_state)
    as [[r [_ [Hrun Hdtype]]] _].
  - left. reflexivity.
  - exists r. split; [exact Hrun|]. rewrite Hdtype. reflexivity.
Defined.

Lemma Eigh_missing_gradients_witness :
  run_backward eigh_closure (eigh_context D22 w2 I22 [None; Some G22]) initial_state
  = run_backward eigh_closure
      (eigh_context D22 w2 I22 [Some (Zeros [2] kFloat64 cpu); Some G22]) initial_state.
Proof.
  destruct (Eigh_missing_gradients_are_zeros D22 w2 I22 [None; Some G22] 2 initial_state)
    as [_ [Hsame _]].
  - reflexivity.
  - reflexivity.
  - exact Hsame.
Defined.



Lemma Eigh_gradient_formula_witness :
  exists grad_a s',
    run_backward eigh_closure (eigh_context D22 w2 I22 [Some gw2; Some G22]) initial_state
    = (Ok grad_a, s') /\
    rows_of grad_a
    = eigh_gradient_formula 2 (data w2) (rows_of I22) (rows_of G22) (data gw2).
Proof.
  destruct (Eigh_gradient_formula D22 w2 I22 (Some gw2) (Some G22) 2 initial_state)
    as [F0 [F1 [F2 [grad_a [s' [_ [_ [_ [_ [_ [_ [_ [Hrun [_ Hrows]]]]]]]]]]]]]].
  - intros p q out. reflexivity.
  - reflexivity.
  - reflexivity.
  - reflexivity.
  - reflexivity.
  - reflexivity.
  - reflexivity.
  - intros g Hg. injection Hg as <-. split; reflexivity.
  - intros g Hg. injection Hg as <-. reflexivity.
  - exists grad_a, s'. split; [exact Hrun|exact Hrows].
Defined.

Lemma Dot_kernel_operands_witness :
  exists b_matrix,
    shape b_matrix = [3; 4] /\
    dtype b_matrix = kFloat64 /\
    TotalSize (dot_shape A23 B232) = 2 * 4 /\
    fst (Dot A23 B232 None initial_state)
    = Ok (float64_array [2; 2; 2]
            (matrix_product_data (float64_array [2; 3] (data A23)) b_matrix)).
Proof.
  destruct (Dot_kernel_operands A23 B232 None initial_state)
    as [b_matrix [Hshape [Hdtype [_ [Hsize Hrun]]]]].
  - wf_shape_tac.
  - wf_shape_tac.
  - vm_compute; lia.
  - vm_compute; lia.
  - reflexivity.
  - vm_compute. discriminate.
  - exists b_matrix. split; [exact Hshape|]. split; [exact Hdtype|].
    split; [exact Hsize|exact Hrun].
Defined.

Lemma Dot_kernel_failure_witness :
  fst (Dot (H1 := FailingBackend) A22 B22 None initial_state)
  = Throw (ChainerxError "DotKernel") /\
  graph (snd (Dot (H1 := FailingBackend) A22 B22 None initial_state)) = [] /\
  kernel_log (snd (Dot (H1 := FailingBackend) A22 B22 None initial_state))
  = [mkKernelCall kDotKernel false].
Proof.
  destruct (Dot_kernel_failure (H1 := FailingBackend) A22 B22 None initial_state)
    as [Hthrow [Hgraph [_ Hlog]]].
  - wf_shape_tac.
  - wf_shape_tac.
  - vm_compute; lia.
  - vm_compute; lia.
  - reflexivity.
  - vm_compute. discriminate.
  - intros x y out. reflexivity.
  - split; [exact Hthrow|]. split; [exact Hgraph|exact Hlog].
Defined.

Lemma Eigh_kernel_failure_witness :
  fst (Eigh (H1 := FailingBackend) D22 "L" initial_state)
  = Throw (ChainerxError "SyevdKernel") /\
  fst (Eigvalsh (H1 := FailingBackend) D22 "L" initial_state)
  = Throw (ChainerxError "SyevdKernel") /\
  graph (snd (Eigh (H1 := FailingBackend) D22 "L" initial_state)) = [].
Proof.
  destruct (Eigh_kernel_failure (H1 := FailingBackend) D22 "L" initial_state)
    as [HE HV].
  - reflexivity.
  - reflexivity.
  - intros compute_v. reflexivity.
  - rewrite HE, HV. repeat split.
Defined.

Lemma Dot_targets_witness :
  exists node,
    graph (snd (Dot (H2 := FirstIsOne) A22 B22 None initial_state)) = [node] /\
    map def_input (op_targets node) = [0%nat] /\
    op_retained_inputs node = [1%nat].
Proof.
  destruct (Dot_targets_follow_differentiability (H2 := FirstIsOne)
              A22 B22 None initial_state [19; 22; 43; 50]%float)
    as [nodes [Hgraph [Hlen Hall]]].
  - wf_shape_tac.
  - wf_shape_tac.
  - vm_compute; lia.
  - vm_compute; lia.
  - reflexivity.
  - vm_compute. discriminate.
  - vm_compute. reflexivity.
  - reflexivity.
  - destruct nodes as [|node [|node' nodes]]; try discriminate Hlen.
    exists node. split; [exact Hgraph|].
    inversion Hall as [|x l [_ [Htargets [Hretained _]]] _]. subst.
    split; [exact Htargets|exact Hretained].
Defined.

Lemma Eigh_attaches_one_target_witness :
  fst (Eigh D22 "L" initial_state) = Ok (w2, I22) /\
  graph (snd (Eigh D22 "L" initial_state))
  = [mkOpNode "eigh" [D22] [w2; I22] [0%nat] [0%nat; 1%nat] [mkTargetDef 0 eigh_closure]] /\
  graph (snd (Eigh D22 "L" (mkState false [] []))) = [].
Proof.
  split; [|split].
  - apply (Eigh_attaches_one_target D22 w2 I22 "L" initial_state);
      vm_compute; reflexivity.
  - apply (Eigh_attaches_one_target D22 w2 I22 "L" initial_state);
      vm_compute; reflexivity.
  - apply (Eigh_attaches_one_target D22 w2 I22 "L" (mkState false [] []));
      vm_compute; reflexivity.
Defined.

Lemma Dot_of_matrices_witness :
  exists r s',
    Dot A22 B22 (Some kFloat32) initial_state = (Ok r, s') /\
    dtype r = kFloat32 /\
    rows_of r = mat_mul 2 (rows_of A22) (rows_of B22) /\
    kernel_log s' = [mkKernelCall kDotKernel false].
Proof.
  destruct (Dot_of_matrices_is_their_product A22 B22 2 2 2 (Some kFloat32) initial_state)
    as [r [s' [Hrun [_ [Hdtype [Hrows [_ Hlog]]]]]]].
  - intros p q out. reflexivity.
  - reflexivity.
  - reflexivity.
  - exists r, s'. split; [exact Hrun|]. split; [exact Hdtype|].
    split; [exact Hrows|]. apply Hlog. discriminate.
Defined.

Lemma Dot_gradients_witness :
  exists grad_a sa grad_b sb,
    run_backward (DotGradA (InputToken 1) kFloat64)
      (mkBackwardContext [A22; B22] [] [Some G22]) initial_state = (Ok grad_a, sa) /\
    rows_of grad_a = mat_mul 2 (rows_of G22) (mat_transpose 2 (rows_of B22)) /\
    run_backward (DotGradB (InputToken 0) kFloat64)
      (mkBackwardContext [A22; B22] [] [Some G22]) initial_state = (Ok grad_b, sb) /\
    rows_of grad_b = mat_mul 2 (mat_transpose 2 (rows_of A22)) (rows_of G22).
Proof.
  destruct (Dot_gradients_are_matrix_products A22 B22 G22 2 2 2 kFloat64 kFloat64
              initial_state)
    as [ga [sa [gb [sb [Hra [_ [_ [Hrowsa [Hrb [_ [_ Hrowsb]]]]]]]]]]].
  - intros p q out. reflexivity.
  - reflexivity.
  - reflexivity.
  - reflexivity.
  - reflexivity.
  - reflexivity.
  - exists ga, sa, gb, sb. split; [exact Hra|]. split; [exact Hrowsa|].
    split; [exact Hrb|exact Hrowsb].
Defined.

Lemma Dot_gradients_shapes_witness :
  exists grad_a sa grad_b sb,
    run_backward (DotGradA (InputToken 1) kFloat64)
      (mkBackwardContext [dot_a_matrix A23; dot_b_matrix A23 B232] []
         [Some (float64_array [2; 4] [1; 1; 1; 1; 1; 1; 1; 1]%float)])
      initial_state = (Ok grad_a, sa) /\
    shape grad_a = [2; 3] /\
    run_backward (DotGradB (InputToken 0) kFloat64)
      (mkBackwardContext [dot_a_matrix A23; dot_b_matrix A23 B232] []
         [Some (float64_array [2; 4] [1; 1; 1; 1; 1; 1; 1; 1]%float)])
      initial_state = (Ok grad_b, sb) /\
    shape grad_b = [3; 4].
Proof.
  destruct (Dot_gradients_have_operand_shapes A23 B232
              (float64_array [2; 4] [1; 1; 1; 1; 1; 1; 1; 1]%float) initial_state)
    as [ga [sa [gb [sb [Hra [_ [Hsa [_ [Hrb [_ [Hsb _]]]]]]]]]]].
  - wf_shape_tac.
  - wf_shape_tac.
  - vm_compute; lia.
  - vm_compute; lia.
  - reflexivity.
  - vm_compute. discriminate.
  - intros p q out. simpl. discriminate.
  - reflexivity.
  - exists ga, sa, gb, sb. split; [exact Hra|]. split; [exact Hsa|].
    split; [exact Hrb|exact Hsb].
Defined.

Lemma Dot_returns_well_formed_witness :
  wf (float64_array [2; 2; 2] [22; 28; 58; 64; 49; 64; 139; 154]%float).
Proof.
  apply (Dot_returns_well_formed A23 B232 _ None initial_state
           (snd (Dot A23 B232 None initial_state))).
  - split; [wf_shape_tac|reflexivity].
  - split; [wf_shape_tac|reflexivity].
  - intros d Hd. injection Hd as <-. vm_compute. reflexivity.
  - vm_compute. reflexivity.
Defined.

Lemma Eigh_closure_on_empty_matrix_witness :
  exists grad_a,
    run_backward eigh_closure
      (eigh_context (float64_array [0; 0] []) (float64_array [0] [])
         (float64_array [0; 0] []) [None; Some (float64_array [0; 0] [])])
      initial_state
    = (Ok grad_a, initial_state) /\
    shape grad_a = [0; 0] /\ data grad_a = [].
Proof.
  apply (Eigh_closure_on_empty_matrix (float64_array [0; 0] []) (float64_array [0] [])
           (float64_array [0; 0] []) None (Some (float64_array [0; 0] [])) initial_state).
  - reflexivity.
  - reflexivity.
  - reflexivity.
  - intros g Hg. discriminate Hg.
  - intros g Hg. injection Hg as <-. reflexivity.
Defined.

Lemma Dot_rank3_witness :
  exists r s',
    Dot A23 B232 None initial_state = (Ok r, s') /\
    shape r = [2; 2; 2] /\
    tensor_entry 2 2 (data r) 1 0 1
    = dot_product (nth 1 (rows_of A23) [])
        (map (fun k => tensor_entry 3 2 (data B232) 0 k 1) (seq 0 3)).
Proof.
  destruct (Dot_rank3_contracts_second_to_last_axis A23 B232 2 2 3 2 None initial_state)
    as [r [s' [Hrun [Hshape Hentry]]]].
  - intros p q out. reflexivity.
  - reflexivity.
  - reflexivity.
  - reflexivity.
  - discriminate.
  - exists r, s'. split; [exact Hrun|]. split; [exact Hshape|].
    apply Hentry; lia.
Defined.

Lemma Dot_transposes_witness :
  b_transpose_axes (ndim B232) = [0; 2; 1]%nat /\
  shape (TransposeAxes B232 (b_transpose_axes (ndim B232))) = [2; 2; 3].
Proof.
  destruct (Dot_transposes_the_last_two_axes B232) as [_ [Haxes _]].
  - vm_compute; lia.
  - split; [exact Haxes|reflexivity].
Defined.




(* ================================================================= *)
(** ** Examples *)

(** The scenario of the spec: [[1,2],[3,4]] . [[5,6],[7,8]]. *)
Example Dot_2x2 :
  fst (Dot A22 B22 None initial_state)
  = Ok (float64_array [2; 2] [19; 22; 43; 50]%float).
Proof. vm_compute. reflexivity. Qed.

(** Its gradients for an output gradient of ones. *)
Example Dot_2x2_grad_a :
  fst (run_backward (DotGradA (InputToken 1) kFloat64)
         (mkBackwardContext [A22; B22] [] [Some G22]) initial_state)
  = Ok (float64_array [2; 2] [11; 15; 11; 15]%float).
Proof. vm_compute. reflexivity. Qed.

Example Dot_2x2_grad_b :
  fst (run_backward (DotGradB (InputToken 0) kFloat64)
         (mkBackwardContext [A22; B22] [] [Some G22]) initial_state)
  = Ok (float64_array [2; 2] [4; 4; 6; 6]%float).
Proof. vm_compute. reflexivity. Qed.

(** A right operand of rank 3: the last axis of the left operand is
    contracted with the second-to-last axis of the right one. *)
Example Dot_2x3_2x3x2 :
  fst (Dot A23 B232 None initial_state)
  = Ok (float64_array [2; 2; 2] [22; 28; 58; 64; 49; 64; 139; 154]%float).
Proof. vm_compute. reflexivity. Qed.

Example Transpose_2x3 :
  Transpose A23 = float64_array [3; 2] [1; 4; 2; 5; 3; 6]%float.
Proof. vm_compute. reflexivity. Qed.

(** A mismatch is reported before any kernel runs. *)
Example Dot_mismatch :
  Dot A23 B22 None initial_state
  = (Throw (DimensionError "Axis dimension mismatch"), initial_state).
Proof. vm_compute. reflexivity. Qed.

(** The kernel of [Dot] runs unrecorded and the "dot" node has two targets. *)
Example Dot_2x2_state :
  kernel_log (snd (Dot A22 B22 None initial_state)) = [mkKernelCall kDotKernel false] /\
  backprop_mode (snd (Dot A22 B22 None initial_state)) = true /\
  map (fun node => (op_name node, op_retained_inputs node, op_targets node))
      (graph (snd (Dot A22 B22 None initial_state)))
  = [("dot"%string, [1%nat; 0%nat],
      [mkTargetDef 0 (DotGradA (InputToken 1) kFloat64);
       mkTargetDef 1 (DotGradB (InputToken 0) kFloat64)])].
Proof. vm_compute. repeat split. Qed.

(** [Eigh] of diag(1, 3) and the three stages of [F]. *)
Example Eigh_diagonal :
  fst (Eigh D22 "L" initial_state) = Ok (w2, I22) /\
  fst (Eigvalsh D22 "L" initial_state) = Ok w2 /\
  graph (snd (Eigvalsh D22 "L" initial_state)) = [].
Proof. vm_compute. repeat split. Qed.

Example EighF_stages :
  rmap data (EighF_difference w2) = Ok [0; 2; -2; 0]%float /\
  rmap data (rbind (EighF_difference w2) (EighF_masked D22))
  = Ok [infinity; 2; -2; infinity]%float /\
  rmap data (EighF D22 w2) = Ok [0; 0.5; -0.5; 0]%float.
Proof. vm_compute. repeat split. Qed.

(** The closure of [Eigh] with an absent [grad_w]. *)
Example Eigh_closure_value :
  fst (run_backward eigh_closure (eigh_context D22 w2 I22 [None; Some G22]) initial_state)
  = Ok (float64_array [2; 2] [0; 0.5; -0.5; 0]%float).
Proof. vm_compute. reflexivity. Qed.
